(** * Scientific-Dataset-Analyzer-Cleaner: the splitter and the cleaning pipeline

    A shallow embedding of [src/split_csv.py] (module [SplitCsv]), of
    [src/scriptes/data_cleaner.py] (modules [DataCleaner] and
    [DataCleanerFloat]) and of [src/scriptes/data_quality_analyzer.py]
    (module [DataQualityAnalyzer]), with the properties of the
    specification stated over it.

    Conventions of the embedding.
    - A pandas DataFrame is column-major, as pandas stores it: a list of
      named columns, each a typed vector of cells in which a missing cell
      (NaN, NaT, None) is [None].
    - Numbers are exact rationals ([Q]); IEEE rounding and overflow are
      outside the model.  [DataCleaner] is the cleaner on frames of finite
      numbers; [DataCleanerFloat] is the cleaner on float64 cells, which
      hold the infinities as well, for the properties that depend on them.
    - A Python exception is a value of [exn]; a function that can let one
      escape returns the state reached together with the exception. *)

From Stdlib Require Import Ascii String.
From Stdlib Require Import List Arith Lia Bool ZArith QArith Qround Lqa.
Import ListNotations.

Local Open Scope nat_scope.

(* ================================================================== *)
(** * split_csv.py                                                      *)
(* ================================================================== *)

Module SplitCsv.

(** ** Delimiter detection (lines 10-15) *)

(** [delimiters = [',', '\t', ';', '|']] *)
Definition delimiters : list ascii :=
  [","%char; "009"%char; ";"%char; "|"%char].

(** [first_line.count(d)] for a one-character [d]. *)
Fixpoint count (first_line : string) (d : ascii) : nat :=
  match first_line with
  | EmptyString => 0
  | String c rest =>
      (if Ascii.eqb c d then 1 else 0) + count rest d
  end.

(** [max(counts)] on a list of non-negative counts. *)
Definition max_of (counts : list nat) : nat := fold_right Nat.max 0 counts.

(** [counts.index(x)]: the first position holding [x]; [None] stands for
    the [ValueError] Python raises when [x] is absent. *)
Fixpoint index (x : nat) (counts : list nat) : option nat :=
  match counts with
  | [] => None
  | y :: rest =>
      if y =? x then Some 0 else option_map S (index x rest)
  end.

(** [delimiters[counts.index(max(counts))]] *)
Definition detect_delimiter (first_line : string) : option ascii :=
  let counts := map (count first_line) delimiters in
  match index (max_of counts) counts with
  | Some i => nth_error delimiters i
  | None => None
  end.

(** ** The primary path (lines 27-51) *)

(** [math.ceil(total_rows / num_splits)] for [num_splits >= 1], the
    quotient taken as exact. *)
Definition ceil_div (total_rows num_splits : nat) : nat :=
  if total_rows mod num_splits =? 0
  then total_rows / num_splits
  else S (total_rows / num_splits).

Section Rows.

Variable row : Type.

(** [df.iloc[start_idx:end_idx]]: an empty slice when
    [end_idx <= start_idx] or [start_idx] is past the end. *)
Definition iloc (start_idx end_idx : nat) (df : list row) : list row :=
  firstn (end_idx - start_idx) (skipn start_idx df).

(** The row range of part [i] (0-based), lines 41-42. *)
Definition start_idx (rows_per_split i : nat) : nat := i * rows_per_split.

Definition end_idx (rows_per_split total_rows i : nat) : nat :=
  Nat.min ((i + 1) * rows_per_split) total_rows.

(** The loop [for i in range(num_splits)]: the frames written to
    [part_1.csv], [part_2.csv], ... in that order. *)
Definition split_parts (df : list row) (num_splits : nat) : list (list row) :=
  let total_rows := length df in
  let rows_per_split := ceil_div total_rows num_splits in
  map (fun i => iloc (start_idx rows_per_split i)
                     (end_idx rows_per_split total_rows i) df)
      (seq 0 num_splits).

(** [split_csv], primary path.  [num_splits = 0] makes the division on
    line 28 raise [ZeroDivisionError], which leaves the primary path
    ([None]). *)
Definition split_csv (df : list row) (num_splits : nat)
  : option (list (list row)) :=
  if num_splits =? 0 then None else Some (split_parts df num_splits).

End Rows.

Arguments iloc {row}.
Arguments split_parts {row}.
Arguments split_csv {row}.

(** ** The fallback path (lines 64-99) *)

Section Chunks.

Variable row : Type.

(** The loops of the fallback are embedded as the calls of [to_csv] they
    make, in order, each a part number with the rows of that part; what
    the file system makes of the calls is [to_csv_all] below.

    Lines 84-92, the [while] loop: as long as a full split is buffered and
    [current_split < num_splits - 1], save the first [rows_per_split]
    rows as [part_<current_split + 1>.csv] and keep the rest.  Every turn
    increments [current_split], so the loop is entered with
    [fuel = num_splits] and leaves by its own test. *)
Fixpoint write_full_splits (fuel rows_per_split num_splits : nat)
  (output_df : list row) (current_split : nat)
  : list (nat * list row) * list row * nat :=
  match fuel with
  | 0 => ([], output_df, current_split)
  | S fuel' =>
      if (rows_per_split <=? length output_df)
         && (current_split <? num_splits - 1)
      then
        let '(files, output_df', current_split') :=
          write_full_splits fuel' rows_per_split num_splits
            (skipn rows_per_split output_df) (current_split + 1) in
        ((current_split + 1, firstn rows_per_split output_df) :: files,
         output_df', current_split')
      else ([], output_df, current_split)
  end.

(** Lines 75-92, the [for] loop over the chunks [read_csv] yields: each
    chunk is appended to the buffer ([pd.concat]) and the full splits are
    written.  [current_row] is counted and never read. *)
Fixpoint read_chunks (chunks : list (list row))
  (rows_per_split num_splits : nat) (output_df : list row)
  (current_split : nat) : list (nat * list row) * list row * nat :=
  match chunks with
  | [] => ([], output_df, current_split)
  | chunk :: rest =>
      let '(files, output_df1, current_split1) :=
        write_full_splits num_splits rows_per_split num_splits
          (output_df ++ chunk) current_split in
      let '(files', output_df2, current_split2) :=
        read_chunks rest rows_per_split num_splits
          output_df1 current_split1 in
      (files ++ files', output_df2, current_split2)
  end.

(** [to_csv] into the directory 'split_files', for the calls of the
    fallback in their order.  The fallback never creates that directory:
    only line 36 of the primary path does, once its read has succeeded.
    [to_csv] raises [OSError] when the directory of its target is missing,
    and the state of the directory does not change while the fallback runs,
    so either every call writes its file or the first one raises, before
    any file is written, and the handler of line 101 ends the run ([None]). *)
Definition to_csv_all (split_files_exists : bool)
  (calls : list (nat * list row)) : option (list (nat * list row)) :=
  match calls with
  | [] => Some []
  | _ :: _ => if split_files_exists then Some calls else None
  end.

(** The inner [try] block: the files written, by part number, when the
    file can be read again and arrives in [chunks].  [split_files_exists]
    tells whether the directory 'split_files' exists when the fallback
    starts.  [line_count] is the number of lines of the file, one more than
    [total_rows] (an empty file gives -1, and the same [rows_per_split] 0
    as here).  [None] is the handler of line 101, reached with no file
    written: [num_splits = 0] raises [ZeroDivisionError] on line 68, and a
    missing directory makes the first [to_csv] raise. *)
Definition split_csv_fallback (split_files_exists : bool) (line_count : nat)
  (chunks : list (list row)) (num_splits : nat)
  : option (list (nat * list row)) :=
  if num_splits =? 0 then None
  else
    let total_rows := line_count - 1 in
    let rows_per_split := ceil_div total_rows num_splits in
    let '(files, output_df, current_split) :=
      read_chunks chunks rows_per_split num_splits [] 0 in
    to_csv_all split_files_exists
      (files ++
       if negb (match output_df with [] => true | _ => false end)
          && (current_split <? num_splits)
       then [(current_split + 1, output_df)]
       else []).

(** ** Both paths (lines 7-103) *)

(** How a call of [split_csv] ends: line 53, line 99 or line 102. *)
Inductive outcome : Type :=
| SplitComplete (parts : list (list row))
| SplitCompleteChunks (files : list (nat * list row))
| AlsoFailed.

(** The outer [try] and its handler.  [read] is what [read_csv] returns on
    line 20, [None] when it raises (the case the fallback is written for).
    An exception raised before line 36, by the read or by the division of
    line 28, leaves 'split_files' as it was before the call:
    [split_files_existed].  Failures of the operating system while the
    primary path writes (lines 51 and 57) are not modelled. *)
Definition split_csv_paths (split_files_existed : bool)
  (read : option (list row)) (line_count : nat) (chunks : list (list row))
  (num_splits : nat) : outcome :=
  let alternative :=
    match split_csv_fallback split_files_existed line_count chunks
            num_splits with
    | Some files => SplitCompleteChunks files
    | None => AlsoFailed
    end in
  match read with
  | Some df =>
      match split_csv df num_splits with
      | Some parts => SplitComplete parts
      | None => alternative
      end
  | None => alternative
  end.

End Chunks.

Arguments write_full_splits {row}.
Arguments read_chunks {row}.
Arguments to_csv_all {row}.
Arguments split_csv_fallback {row}.
Arguments SplitComplete {row}.
Arguments SplitCompleteChunks {row}.
Arguments AlsoFailed {row}.
Arguments split_csv_paths {row}.

End SplitCsv.

(* ================================================================== *)
(** * scriptes/data_cleaner.py                                          *)
(* ================================================================== *)

Module DataCleaner.

(** ** Data model *)

(** The exceptions the modelled code can meet. [LibraryError] is a
    failure inside scikit-learn's imputer. *)
Inductive exn : Type :=
| KeyError
| IndexError
| ValueError
| TypeError
| LibraryError.

(** A pandas Series by dtype.  [Numeric] is int64/float64 (what
    [select_dtypes(include=[np.number])] selects), [Object] is the text
    dtype of [read_csv], [Boolean] is bool (never missing), [Datetime] is
    datetime64 in nanoseconds. *)
Inductive series : Type :=
| Numeric (values : list (option Q))
| Object (values : list (option string))
| Boolean (values : list bool)
| Datetime (values : list (option Z)).

Inductive dtype : Type := float64 | object | bool_ | datetime64.

Record column : Type := { name : string; data : series }.

(** Column labels are unique ([read_csv] renames duplicates), so a loop
    over labels visits the columns in frame order. *)
Definition DataFrame : Type := list column.

Definition dtype_of (s : series) : dtype :=
  match s with
  | Numeric _ => float64
  | Object _ => object
  | Boolean _ => bool_
  | Datetime _ => datetime64
  end.

Definition series_len (s : series) : nat :=
  match s with
  | Numeric xs => length xs
  | Object xs => length xs
  | Boolean xs => length xs
  | Datetime xs => length xs
  end.

(** [len(df)]: the length of the index, which every column shares. *)
Definition len (df : DataFrame) : nat :=
  match df with
  | [] => 0
  | c :: _ => series_len (data c)
  end.

(** A frame is rectangular. *)
Definition rectangular (df : DataFrame) : Prop :=
  Forall (fun c => series_len (data c) = len df) df.

(** What the methods print, without the banners and without the data type
    changes of lines 150-156. *)
Inductive message : Type :=
| ImputedMean (col : string) (mean_value : option Q)
| ImputedMode (col : string) (mode_value : string)
| KnnCompleted (n_columns : nat)
| KnnNoSuitable
| KnnNoNumeric
| KnnError (e : exn)
| OutliersCapped (col : string) (n_outliers : nat) (lower_bound upper_bound : Q)
| ConvertedDatetime (col : string)
| CouldNotConvert (col : string) (e : exn)
| ConvertedNumeric (col : string)
| MissingComparison (col : string) (original_missing cleaned_missing : nat)
| Saved.

(** ** Series primitives *)

Definition isnull {A : Type} (x : option A) : bool :=
  match x with None => true | Some _ => false end.

Definition notnull {A : Type} (x : option A) : bool := negb (isnull x).

(** [s.isnull().any()] *)
Definition isnull_any {A : Type} (xs : list (option A)) : bool :=
  existsb isnull xs.

(** [s.dropna()] *)
Fixpoint dropna {A : Type} (xs : list (option A)) : list A :=
  match xs with
  | [] => []
  | Some v :: rest => v :: dropna rest
  | None :: rest => dropna rest
  end.

(** [s.fillna(value)]; filling with NaN changes nothing. *)
Definition fillna {A : Type} (value : option A) (xs : list (option A))
  : list (option A) :=
  map (fun x => match x with None => value | Some _ => x end) xs.

Definition Qsum (vals : list Q) : Q := fold_right Qplus 0%Q vals.

(** [s.mean()] on finite values: NaN ([None]) when no value is present.
    On a float64 column that holds infinities it is [DataCleanerFloat.mean]. *)
Definition mean (xs : list (option Q)) : option Q :=
  match dropna xs with
  | [] => None
  | vals => Some (Qsum vals / inject_Z (Z.of_nat (length vals)))%Q
  end.

(** Ascending sort, as [np.sort]. *)
Fixpoint insert_sorted {A : Type} (leb : A -> A -> bool) (x : A) (l : list A)
  : list A :=
  match l with
  | [] => [x]
  | y :: rest => if leb x y then x :: l else y :: insert_sorted leb x rest
  end.

Definition sort_values {A : Type} (leb : A -> A -> bool) (l : list A) : list A :=
  fold_right (insert_sorted leb) [] l.

(** [s.mode()]: the values of highest count among the non-missing ones,
    each once, in ascending order. *)
Definition mode (xs : list (option string)) : list string :=
  let vals := dropna xs in
  let top := fold_right Nat.max 0 (map (count_occ string_dec vals) vals) in
  sort_values String.leb
    (nodup string_dec
       (filter (fun v => count_occ string_dec vals v =? top) vals)).

Definition Qltb (a b : Q) : bool := negb (Qle_bool b a).

(** [s.quantile(q)] with pandas' default linear interpolation: position
    [(n-1)*q] in the sorted non-missing values; NaN when there is none. *)
Definition quantile (xs : list (option Q)) (q : Q) : option Q :=
  match sort_values Qle_bool (dropna xs) with
  | [] => None
  | (v0 :: _) as vals =>
      let n := length vals in
      let h := (inject_Z (Z.of_nat (n - 1)) * q)%Q in
      let lo := Z.to_nat (Qfloor h) in
      let hi := Nat.min (lo + 1) (n - 1) in
      let a := nth lo vals v0 in
      let b := nth hi vals v0 in
      Some (a + (b - a) * (h - inject_Z (Qfloor h)))%Q
  end.

(** [s < bound] and [s > bound] on one cell: False on NaN. *)
Definition cell_lt (x : option Q) (bound : Q) : bool :=
  match x with Some v => Qltb v bound | None => false end.

Definition cell_gt (x : option Q) (bound : Q) : bool :=
  match x with Some v => Qltb bound v | None => false end.

(** [col.lower()] on ASCII letters. *)
Definition lower_char (c : ascii) : ascii :=
  let n := nat_of_ascii c in
  if (65 <=? n) && (n <=? 90) then ascii_of_nat (n + 32) else c.

Fixpoint lower (s : string) : string :=
  match s with
  | EmptyString => EmptyString
  | String c rest => String (lower_char c) (lower rest)
  end.

(** [sub in s] *)
Fixpoint contains (sub s : string) : bool :=
  String.prefix sub s ||
  match s with
  | EmptyString => false
  | String _ rest => contains sub rest
  end.

(** ** impute_missing_values (lines 13-34) *)

(** Lines 23-27, one numeric column.  [self.df[col].fillna(v, inplace=True)]
    writes through to the frame, as pandas does without copy-on-write. *)
Definition impute_numeric (c : column) : column * list message :=
  match data c with
  | Numeric xs =>
      if isnull_any xs then
        let mean_value := mean xs in
        ({| name := name c; data := Numeric (fillna mean_value xs) |},
         [ImputedMean (name c) mean_value])
      else (c, [])
  | _ => (c, [])
  end.

(** Lines 30-34.  [mode()[0]] on an empty mode raises [KeyError]; nothing
    in the method or in [clean_data] catches it, so the loop stops with the
    frame as it is at that point. *)
Fixpoint impute_categorical (df : DataFrame)
  : DataFrame * list message * option exn :=
  match df with
  | [] => ([], [], None)
  | c :: rest =>
      match data c with
      | Object xs =>
          if isnull_any xs then
            match hd_error (mode xs) with
            | None => (c :: rest, [], Some KeyError)
            | Some mode_value =>
                let '(rest', log, e) := impute_categorical rest in
                ({| name := name c;
                    data := Object (fillna (Some mode_value) xs) |} :: rest',
                 ImputedMode (name c) mode_value :: log, e)
            end
          else
            let '(rest', log, e) := impute_categorical rest in
            (c :: rest', log, e)
      | _ =>
          let '(rest', log, e) := impute_categorical rest in
          (c :: rest', log, e)
      end
  end.

Definition impute_missing_values (df : DataFrame)
  : DataFrame * list message * option exn :=
  let numeric_pass := map impute_numeric df in
  let '(df', log, e) := impute_categorical (map fst numeric_pass) in
  (df', flat_map snd numeric_pass ++ log, e).

(** ** knn_imputation (lines 36-74) *)

(** [df.select_dtypes(include=[np.number])], as (label, values) pairs. *)
Definition select_numeric (df : DataFrame) : list (string * list (option Q)) :=
  flat_map (fun c => match data c with
                     | Numeric xs => [(name c, xs)]
                     | _ => []
                     end) df.

(** A column [dropna(axis=1, how='all')] drops. *)
Definition all_missing {A : Type} (xs : list (option A)) : bool :=
  forallb isnull xs.

(** [self.df[col] = values] with an array: [ValueError] unless the array
    is as long as the index.  [col] is always a label of the frame here. *)
Definition assign (df : DataFrame) (col : string) (values : list Q)
  : exn + DataFrame :=
  if length values =? len df then
    inr (map (fun c => if String.eqb (name c) col
                       then {| name := name c;
                               data := Numeric (map Some values) |}
                       else c) df)
  else inl ValueError.

(** Lines 63-64: [for i, col in enumerate(numeric_data.columns)].  The
    array is held by columns; [imputed_data[:, i]] raises [IndexError] past
    the last one.  The frame is updated in place, so an exception leaves
    the columns already assigned. *)
Fixpoint knn_update (df : DataFrame) (i : nat) (cols : list string)
  (imputed_data : list (list Q)) : DataFrame * option exn :=
  match cols with
  | [] => (df, None)
  | col :: rest =>
      match nth_error imputed_data i with
      | None => (df, Some IndexError)
      | Some values =>
          match assign df col values with
          | inl e => (df, Some e)
          | inr df' => knn_update df' (S i) rest imputed_data
          end
      end
  end.

Section Libraries.

(** [KNNImputer(n_neighbors=k).fit_transform(X)]: scikit-learn's
    estimator, on the columns of [X]; it returns the imputed array or
    raises. *)
Variable fit_transform : Z -> list (list (option Q)) -> exn + list (list Q).

(** [pd.to_datetime(., errors='coerce')] on one text cell and on one
    number: [None] is NaT. *)
Variable parse_datetime : string -> option Z.
Variable datetime_of_number : Q -> option Z.

(** [pd.to_numeric(., errors='coerce')] on one text cell: [None] is NaN. *)
Variable parse_numeric : string -> option Q.

(** The [try] block of [knn_imputation] on a frame of finite numbers,
    where line 50 (infinities to NaN) changes nothing; with infinities it
    is [DataCleanerFloat.knn_imputation].  Every exception is caught on
    line 72, so the method always returns. *)
Definition knn_imputation (df : DataFrame) : DataFrame * list message :=
  let numeric_cols := select_numeric df in
  if 0 <? length numeric_cols then
    let numeric_data :=
      filter (fun p => negb (all_missing (snd p))) numeric_cols in
    if 0 <? length numeric_data then
      let n_neighbors := Z.min 5 (Z.of_nat (len df) - 1) in
      match fit_transform n_neighbors (map snd numeric_data) with
      | inl e => (df, [KnnError e])
      | inr imputed_data =>
          match knn_update df 0 (map fst numeric_data) imputed_data with
          | (df', None) => (df', [KnnCompleted (length numeric_data)])
          | (df', Some e) => (df', [KnnError e])
          end
      end
    else (df, [KnnNoSuitable])
  else (df, [KnnNoNumeric]).

(** ** handle_outliers (lines 76-106) *)

(** The loop body for one column.  On a column without values both
    quartiles are NaN and every comparison is False.  Nothing in the body
    raises on rational cells, so the handler of line 105 is not reached. *)
Definition cap_outliers (c : column) : column * list message :=
  match data c with
  | Numeric xs =>
      match quantile xs (1 # 4), quantile xs (3 # 4) with
      | Some Q1, Some Q3 =>
          let IQR := (Q3 - Q1)%Q in
          let lower_bound := (Q1 - (3 # 2) * IQR)%Q in
          let upper_bound := (Q3 + (3 # 2) * IQR)%Q in
          let outliers :=
            filter (fun x => cell_lt x lower_bound || cell_gt x upper_bound)
                   xs in
          if 0 <? length outliers then
            let xs1 := map (fun x => if cell_lt x lower_bound
                                     then Some lower_bound else x) xs in
            let xs2 := map (fun x => if cell_gt x upper_bound
                                     then Some upper_bound else x) xs1 in
            ({| name := name c; data := Numeric xs2 |},
             [OutliersCapped (name c) (length outliers)
                             lower_bound upper_bound])
          else (c, [])
      | _, _ => (c, [])
      end
  | _ => (c, [])
  end.

Definition handle_outliers (df : DataFrame) : DataFrame * list message :=
  let pass := map cap_outliers df in
  (map fst pass, flat_map snd pass).

(** ** convert_data_types (lines 108-131) *)

Definition bind_cell {A B : Type} (f : A -> option B) (x : option A)
  : option B :=
  match x with Some v => f v | None => None end.

(** Lines 114-120, one column, with the conversion taken cell by cell.
    This is a simplification of [pd.to_datetime], which settles one format
    for the column from its first value and may leave the column as text;
    [DataCleanerFloat.convert_date] takes the library call on the whole
    column.  With [errors='coerce'] a bool column comes out as NaT in every
    cell, and nothing raises. *)
Definition convert_date (c : column) : column * list message :=
  if contains "date" (lower (name c)) then
    match data c with
    | Object xs =>
        ({| name := name c;
            data := Datetime (map (bind_cell parse_datetime) xs) |},
         [ConvertedDatetime (name c)])
    | Numeric xs =>
        ({| name := name c;
            data := Datetime (map (bind_cell datetime_of_number) xs) |},
         [ConvertedDatetime (name c)])
    | Datetime xs => (c, [ConvertedDatetime (name c)])
    | Boolean xs =>
        ({| name := name c; data := Datetime (map (fun _ => None) xs) |},
         [ConvertedDatetime (name c)])
    end
  else (c, []).

(** [pd.to_numeric(s, errors='coerce')] on a text column. *)
Definition to_numeric (xs : list (option string)) : list (option Q) :=
  map (bind_cell parse_numeric) xs.

(** Lines 123-131, one column.  On text and NaN cells [to_numeric] with
    [errors='coerce'] does not raise, so the bare [except] is not reached. *)
Definition convert_numeric (c : column) : column * list message :=
  match data c with
  | Object xs =>
      let numeric_conversion := to_numeric xs in
      if existsb notnull numeric_conversion then
        ({| name := name c; data := Numeric numeric_conversion |},
         [ConvertedNumeric (name c)])
      else (c, [])
  | _ => (c, [])
  end.

Definition convert_data_types (df : DataFrame) : DataFrame * list message :=
  let dates := map convert_date df in
  let numbers := map convert_numeric (map fst dates) in
  (map fst numbers, flat_map snd dates ++ flat_map snd numbers).

(** ** generate_cleaning_report, lines 138-148: read-only *)

Definition isnull_sum (s : series) : nat :=
  match s with
  | Numeric xs => length (filter isnull xs)
  | Object xs => length (filter isnull xs)
  | Boolean _ => 0
  | Datetime xs => length (filter isnull xs)
  end.

(** The missing-values comparison: the rows of [comparison_df] with a
    positive difference.  The data type changes of lines 150-156 are not
    embedded: [Numeric] is int64 as well as float64, and the report tells
    the two apart. *)
Definition generate_cleaning_report (original_df df : DataFrame)
  : list message :=
  flat_map (fun p =>
      let original_missing := isnull_sum (data (fst p)) in
      let cleaned_missing := isnull_sum (data (snd p)) in
      if cleaned_missing <? original_missing
      then [MissingComparison (name (fst p)) original_missing cleaned_missing]
      else []) (combine original_df df).

(** ** clean_data (lines 163-170) *)

(** The state [clean_data] leaves: the working frame, the console, the
    frame written to [cleaned_dataset.csv] if the run got that far, and
    the exception that ended it if one did. *)
Record run : Type := {
  self_df : DataFrame;
  console : list message;
  cleaned_dataset : option DataFrame;
  raised : option exn
}.

Definition clean_data (original_df : DataFrame) : run :=
  let '(df1, log1, e) := impute_missing_values original_df in
  match e with
  | Some _ =>
      {| self_df := df1; console := log1;
         cleaned_dataset := None; raised := e |}
  | None =>
      let '(df2, log2) := knn_imputation df1 in
      let '(df3, log3) := handle_outliers df2 in
      let '(df4, log4) := convert_data_types df3 in
      let log5 := generate_cleaning_report original_df df4 in
      {| self_df := df4;
         console := log1 ++ log2 ++ log3 ++ log4 ++ log5 ++ [Saved];
         cleaned_dataset := Some df4; raised := None |}
  end.

End Libraries.

(** ** Library stand-ins for running the code on concrete frames

    The statements below hold for every estimator and every parser.  To
    evaluate the code on a concrete frame the libraries are replaced by
    small functions that agree with them on the inputs used. *)

Fixpoint digits_value (s : string) (acc : Z) : option Z :=
  match s with
  | EmptyString => Some acc
  | String c rest =>
      let n := nat_of_ascii c in
      if (48 <=? n) && (n <=? 57)
      then digits_value rest (10 * acc + Z.of_nat (n - 48))
      else None
  end.

(** [to_numeric] on unsigned decimal integers; any other text is taken
    as not numeric. *)
Definition parse_digits (s : string) : option Q :=
  match s with
  | EmptyString => None
  | _ => option_map inject_Z (digits_value s 0)
  end.

(** An estimator that rejects [n_neighbors <= 0], as scikit-learn's
    parameter validation does, and otherwise fills each column with its
    own mean. *)
Definition fit_transform_mean (n_neighbors : Z) (X : list (list (option Q)))
  : exn + list (list Q) :=
  if (n_neighbors <=? 0)%Z then inl LibraryError
  else inr (map (fun xs =>
                   let m := match mean xs with Some v => v | None => 0%Q end in
                   map (fun x => match x with Some v => v | None => m end) xs)
                X).

Definition no_datetime (s : string) : option Z := None.

Definition datetime_of_floor (q : Q) : option Z := Some (Qfloor q).

(** Two small frames for the examples. *)
Definition occurrences : DataFrame :=
  [{| name := "depth"; data := Numeric [Some 1; None; Some 3]%Q |};
   {| name := "status";
      data := Object [Some "LC"; None; Some "LC"]%string |};
   {| name := "eventDate";
      data := Object [Some "2020"; Some "2021"; None]%string |}].

Definition single_row : DataFrame :=
  [{| name := "depth"; data := Numeric [Some 3]%Q |};
   {| name := "status"; data := Object [Some "LC"%string] |}].

(** ** Vocabulary of the specification *)

(** [v] is a most frequent value of [vals]. *)
Definition most_frequent (vals : list string) (v : string) : Prop :=
  In v vals /\
  forall w, count_occ string_dec vals w <= count_occ string_dec vals v.

(** Section 4.1 read literally, "first such value on ties": the first
    value in row order that no other value outnumbers. *)
Definition first_most_frequent (xs : list (option string)) : option string :=
  let vals := dropna xs in
  let top := fold_right Nat.max 0 (map (count_occ string_dec vals) vals) in
  find (fun v => count_occ string_dec vals v =? top) vals.

(** The row count of every column, by label. *)
Definition row_counts (df : DataFrame) : list (string * nat) :=
  map (fun c => (name c, series_len (data c))) df.

End DataCleaner.

(* ================================================================== *)
(** * scriptes/data_quality_analyzer.py                                 *)
(* ================================================================== *)

Module DataQualityAnalyzer.

Import DataCleaner.

(** What the analyses print, without the banners. *)
Inductive finding : Type :=
| OutliersFound (col : string) (n_records : nat)
                (range_min range_max : option Q)
| ColumnTypes (dtypes : list (string * dtype))
| MixedTypes (col : string) (numeric_values : nat)
| DateFormats (col : string) (unique_formats : list string)
| InvalidLatitude (invalid_lat : nat)
| InvalidLongitude (invalid_lon : nat).

(** ** analyze_outliers (lines 53-67) *)

Definition q_min (a b : Q) : Q := if Qle_bool a b then a else b.

Definition q_max (a b : Q) : Q := if Qle_bool a b then b else a.

(** [s.min()] and [s.max()]: missing cells are skipped, NaN when no value
    is present. *)
Definition series_min (xs : list (option Q)) : option Q :=
  match dropna xs with
  | [] => None
  | v :: rest => Some (fold_left q_min rest v)
  end.

Definition series_max (xs : list (option Q)) : option Q :=
  match dropna xs with
  | [] => None
  | v :: rest => Some (fold_left q_max rest v)
  end.

(** The loop body for one numeric column: the same quartiles and bounds
    as the cleaner, reported and not capped. *)
Definition outliers_of (c : column) : list finding :=
  match data c with
  | Numeric xs =>
      match quantile xs (1 # 4), quantile xs (3 # 4) with
      | Some Q1, Some Q3 =>
          let IQR := (Q3 - Q1)%Q in
          let outliers :=
            filter (fun x => cell_lt x (Q1 - (3 # 2) * IQR)%Q
                             || cell_gt x (Q3 + (3 # 2) * IQR)%Q) xs in
          if 0 <? length outliers then
            [OutliersFound (name c) (length outliers)
                           (series_min xs) (series_max xs)]
          else []
      | _, _ => []
      end
  | _ => []
  end.

Definition analyze_outliers (df : DataFrame) : list finding :=
  flat_map outliers_of df.

(** ** analyze_data_types (lines 69-82) *)

Section Parser.

(** [pd.to_numeric(., errors='coerce')] on one text cell. *)
Variable parse_numeric : string -> option Q.

(** Lines 79-82 for one column: [numeric_values] counts the cells that
    parse, and is compared with the length of the column, missing cells
    included. *)
Definition mixed_types_of (c : column) : list finding :=
  match data c with
  | Object xs =>
      let numeric_values :=
        length (filter notnull (to_numeric parse_numeric xs)) in
      if (0 <? numeric_values) && (numeric_values <? length xs)
      then [MixedTypes (name c) numeric_values]
      else []
  | _ => []
  end.

Definition analyze_data_types (df : DataFrame) : list finding :=
  ColumnTypes (map (fun c => (name c, dtype_of (data c))) df)
  :: flat_map mixed_types_of df.

End Parser.

(** ** analyze_format_errors (lines 84-95) *)

(** [s.unique()]: each value once, in order of first appearance. *)
Fixpoint unique (l : list string) : list string :=
  match l with
  | [] => []
  | x :: rest => x :: filter (fun y => negb (String.eqb y x)) (unique rest)
  end.

Definition date_formats_of (c : column) : list finding :=
  if contains "date" (lower (name c)) then
    match data c with
    | Object xs => [DateFormats (name c) (firstn 5 (unique (dropna xs)))]
    | _ => []
    end
  else [].

Definition analyze_format_errors (df : DataFrame) : list finding :=
  flat_map date_formats_of df.

(** ** analyze_incorrect_values (lines 97-115) *)

(** [self.df[label]] when [label in self.df.columns]. *)
Definition find_column (df : DataFrame) (label : string) : option column :=
  find (fun c => String.eqb (name c) label) df.

(** The row count of [df[(s < lower) | (s > upper)]].  Comparing a text
    value or a datetime column with a number raises [TypeError]; a missing
    cell compares False; a boolean compares as 0 or 1. *)
Definition out_of_range (s : series) (lower upper : Q) : exn + nat :=
  match s with
  | Numeric xs =>
      inr (length (filter (fun x => cell_lt x lower || cell_gt x upper) xs))
  | Boolean xs =>
      inr (length (filter (fun b : bool =>
                             let v := if b then 1%Q else 0%Q in
                             Qltb v lower || Qltb upper v) xs))
  | Object xs => if existsb notnull xs then inl TypeError else inr 0
  | Datetime _ => inl TypeError
  end.

(** The method has no handler: an exception ends it with what was
    printed before. *)
Definition analyze_incorrect_values (df : DataFrame)
  : list finding * option exn :=
  let latitude :=
    match find_column df "decimalLatitude" with
    | Some c =>
        match out_of_range (data c) (- (90 # 1))%Q (90 # 1)%Q with
        | inl e => inl e
        | inr invalid_lat => inr [InvalidLatitude invalid_lat]
        end
    | None => inr []
    end in
  match latitude with
  | inl e => ([], Some e)
  | inr printed =>
      match find_column df "decimalLongitude" with
      | Some c =>
          match out_of_range (data c) (- (180 # 1))%Q (180 # 1)%Q with
          | inl e => (printed, Some e)
          | inr invalid_lon =>
              (printed ++ [InvalidLongitude invalid_lon], None)
          end
      | None => (printed, None)
      end
  end.

(** A small frame for the examples. *)
Definition coordinates : DataFrame :=
  [{| name := "decimalLatitude";
      data := Numeric [Some (91 # 1); None; Some (90 # 1)]%Q |};
   {| name := "decimalLongitude";
      data := Numeric [Some (- (180 # 1)); None; None]%Q |}].

End DataQualityAnalyzer.

(* ================================================================== *)
(** * scriptes/data_cleaner.py on columns that hold infinities          *)
(* ================================================================== *)

(** [read_csv] (line 9) reads [inf] and [-inf] as the float64 infinities,
    and line 50 of the cleaner handles them.  The rational cells of
    [DataCleaner] cannot hold them, so that module is the cleaner on frames
    of finite numbers.  This module embeds the same methods on float64
    cells: a finite number, an infinity, or NaN ([None]).  Arithmetic is
    IEEE 754 where nothing overflows or rounds.  The library functions the
    methods call on whole columns ([quantile], [to_datetime]) are
    parameters.  int64 and float64 are one numeric dtype here too, so the
    data type changes the report prints (lines 150-156) are not embedded. *)

Module DataCleanerFloat.

Import DataCleaner.

(** ** Data model *)

(** A float64 value other than NaN. *)
Inductive float : Type :=
| Finite (q : Q)
| PosInf
| NegInf.

Inductive series : Type :=
| Numeric (values : list (option float))
| Object (values : list (option string))
| Boolean (values : list bool)
| Datetime (values : list (option Z)).

Record column : Type := { name : string; data : series }.

Definition DataFrame : Type := list column.

Definition series_len (s : series) : nat :=
  match s with
  | Numeric xs => length xs
  | Object xs => length xs
  | Boolean xs => length xs
  | Datetime xs => length xs
  end.

Definition len (df : DataFrame) : nat :=
  match df with
  | [] => 0
  | c :: _ => series_len (data c)
  end.

Definition rectangular (df : DataFrame) : Prop :=
  Forall (fun c => series_len (data c) = len df) df.

(** [s.isnull().sum()] *)
Definition isnull_sum (s : series) : nat :=
  match s with
  | Numeric xs => length (filter isnull xs)
  | Object xs => length (filter isnull xs)
  | Boolean _ => 0
  | Datetime xs => length (filter isnull xs)
  end.

(** What the methods print, without the banners and without the data type
    changes of lines 150-156. *)
Inductive message : Type :=
| ImputedMean (col : string) (mean_value : option float)
| ImputedMode (col : string) (mode_value : string)
| KnnCompleted (n_columns : nat)
| KnnNoSuitable
| KnnNoNumeric
| KnnError (e : exn)
| OutliersCapped (col : string) (n_outliers : nat)
                 (lower_bound upper_bound : option float)
| ConvertedDatetime (col : string)
| CouldNotConvert (col : string) (e : exn)
| ConvertedNumeric (col : string)
| MissingComparison (col : string) (original_missing cleaned_missing : nat)
| Saved.

(** ** float64 arithmetic *)

(** [a + b]: the sum of opposite infinities is NaN. *)
Definition add (a b : option float) : option float :=
  match a, b with
  | Some (Finite x), Some (Finite y) => Some (Finite (x + y))
  | Some PosInf, Some NegInf | Some NegInf, Some PosInf => None
  | Some PosInf, Some _ | Some _, Some PosInf => Some PosInf
  | Some NegInf, Some _ | Some _, Some NegInf => Some NegInf
  | None, _ | _, None => None
  end.

Definition opp (a : option float) : option float :=
  match a with
  | Some (Finite x) => Some (Finite (- x))
  | Some PosInf => Some NegInf
  | Some NegInf => Some PosInf
  | None => None
  end.

(** [a - b] *)
Definition sub (a b : option float) : option float := add a (opp b).

(** [k * a] for a finite constant [k]: zero times an infinity is NaN. *)
Definition scale (k : Q) (a : option float) : option float :=
  match a with
  | Some (Finite x) => Some (Finite (k * x))
  | Some PosInf =>
      match (k ?= 0)%Q with
      | Gt => Some PosInf | Lt => Some NegInf | Eq => None
      end
  | Some NegInf =>
      match (k ?= 0)%Q with
      | Gt => Some NegInf | Lt => Some PosInf | Eq => None
      end
  | None => None
  end.

(** [a / count] for a positive count. *)
Definition div_count (a : option float) (count : nat) : option float :=
  match a with
  | Some (Finite x) => Some (Finite (x / inject_Z (Z.of_nat count)))
  | other => other
  end.

(** [a < b]: False when either side is NaN. *)
Definition lt (a b : option float) : bool :=
  match a, b with
  | Some (Finite x), Some (Finite y) => Qltb x y
  | Some NegInf, Some (Finite _) | Some NegInf, Some PosInf
  | Some (Finite _), Some PosInf => true
  | _, _ => false
  end.

(** ** Series primitives *)

Definition sum (vals : list float) : option float :=
  fold_right (fun v acc => add (Some v) acc) (Some (Finite 0)) vals.

(** [s.mean()]: missing cells are skipped and the infinities are not, so
    the mean of a column that holds both infinities is NaN, as is that of
    a column without any value. *)
Definition mean (xs : list (option float)) : option float :=
  match dropna xs with
  | [] => None
  | vals => div_count (sum vals) (length vals)
  end.

(** ** impute_missing_values (lines 13-34) *)

(** Lines 23-27, one numeric column.  [fillna] with a NaN mean fills
    nothing; with any other it writes through to the frame, as pandas does
    without copy-on-write. *)
Definition impute_numeric (c : column) : column * list message :=
  match data c with
  | Numeric xs =>
      if isnull_any xs then
        let mean_value := mean xs in
        ({| name := name c; data := Numeric (fillna mean_value xs) |},
         [ImputedMean (name c) mean_value])
      else (c, [])
  | _ => (c, [])
  end.

(** Lines 30-34.  [mode()[0]] on an empty mode raises [KeyError]; nothing
    in the method or in [clean_data] catches it. *)
Fixpoint impute_categorical (df : DataFrame)
  : DataFrame * list message * option exn :=
  match df with
  | [] => ([], [], None)
  | c :: rest =>
      match data c with
      | Object xs =>
          if isnull_any xs then
            match hd_error (mode xs) with
            | None => (c :: rest, [], Some KeyError)
            | Some mode_value =>
                let '(rest', log, e) := impute_categorical rest in
                ({| name := name c;
                    data := Object (fillna (Some mode_value) xs) |} :: rest',
                 ImputedMode (name c) mode_value :: log, e)
            end
          else
            let '(rest', log, e) := impute_categorical rest in
            (c :: rest', log, e)
      | _ =>
          let '(rest', log, e) := impute_categorical rest in
          (c :: rest', log, e)
      end
  end.

Definition impute_missing_values (df : DataFrame)
  : DataFrame * list message * option exn :=
  let numeric_pass := map impute_numeric df in
  let '(df', log, e) := impute_categorical (map fst numeric_pass) in
  (df', flat_map snd numeric_pass ++ log, e).

(** ** knn_imputation (lines 36-74) *)

(** [df.select_dtypes(include=[np.number])], as (label, values) pairs. *)
Definition select_numeric (df : DataFrame)
  : list (string * list (option float)) :=
  flat_map (fun c => match data c with
                     | Numeric xs => [(name c, xs)]
                     | _ => []
                     end) df.

(** Line 50 on one cell, [replace([np.inf, -np.inf], np.nan)]: what is
    left is a finite number or NaN. *)
Definition replace_inf (x : option float) : option Q :=
  match x with
  | Some (Finite q) => Some q
  | _ => None
  end.

(** [self.df[col] = values] with an array of finite numbers. *)
Definition assign (df : DataFrame) (col : string) (values : list Q)
  : exn + DataFrame :=
  if length values =? len df then
    inr (map (fun c => if String.eqb (name c) col
                       then {| name := name c;
                               data := Numeric
                                 (map (fun v => Some (Finite v)) values) |}
                       else c) df)
  else inl ValueError.

(** Lines 63-64. *)
Fixpoint knn_update (df : DataFrame) (i : nat) (cols : list string)
  (imputed_data : list (list Q)) : DataFrame * option exn :=
  match cols with
  | [] => (df, None)
  | col :: rest =>
      match nth_error imputed_data i with
      | None => (df, Some IndexError)
      | Some values =>
          match assign df col values with
          | inl e => (df, Some e)
          | inr df' => knn_update df' (S i) rest imputed_data
          end
      end
  end.

(** Lines 47-53, the copy the imputer works on: the numeric columns with
    their infinities replaced by NaN (line 50), without those that are then
    entirely NaN (line 53).  A column of infinities and missing cells is
    not given to the imputer and is not assigned on line 64. *)
Definition numeric_data (df : DataFrame) : list (string * list (option Q)) :=
  filter (fun p => negb (all_missing (snd p)))
    (map (fun p => (fst p, map replace_inf (snd p))) (select_numeric df)).

Section Libraries.

(** [KNNImputer(n_neighbors=k).fit_transform(X)] on the columns of [X],
    which hold no infinity after line 50. *)
Variable fit_transform : Z -> list (list (option Q)) -> exn + list (list Q).

(** [s.quantile(q)] on a float64 column; what it gives on a column that
    holds an infinity is left to the library. *)
Variable quantile : list (option float) -> Q -> option float.

(** [pd.to_datetime(s, errors='coerce')] on a whole column: the converted
    column, of whatever dtype, or an exception. *)
Variable to_datetime : series -> exn + series.

(** [pd.to_numeric(., errors='coerce')] on one text cell. *)
Variable parse_numeric : string -> option float.

(** The [try] block of [knn_imputation].  Every exception is caught on
    line 72, so the method always returns. *)
Definition knn_imputation (df : DataFrame) : DataFrame * list message :=
  let numeric_cols := select_numeric df in
  if 0 <? length numeric_cols then
    let numeric_data := numeric_data df in
    if 0 <? length numeric_data then
      let n_neighbors := Z.min 5 (Z.of_nat (len df) - 1) in
      match fit_transform n_neighbors (map snd numeric_data) with
      | inl e => (df, [KnnError e])
      | inr imputed_data =>
          match knn_update df 0 (map fst numeric_data) imputed_data with
          | (df', None) => (df', [KnnCompleted (length numeric_data)])
          | (df', Some e) => (df', [KnnError e])
          end
      end
    else (df, [KnnNoSuitable])
  else (df, [KnnNoNumeric]).

(** ** handle_outliers (lines 76-106) *)

(** The loop body for one column.  A comparison with a NaN bound is False,
    so a bound that is assigned on line 102 or 103 is never NaN. *)
Definition cap_outliers (c : column) : column * list message :=
  match data c with
  | Numeric xs =>
      let Q1 := quantile xs (1 # 4) in
      let Q3 := quantile xs (3 # 4) in
      let IQR := sub Q3 Q1 in
      let lower_bound := sub Q1 (scale (3 # 2) IQR) in
      let upper_bound := add Q3 (scale (3 # 2) IQR) in
      let outliers :=
        filter (fun x => lt x lower_bound || lt upper_bound x) xs in
      if 0 <? length outliers then
        let xs1 := map (fun x => if lt x lower_bound
                                 then lower_bound else x) xs in
        let xs2 := map (fun x => if lt upper_bound x
                                 then upper_bound else x) xs1 in
        ({| name := name c; data := Numeric xs2 |},
         [OutliersCapped (name c) (length outliers)
                         lower_bound upper_bound])
      else (c, [])
  | _ => (c, [])
  end.

Definition handle_outliers (df : DataFrame) : DataFrame * list message :=
  let pass := map cap_outliers df in
  (map fst pass, flat_map snd pass).

(** ** convert_data_types (lines 108-131) *)

(** Lines 114-120, one column. *)
Definition convert_date (c : column) : column * list message :=
  if contains "date" (lower (name c)) then
    match to_datetime (data c) with
    | inr converted =>
        ({| name := name c; data := converted |},
         [ConvertedDatetime (name c)])
    | inl e => (c, [CouldNotConvert (name c) e])
    end
  else (c, []).

(** Lines 123-131, one column: whatever the date loop left as text. *)
Definition convert_numeric (c : column) : column * list message :=
  match data c with
  | Object xs =>
      let numeric_conversion := map (bind_cell parse_numeric) xs in
      if existsb notnull numeric_conversion then
        ({| name := name c; data := Numeric numeric_conversion |},
         [ConvertedNumeric (name c)])
      else (c, [])
  | _ => (c, [])
  end.

Definition convert_data_types (df : DataFrame) : DataFrame * list message :=
  let dates := map convert_date df in
  let numbers := map convert_numeric (map fst dates) in
  (map fst numbers, flat_map snd dates ++ flat_map snd numbers).

(** ** generate_cleaning_report, lines 138-148: read-only *)

(** The rows of [comparison_df] with a positive difference. *)
Definition missing_values_comparison (original_df df : DataFrame)
  : list message :=
  flat_map (fun p =>
      let original_missing := isnull_sum (data (fst p)) in
      let cleaned_missing := isnull_sum (data (snd p)) in
      if cleaned_missing <? original_missing
      then [MissingComparison (name (fst p)) original_missing cleaned_missing]
      else []) (combine original_df df).

(** ** clean_data (lines 163-170) *)

Record run : Type := {
  self_df : DataFrame;
  console : list message;
  cleaned_dataset : option DataFrame;
  raised : option exn
}.

Definition clean_data (original_df : DataFrame) : run :=
  let '(df1, log1, e) := impute_missing_values original_df in
  match e with
  | Some _ =>
      {| self_df := df1; console := log1;
         cleaned_dataset := None; raised := e |}
  | None =>
      let '(df2, log2) := knn_imputation df1 in
      let '(df3, log3) := handle_outliers df2 in
      let '(df4, log4) := convert_data_types df3 in
      let log5 := missing_values_comparison original_df df4 in
      {| self_df := df4;
         console := log1 ++ log2 ++ log3 ++ log4 ++ log5 ++ [Saved];
         cleaned_dataset := Some df4; raised := None |}
  end.

End Libraries.

(** ** The frames the loader returns *)


(** ** Vocabulary of the specification *)

(** [m] is the arithmetic mean of the float64 values [vals]: an infinity
    when the values hold one, and the quotient of the sum by the count when
    they are all finite. *)
Definition mean_value (vals : list float) (m : float) : Prop :=
  (In PosInf vals /\ m = PosInf) \/
  (In NegInf vals /\ m = NegInf) \/
  (exists qs, vals = map Finite qs /\
              m = Finite (Qsum qs / inject_Z (Z.of_nat (length qs)))).



(** ** Library stand-ins for running the code on concrete frames *)

(** [quantile] on a column of finite values, with pandas' linear
    interpolation.  On a column that holds an infinity this stand-in
    answers NaN, which is what the interpolation gives between the two
    infinities, the only such column the examples ask it about. *)
Definition quantile_finite (xs : list (option float)) (q : Q)
  : option float :=
  if forallb (fun x => match x with
                       | Some PosInf | Some NegInf => false
                       | _ => true
                       end) xs
  then option_map Finite (DataCleaner.quantile (map replace_inf xs) q)
  else None.

(** [to_datetime] is called on date-labelled columns only; the frames of
    the examples have none. *)
Definition to_datetime_unused (s : series) : exn + series := inl TypeError.

Definition parse_digits_float (s : string) : option float :=
  option_map Finite (parse_digits s).

(** Two frames whose numeric columns hold infinities, as [read_csv] gives
    them. *)
Definition soundings : DataFrame :=
  [{| name := "depth";
      data := Numeric [Some (Finite 1); None; Some (Finite 3)]%Q |};
   {| name := "reach";
      data := Numeric [Some PosInf; None; Some (Finite 2)]%Q |};
   {| name := "status";
      data := Object [Some "LC"; None; Some "LC"]%string |};
   {| name := "blank"; data := Numeric [None; None; None] |}].

Definition both_infinities : DataFrame :=
  [{| name := "range";
      data := Numeric [Some PosInf; Some NegInf; None] |}].

(** ** Frames of finite numbers *)

(** A frame of [DataCleaner], which holds no infinity, as a frame of this
    module, and what is printed about it. *)
Definition of_cell (x : option Q) : option float := option_map Finite x.

Definition of_series (s : DataCleaner.series) : series :=
  match s with
  | DataCleaner.Numeric xs => Numeric (map of_cell xs)
  | DataCleaner.Object xs => Object xs
  | DataCleaner.Boolean xs => Boolean xs
  | DataCleaner.Datetime xs => Datetime xs
  end.

Definition of_column (c : DataCleaner.column) : column :=
  {| name := DataCleaner.name c; data := of_series (DataCleaner.data c) |}.

Definition of_frame (df : DataCleaner.DataFrame) : DataFrame :=
  map of_column df.

Definition of_message (m : DataCleaner.message) : message :=
  match m with
  | DataCleaner.ImputedMean col mean_value =>
      ImputedMean col (of_cell mean_value)
  | DataCleaner.ImputedMode col mode_value => ImputedMode col mode_value
  | DataCleaner.KnnCompleted n_columns => KnnCompleted n_columns
  | DataCleaner.KnnNoSuitable => KnnNoSuitable
  | DataCleaner.KnnNoNumeric => KnnNoNumeric
  | DataCleaner.KnnError e => KnnError e
  | DataCleaner.OutliersCapped col n_outliers lower_bound upper_bound =>
      OutliersCapped col n_outliers
        (Some (Finite lower_bound)) (Some (Finite upper_bound))
  | DataCleaner.ConvertedDatetime col => ConvertedDatetime col
  | DataCleaner.CouldNotConvert col e => CouldNotConvert col e
  | DataCleaner.ConvertedNumeric col => ConvertedNumeric col
  | DataCleaner.MissingComparison col original_missing cleaned_missing =>
      MissingComparison col original_missing cleaned_missing
  | DataCleaner.Saved => Saved
  end.

End DataCleanerFloat.

(* ================================================================== *)
(** * Facts on maxima, sorting and the order of strings                 *)
(* ================================================================== *)

Module ListFacts.

Lemma max_upper (l : list nat) (y : nat) :
  In y l -> y <= fold_right Nat.max 0 l.
Proof.
  induction l as [|x l IH]; simpl; [tauto|].
  intros [->|Hy]; [lia|]. specialize (IH Hy). lia.
Qed.

Lemma max_attained (l : list nat) :
  l <> [] -> In (fold_right Nat.max 0 l) l.
Proof.
  induction l as [|x l IH]; [congruence|]. intros _.
  cbn [fold_right].
  destruct l as [|y l'].
  - left. simpl. lia.
  - destruct (Nat.max_spec x (fold_right Nat.max 0 (y :: l')))
      as [[_ E]|[_ E]]; rewrite E.
    + right. apply IH. discriminate.
    + now left.
Qed.

Section Sorting.

Variable A : Type.
Variable leb : A -> A -> bool.
Hypothesis leb_total : forall x y, leb x y = true \/ leb y x = true.
Hypothesis leb_trans :
  forall x y z, leb x y = true -> leb y z = true -> leb x z = true.

Lemma insert_sorted_In (x y : A) (l : list A) :
  In y (DataCleaner.insert_sorted leb x l) <-> y = x \/ In y l.
Proof.
  induction l as [|z l IH]; simpl.
  - intuition.
  - destruct (leb x z); simpl; [intuition|]. rewrite IH. intuition.
Qed.

Lemma sort_values_In (y : A) (l : list A) :
  In y (DataCleaner.sort_values leb l) <-> In y l.
Proof.
  induction l as [|x l IH]; simpl; [tauto|].
  rewrite insert_sorted_In, IH. intuition.
Qed.

(** The head of a list is below all its elements. *)
Definition head_least (l : list A) : Prop :=
  match l with
  | [] => True
  | v :: _ => forall w, In w l -> leb v w = true
  end.

Lemma leb_refl (x : A) : leb x x = true.
Proof. destruct (leb_total x x); assumption. Qed.

Lemma insert_sorted_head_least (x : A) (l : list A) :
  head_least l -> head_least (DataCleaner.insert_sorted leb x l).
Proof.
  destruct l as [|y r]; simpl.
  - intros _ w [<-|[]]. apply leb_refl.
  - intros Hy. destruct (leb x y) eqn:E; simpl.
    + intros w [<-|Hw]; [apply leb_refl|].
      apply leb_trans with y; [exact E | now apply Hy].
    + intros w [<-|Hw]; [apply leb_refl|].
      apply insert_sorted_In in Hw. destruct Hw as [->|Hw].
      * destruct (leb_total x y) as [H|H]; [congruence | exact H].
      * apply Hy. now right.
Qed.

Lemma sort_values_head_least (l : list A) (v : A) (rest : list A) :
  DataCleaner.sort_values leb l = v :: rest ->
  forall w, In w l -> leb v w = true.
Proof.
  intros E w Hw.
  assert (H : head_least (DataCleaner.sort_values leb l)).
  { clear E Hw. induction l as [|x l IH]; simpl; [exact I|].
    now apply insert_sorted_head_least. }
  rewrite E in H. apply H. rewrite <- E. now apply sort_values_In.
Qed.

Lemma sort_values_nonempty (l : list A) :
  l <> [] -> DataCleaner.sort_values leb l <> [].
Proof.
  destruct l as [|x l]; [congruence|]. intros _ E.
  assert (H : In x (DataCleaner.sort_values leb (x :: l)))
    by (apply sort_values_In; now left).
  rewrite E in H. exact H.
Qed.

End Sorting.

Lemma string_leb_trans (a b c : string) :
  String.leb a b = true -> String.leb b c = true -> String.leb a c = true.
Proof.
  revert b c. unfold String.leb.
  induction a as [|x a IH]; intros [|y b] [|z c]; simpl; try easy.
  unfold Ascii.compare.
  destruct (N.compare_spec (N_of_ascii x) (N_of_ascii y)) as [Exy|Lxy|Gxy];
    destruct (N.compare_spec (N_of_ascii y) (N_of_ascii z)) as [Eyz|Lyz|Gyz];
    destruct (N.compare_spec (N_of_ascii x) (N_of_ascii z)) as [Exz|Lxz|Gxz];
    try easy; try lia.
  apply IH.
Qed.

End ListFacts.

(* ================================================================== *)
(** * Properties of the splitter                                        *)
(* ================================================================== *)

Module SplitCsvProps.

Import SplitCsv.

(** *** Delimiter detection *)

Lemma max_of_upper (l : list nat) (y : nat) : In y l -> y <= max_of l.
Proof. apply ListFacts.max_upper. Qed.

Lemma max_of_In (l : list nat) : l <> [] -> In (max_of l) l.
Proof. apply ListFacts.max_attained. Qed.

Lemma index_first (x : nat) (l : list nat) :
  In x l ->
  exists i, index x l = Some i /\ nth_error l i = Some x /\
            forall j y, j < i -> nth_error l j = Some y -> y <> x.
Proof.
  induction l as [|y l IH]; simpl; [tauto|]. intros Hin.
  destruct (Nat.eqb_spec y x) as [->|Hne].
  - exists 0. repeat split; auto. intros j z Hj. lia.
  - destruct Hin as [E|Hin]; [congruence|].
    destruct (IH Hin) as (i & Hi & Hn & Hlt). exists (S i).
    rewrite Hi. repeat split; auto.
    intros [|j] z Hj; simpl.
    + intros [= <-]. exact Hne.
    + apply Hlt. lia.
Qed.

(** C10. The detected delimiter is a candidate whose count in the first
    line is the highest, and every candidate placed before it in the fixed
    order comma, tab, semicolon, pipe has a strictly smaller count: on a
    tie the earliest candidate wins.  A first line with none of the four
    characters gives the comma. *)
Theorem detect_delimiter_earliest_max (first_line : string) :
  exists i d,
    detect_delimiter first_line = Some d /\
    nth_error delimiters i = Some d /\
    (forall d', In d' delimiters ->
                count first_line d' <= count first_line d) /\
    (forall j d', j < i -> nth_error delimiters j = Some d' ->
                  count first_line d' < count first_line d) /\
    ((forall d', In d' delimiters -> count first_line d' = 0) ->
     d = ","%char).
Proof.
  set (counts := map (count first_line) delimiters).
  assert (Hne : counts <> []) by (unfold counts, delimiters; discriminate).
  destruct (index_first (max_of counts) counts (max_of_In counts Hne))
    as (i & Hidx & Hnth & Hbefore).
  assert (Hmap : nth_error counts i =
                 option_map (count first_line) (nth_error delimiters i))
    by apply nth_error_map.
  rewrite Hmap in Hnth. clear Hmap.
  destruct (nth_error delimiters i) as [d|] eqn:Hd; [|discriminate].
  assert (Hcount : count first_line d = max_of counts)
    by (cbn [option_map] in Hnth; congruence).
  clear Hnth. exists i, d. unfold detect_delimiter. fold counts. rewrite Hidx.
  repeat split; auto.
  - intros d' Hin. rewrite Hcount. apply max_of_upper.
    unfold counts. now apply in_map.
  - intros j d' Hj Hd'.
    assert (Hc : nth_error counts j = Some (count first_line d')).
    { unfold counts. rewrite nth_error_map, Hd'. reflexivity. }
    pose proof (Hbefore j _ Hj Hc) as Hneq.
    assert (count first_line d' <= max_of counts).
    { apply max_of_upper. unfold counts. apply in_map.
      eapply nth_error_In; eauto. }
    rewrite Hcount. lia.
  - intros Hzero.
    destruct i as [|i]; [simpl in Hd; congruence|].
    assert (H0 : nth_error delimiters 0 = Some ","%char) by reflexivity.
    assert (Hlt : count first_line ","%char < count first_line d).
    { destruct (Nat.lt_ge_cases (count first_line ","%char) (count first_line d))
        as [L|G]; [exact L|].
      exfalso.
      assert (Hc : nth_error counts 0 = Some (count first_line ","%char))
        by reflexivity.
      apply (Hbefore 0 _ (Nat.lt_0_succ i) Hc).
      assert (count first_line ","%char <= max_of counts).
      { apply max_of_upper. unfold counts. apply in_map. simpl. auto. }
      lia. }
    rewrite (Hzero d) in Hlt; [lia|]. eapply nth_error_In; eauto.
Qed.

Example detect_delimiter_tie :
  detect_delimiter "a;b|c" = Some ";"%char /\
  detect_delimiter "id name" = Some ","%char.
Proof. split; reflexivity. Qed.

(** *** The primary path *)

(** [ceil_div R N] is the least [k] with [R <= N * k]. *)
Lemma ceil_div_cover (R N : nat) : 1 <= N -> R <= N * ceil_div R N.
Proof.
  intros HN. unfold ceil_div.
  pose proof (Nat.div_mod_eq R N) as E.
  pose proof (Nat.mod_upper_bound R N ltac:(lia)) as B.
  destruct (Nat.eqb_spec (R mod N) 0); nia.
Qed.

Lemma ceil_div_least (R N k : nat) : 1 <= N -> R <= N * k -> ceil_div R N <= k.
Proof.
  intros HN Hk. unfold ceil_div.
  pose proof (Nat.div_mod_eq R N) as E.
  pose proof (Nat.mod_upper_bound R N ltac:(lia)) as B.
  destruct (Nat.eqb_spec (R mod N) 0); nia.
Qed.

Section Partition.

Variable row : Type.

Lemma firstn_plus (a b : nat) (l : list row) :
  firstn (a + b) l = firstn a l ++ firstn b (skipn a l).
Proof.
  revert l. induction a as [|a IH]; intros l; [reflexivity|].
  destruct l as [|x l]; simpl.
  - now rewrite firstn_nil.
  - now rewrite IH.
Qed.

Lemma length_iloc (s e : nat) (df : list row) :
  length (iloc s e df) = Nat.min (e - s) (length df - s).
Proof. unfold iloc. now rewrite length_firstn, length_skipn. Qed.

(** A slice clipped at the end of the frame is the unclipped slice. *)
Lemma iloc_clip (s c : nat) (df : list row) :
  iloc s (Nat.min (s + c) (length df)) df = firstn c (skipn s df).
Proof.
  unfold iloc.
  destruct (Nat.le_ge_cases (s + c) (length df)) as [L|G].
  - rewrite Nat.min_l by exact L. f_equal. lia.
  - rewrite Nat.min_r by exact G.
    rewrite !firstn_all2; auto; rewrite length_skipn; lia.
Qed.

Lemma part_range (c R i : nat) :
  end_idx c R i = Nat.min (start_idx c i + c) R.
Proof. unfold end_idx, start_idx. f_equal. lia. Qed.

(** The first [n] parts, concatenated, are the first [n * c] rows. *)
Lemma concat_parts_prefix (c n : nat) (df : list row) :
  concat (map (fun i => iloc (start_idx c i) (end_idx c (length df) i) df)
              (seq 0 n))
  = firstn (n * c) df.
Proof.
  induction n as [|n IH]; [reflexivity|].
  rewrite seq_S, map_app, concat_app, IH. cbn [map concat Nat.add].
  rewrite app_nil_r, part_range, iloc_clip. unfold start_idx.
  rewrite <- firstn_plus. f_equal. lia.
Qed.

Lemma nth_error_parts (df : list row) (N i : nat) :
  i < N ->
  nth_error (split_parts df N) i
  = Some (iloc (start_idx (ceil_div (length df) N) i)
               (end_idx (ceil_div (length df) N) (length df) i) df).
Proof.
  intros Hi. unfold split_parts. rewrite nth_error_map.
  rewrite nth_error_seq.
  destruct (Nat.ltb_spec i N); [reflexivity | lia].
Qed.

Lemma length_part (df : list row) (N i : nat) :
  i < N ->
  length (nth i (split_parts df N) [])
  = Nat.min (ceil_div (length df) N)
            (length df - i * ceil_div (length df) N).
Proof.
  intros Hi.
  rewrite (nth_error_nth _ _ _ (nth_error_parts df N i Hi)).
  rewrite length_iloc, part_range. unfold start_idx. lia.
Qed.

(** C3, as the code has it. For [N >= 1] parts of a frame of [R] rows and
    [c = ceil(R/N)], part [i] (0-based) is the contiguous row range from
    [i*c] to [min((i+1)*c, R)], so it holds [min(c, R - i*c)] rows: parts
    of [c] rows, then at most one shorter part, then empty parts.  The
    ranges are disjoint and in row order, the row counts add up to [R], and
    the parts concatenated in part order are the frame.  When
    [(N-1)*c <= R] every part but the last has [c] rows and the last has
    the remainder [R - (N-1)*c]. *)
Theorem split_parts_partition (df : list row) (N : nat) :
  1 <= N ->
  split_csv df N = Some (split_parts df N) /\
  length (split_parts df N) = N /\
  (forall i, i < N ->
     nth_error (split_parts df N) i
     = Some (iloc (i * ceil_div (length df) N)
                  (Nat.min ((i + 1) * ceil_div (length df) N) (length df))
                  df) /\
     length (nth i (split_parts df N) [])
     = Nat.min (ceil_div (length df) N)
               (length df - i * ceil_div (length df) N)) /\
  (forall i j, i < j ->
     end_idx (ceil_div (length df) N) (length df) i
     <= start_idx (ceil_div (length df) N) j) /\
  list_sum (map (@length row) (split_parts df N)) = length df /\
  concat (split_parts df N) = df /\
  ((N - 1) * ceil_div (length df) N <= length df ->
   (forall i, i < N - 1 ->
      length (nth i (split_parts df N) []) = ceil_div (length df) N) /\
   length (nth (N - 1) (split_parts df N) [])
   = length df - (N - 1) * ceil_div (length df) N).
Proof.
  intros HN.
  pose proof (ceil_div_cover (length df) N HN) as Hcover.
  assert (Hconcat : concat (split_parts df N) = df).
  { unfold split_parts. rewrite concat_parts_prefix.
    apply firstn_all2. lia. }
  split; [|split; [|split; [|split; [|split; [|split]]]]].
  - unfold split_csv. destruct (Nat.eqb_spec N 0); [lia | reflexivity].
  - unfold split_parts. now rewrite length_map, length_seq.
  - intros i Hi. split.
    + apply nth_error_parts; exact Hi.
    + apply length_part; exact Hi.
  - intros i j Hij. unfold end_idx, start_idx. nia.
  - rewrite <- length_concat. now rewrite Hconcat.
  - exact Hconcat.
  - intros Hfull. split.
    + intros i Hi. rewrite length_part by lia. nia.
    + rewrite length_part by lia. nia.
Qed.

End Partition.

(** The scenario of the specification: 100 rows in 12 parts. *)
Lemma split_100_rows_12_parts :
  1 <= 12 /\
  map (@length nat) (split_parts (seq 0 100) 12)
  = [9; 9; 9; 9; 9; 9; 9; 9; 9; 9; 9; 1] /\
  concat (split_parts (seq 0 100) 12) = seq 0 100.
Proof.
  split; [lia|]. split; [reflexivity|].
  exact (proj1 (proj2 (proj2 (proj2 (proj2 (proj2
    (split_parts_partition nat (seq 0 100) 12 ltac:(lia)))))))).
Defined.

(** C3 as the specification words it fails: with 5 rows and 4 parts,
    [ceil(5/4) = 2], the third part is not the last and has 1 row, and the
    last part is empty. *)
Lemma split_5_rows_4_parts :
  ceil_div 5 4 = 2 /\
  option_map (map (@length nat)) (split_csv [0; 1; 2; 3; 4] 4)
  = Some [2; 2; 1; 0] /\
  split_csv [0; 1; 2; 3; 4] 4 = Some [[0; 1]; [2; 3]; [4]; []].
Proof. repeat split. Qed.

End SplitCsvProps.

(* ================================================================== *)
(** * Properties of the cleaning pipeline                               *)
(* ================================================================== *)

Module DataCleanerProps.

Import DataCleaner.

(** *** Type coercion *)

Lemma existsb_notnull_bind {A B : Type} (f : A -> option B)
  (xs : list (option A)) :
  existsb notnull (map (bind_cell f) xs) = true <->
  exists s v, In (Some s) xs /\ f s = Some v.
Proof.
  rewrite existsb_exists. split.
  - intros (y & Hin & Hy). apply in_map_iff in Hin.
    destruct Hin as ([s|] & Hs & Hin); simpl in Hs; subst y.
    + destruct (f s) as [v|] eqn:E; [|discriminate]. now exists s, v.
    + discriminate.
  - intros (s & v & Hin & Hf). exists (Some v). split; [|reflexivity].
    apply in_map_iff. exists (Some s). simpl. now rewrite Hf.
Qed.

(** C1, as the code has it. In the numeric loop of the type-coercion step
    a text column becomes numeric if and only if at least one of its
    values parses as numeric; every cell that does not parse then becomes
    missing.  A column none of whose values parses is left unchanged. *)
Theorem convert_numeric_any_parses (parse_numeric : string -> option Q)
  (col : string) (xs : list (option string)) :
  (dtype_of (data (fst (convert_numeric parse_numeric
                          {| name := col; data := Object xs |}))) = float64
   <-> exists s v, In (Some s) xs /\ parse_numeric s = Some v) /\
  ((exists s v, In (Some s) xs /\ parse_numeric s = Some v) ->
   convert_numeric parse_numeric {| name := col; data := Object xs |}
   = ({| name := col;
         data := Numeric (map (bind_cell parse_numeric) xs) |},
      [ConvertedNumeric col])) /\
  ((forall s, In (Some s) xs -> parse_numeric s = None) ->
   convert_numeric parse_numeric {| name := col; data := Object xs |}
   = ({| name := col; data := Object xs |}, [])).
Proof.
  unfold convert_numeric, to_numeric. cbn [data name].
  pose proof (existsb_notnull_bind parse_numeric xs) as Hiff.
  destruct (existsb notnull (map (bind_cell parse_numeric) xs)) eqn:E.
  - split; [|split].
    + simpl. split; [intros _; now apply Hiff | reflexivity].
    + reflexivity.
    + intros Hnone. apply proj1 in Hiff.
      destruct (Hiff eq_refl) as (s & v & Hin & Hs).
      rewrite (Hnone s Hin) in Hs. discriminate.
  - split; [|split].
    + simpl. split; [discriminate|].
      intros H. apply Hiff in H. discriminate.
    + intros H. apply Hiff in H. discriminate.
    + reflexivity.
Qed.

(** C1 as the specification words it fails: a column with one numeric and
    one non-numeric value is converted, and the non-numeric cell is lost. *)
Lemma convert_mixed_column :
  parse_digits "12" = Some (12 # 1)%Q /\
  parse_digits "abc" = None /\
  convert_numeric parse_digits
    {| name := "code"; data := Object [Some "12"%string; Some "abc"%string] |}
  = ({| name := "code"; data := Numeric [Some (12 # 1)%Q; None] |},
     [ConvertedNumeric "code"]) /\
  fst (convert_data_types no_datetime datetime_of_floor parse_digits
         [{| name := "code"; data := Object [Some "12"%string; Some "abc"%string] |}])
  = [{| name := "code"; data := Numeric [Some (12 # 1)%Q; None] |}].
Proof. repeat split. Qed.

(** *** Series primitives *)

Lemma dropna_In {A : Type} (v : A) (xs : list (option A)) :
  In v (dropna xs) <-> In (Some v) xs.
Proof.
  induction xs as [|[a|] xs IH]; simpl; [tauto| |].
  - rewrite IH. split; intros [H|H]; auto; left; congruence.
  - rewrite IH. split; [auto|]. intros [H|H]; [discriminate | exact H].
Qed.

Lemma fillna_no_missing {A : Type} (v : option A) (xs : list (option A)) :
  isnull_any xs = false -> fillna v xs = xs.
Proof.
  unfold isnull_any, fillna. induction xs as [|[a|] xs IH]; simpl; intros H.
  - reflexivity.
  - now rewrite IH.
  - discriminate.
Qed.

Lemma fillna_None {A : Type} (xs : list (option A)) : fillna None xs = xs.
Proof.
  unfold fillna. induction xs as [|[a|] xs IH]; simpl; congruence.
Qed.

(** After [fillna(v)] the present cells are as before and the missing
    ones hold [v]. *)
Lemma fillna_cells {A : Type} (v : A) (xs : list (option A)) :
  Forall2 (fun x y => match x with None => y = Some v | Some _ => y = x end)
          xs (fillna (Some v) xs).
Proof.
  unfold fillna. induction xs as [|[a|] xs IH]; simpl; constructor; auto.
Qed.


Lemma mean_present (xs : list (option Q)) :
  dropna xs <> [] ->
  mean xs = Some (Qsum (dropna xs)
                  / inject_Z (Z.of_nat (length (dropna xs))))%Q.
Proof.
  unfold mean. destruct (dropna xs); [congruence | reflexivity].
Qed.

(** *** The mode *)

Lemma count_occ_le_top (vals : list string) (w : string) :
  count_occ string_dec vals w
  <= fold_right Nat.max 0 (map (count_occ string_dec vals) vals).
Proof.
  destruct (in_dec string_dec w vals) as [Hin|Hout].
  - apply ListFacts.max_upper. now apply in_map.
  - apply (count_occ_not_In string_dec) in Hout. rewrite Hout. lia.
Qed.

Lemma mode_empty (xs : list (option string)) : dropna xs = [] -> mode xs = [].
Proof. unfold mode. now intros ->. Qed.

(** [mode()[0]] is the least, in the order of strings, of the most
    frequent values. *)
Lemma mode_head (xs : list (option string)) :
  dropna xs <> [] ->
  exists v, hd_error (mode xs) = Some v /\
            most_frequent (dropna xs) v /\
            forall w, most_frequent (dropna xs) w -> String.leb v w = true.
Proof.
  intros Hne. unfold mode. set (vals := dropna xs) in *.
  set (top := fold_right Nat.max 0 (map (count_occ string_dec vals) vals)).
  set (cands := nodup string_dec
                  (filter (fun v => count_occ string_dec vals v =? top) vals)).
  assert (Hcand : forall v, In v cands <->
                            In v vals /\ count_occ string_dec vals v = top).
  { intros v. unfold cands. rewrite nodup_In, filter_In, Nat.eqb_eq. tauto. }
  assert (Htop : exists v, In v vals /\ count_occ string_dec vals v = top).
  { assert (H : In top (map (count_occ string_dec vals) vals)).
    { apply ListFacts.max_attained. destruct vals; [congruence|discriminate]. }
    apply in_map_iff in H. destruct H as (v & E & Hin). now exists v. }
  destruct Htop as (v0 & Hv0 & Ev0).
  assert (Hcne : cands <> []).
  { intros E. assert (H : In v0 cands) by (apply Hcand; now split).
    rewrite E in H. exact H. }
  destruct (DataCleaner.sort_values String.leb cands) as [|v rest] eqn:Es.
  { exfalso. revert Es. now apply ListFacts.sort_values_nonempty. }
  exists v. split; [reflexivity|].
  assert (Hv : In v cands).
  { apply (ListFacts.sort_values_In _ String.leb). rewrite Es. now left. }
  apply Hcand in Hv. destruct Hv as (Hin & Ev).
  split.
  - split; [exact Hin|]. intros w. rewrite Ev. apply count_occ_le_top.
  - intros w (Hw & Hmax).
    apply (ListFacts.sort_values_head_least _ String.leb
             String.leb_total ListFacts.string_leb_trans cands v rest Es).
    apply Hcand. split; [exact Hw|].
    specialize (Hmax v). rewrite Ev in Hmax.
    pose proof (count_occ_le_top vals w). fold top in H. lia.
Qed.

(** C9, as the code has it. Mode imputation of a text column with a
    missing cell fills every missing cell with one most frequent
    non-missing value and leaves the other cells as they are; when several
    values tie for the highest count the fill value is the smallest of
    them in the ascending order of strings (the first entry of the sorted
    mode). *)
Theorem mode_imputation_least_most_frequent (col : string)
  (xs : list (option string)) :
  isnull_any xs = true ->
  dropna xs <> [] ->
  exists v,
    impute_categorical [{| name := col; data := Object xs |}]
    = ([{| name := col; data := Object (fillna (Some v) xs) |}],
       [ImputedMode col v], None) /\
    most_frequent (dropna xs) v /\
    (forall w, most_frequent (dropna xs) w -> String.leb v w = true) /\
    Forall2 (fun x y => match x with None => y = Some v | Some _ => y = x end)
            xs (fillna (Some v) xs).
Proof.
  intros Hnull Hne.
  destruct (mode_head xs Hne) as (v & Hhd & Hfreq & Hleast).
  exists v. simpl. rewrite Hnull, Hhd.
  repeat split; try apply Hfreq; auto using fillna_cells.
Qed.

(** The scenario of the specification: [status] = LC, LC, EN, missing. *)
Example mode_imputation_status :
  impute_categorical
    [{| name := "status";
        data := Object [Some "LC"; Some "LC"; Some "EN"; None]%string |}]
  = ([{| name := "status";
         data := Object [Some "LC"; Some "LC"; Some "EN"; Some "LC"]%string |}],
     [ImputedMode "status" "LC"], None).
Proof. reflexivity. Qed.

Lemma mode_imputation_status_least :
  isnull_any [Some "LC"; Some "LC"; Some "EN"; None]%string = true /\
  dropna [Some "LC"; Some "LC"; Some "EN"; None]%string <> [] /\
  exists v,
    impute_categorical
      [{| name := "status";
          data := Object [Some "LC"; Some "LC"; Some "EN"; None]%string |}]
    = ([{| name := "status";
           data := Object (fillna (Some v)
                     [Some "LC"; Some "LC"; Some "EN"; None]%string) |}],
       [ImputedMode "status" v], None) /\
    most_frequent (dropna [Some "LC"; Some "LC"; Some "EN"; None]%string) v /\
    (forall w,
       most_frequent (dropna [Some "LC"; Some "LC"; Some "EN"; None]%string) w ->
       String.leb v w = true) /\
    Forall2 (fun x y => match x with None => y = Some v | Some _ => y = x end)
            [Some "LC"; Some "LC"; Some "EN"; None]%string
            (fillna (Some v) [Some "LC"; Some "LC"; Some "EN"; None]%string).
Proof.
  split; [reflexivity|]. split; [discriminate|].
  apply (mode_imputation_least_most_frequent "status"
           [Some "LC"; Some "LC"; Some "EN"; None]%string);
    [reflexivity | discriminate].
Defined.

(** C9 as the specification words it fails on a tie: in b, a, missing the
    first most frequent value in row order is b, and the cell is filled
    with a. *)
Lemma mode_tie_is_sorted :
  first_most_frequent [Some "b"; Some "a"; None]%string = Some "b"%string /\
  impute_categorical
    [{| name := "status";
        data := Object [Some "b"; Some "a"; None]%string |}]
  = ([{| name := "status";
         data := Object [Some "b"; Some "a"; Some "a"]%string |}],
     [ImputedMode "status" "a"], None).
Proof. split; reflexivity. Qed.

(** *** Mean and mode imputation *)

Lemma impute_numeric_spec (c : column) :
  name (fst (impute_numeric c)) = name c /\
  match data c with
  | Numeric xs => data (fst (impute_numeric c)) = Numeric (fillna (mean xs) xs)
  | _ => fst (impute_numeric c) = c
  end.
Proof.
  unfold impute_numeric. destruct (data c) as [xs|xs|xs|xs] eqn:E; auto.
  destruct (isnull_any xs) eqn:Hnull; simpl; auto.
  now rewrite fillna_no_missing.
Qed.


(** What the categorical loop leaves of one column when it completes. *)
Definition mode_filled (c c' : column) : Prop :=
  name c' = name c /\
  match data c with
  | Object xs =>
      forall v, hd_error (mode xs) = Some v ->
                data c' = Object (fillna (Some v) xs)
  | _ => c' = c
  end.

Lemma impute_categorical_done (df : DataFrame) :
  forall df' log,
    impute_categorical df = (df', log, None) -> Forall2 mode_filled df df'.
Proof.
  induction df as [|c rest IH]; simpl; intros df' log H.
  - injection H as <- _. constructor.
  - destruct (impute_categorical rest) as [[rest' log'] e] eqn:Er.
    destruct (data c) as [xs|xs|xs|xs] eqn:Ec.
    2: destruct (isnull_any xs) eqn:Hnull;
       [destruct (hd_error (mode xs)) as [v|] eqn:Hm; [|discriminate]|].
    all: injection H as <- _ ->; constructor; try (now eapply IH);
      unfold mode_filled; rewrite Ec; cbn [name data]; split; auto.
    + intros w Hw. congruence.
    + intros w _. now rewrite fillna_no_missing.
Qed.

Lemma Forall2_map_left {A B C : Type} (f : A -> B) (R : B -> C -> Prop)
  (l : list A) (l' : list C) :
  Forall2 R (map f l) l' -> Forall2 (fun a c => R (f a) c) l l'.
Proof.
  revert l'. induction l as [|a l IH]; intros l' H; inversion H; subst;
    constructor; auto.
Qed.

Lemma impute_missing_values_parts (df : DataFrame) :
  fst (fst (impute_missing_values df))
  = fst (fst (impute_categorical (map fst (map impute_numeric df)))) /\
  snd (impute_missing_values df)
  = snd (impute_categorical (map fst (map impute_numeric df))).
Proof.
  unfold impute_missing_values.
  destruct (impute_categorical (map fst (map impute_numeric df)))
    as [[df' log] e]. split; reflexivity.
Qed.

(** The step on [occurrences]: depth gets the mean 2 of 1 and 3, status
    the mode LC, eventDate its least most frequent value. *)
Example impute_occurrences :
  impute_missing_values occurrences
  = ([{| name := "depth"; data := Numeric [Some 1; Some (4 # 2); Some 3]%Q |};
      {| name := "status";
         data := Object [Some "LC"; Some "LC"; Some "LC"]%string |};
      {| name := "eventDate";
         data := Object [Some "2020"; Some "2021"; Some "2020"]%string |}],
     [ImputedMean "depth" (Some (4 # 2)%Q); ImputedMode "status" "LC";
      ImputedMode "eventDate" "2020"], None).
Proof. reflexivity. Qed.

(** *** Outlier capping *)

Lemma Qltb_lt (a b : Q) : Qltb a b = true <-> (a < b)%Q.
Proof.
  unfold Qltb. rewrite negb_true_iff.
  destruct (Qle_bool b a) eqn:E.
  - apply Qle_bool_iff in E. split; [discriminate | intros H; lra].
  - split; [intros _ | reflexivity].
    apply Qnot_le_lt. intros H. apply Qle_bool_iff in H. congruence.
Qed.

Lemma Qltb_ge (a b : Q) : Qltb a b = false <-> (b <= a)%Q.
Proof.
  unfold Qltb. rewrite negb_false_iff. apply Qle_bool_iff.
Qed.

Lemma filter_nil {A : Type} (f : A -> bool) (l : list A) :
  length (filter f l) = 0 <-> forall x, In x l -> f x = false.
Proof.
  induction l as [|a l IH]; simpl.
  - split; [intros _ x [] | reflexivity].
  - destruct (f a) eqn:E; simpl.
    + split; [discriminate|]. intros H. specialize (H a (or_introl eq_refl)).
      congruence.
    + rewrite IH. split.
      * intros H x [<-|Hx]; auto.
      * intros H x Hx. apply H. now right.
Qed.

(** The two assignments of lines 102-103 on one cell. *)
Lemma cap_cell (lower_bound upper_bound : Q) (x : option Q) :
  (lower_bound <= upper_bound)%Q ->
  (if cell_gt (if cell_lt x lower_bound then Some lower_bound else x)
              upper_bound
   then Some upper_bound
   else if cell_lt x lower_bound then Some lower_bound else x)
  = match x with
    | None => None
    | Some v => if Qltb v lower_bound then Some lower_bound
                else if Qltb upper_bound v then Some upper_bound
                     else Some v
    end.
Proof.
  intros Hle. destruct x as [v|]; simpl; [|reflexivity].
  destruct (Qltb v lower_bound) eqn:E1; simpl; [|reflexivity].
  destruct (Qltb upper_bound lower_bound) eqn:E2; [|reflexivity].
  apply Qltb_lt in E2. lra.
Qed.

(** C4. When the inter-quartile range of a numeric column is zero both
    bounds equal the quartile value, and after capping every present cell
    holds that value: a cell that held it is untouched, any other cell is
    replaced by a bound.  Missing cells stay missing. *)
Theorem cap_outliers_zero_iqr (col : string) (xs : list (option Q))
  (Q1 Q3 : Q) :
  quantile xs (1 # 4) = Some Q1 ->
  quantile xs (3 # 4) = Some Q3 ->
  (Q3 - Q1 == 0)%Q ->
  (Q1 - (3 # 2) * (Q3 - Q1) == Q1)%Q /\
  (Q3 + (3 # 2) * (Q3 - Q1) == Q1)%Q /\
  exists ys,
    data (fst (cap_outliers {| name := col; data := Numeric xs |}))
    = Numeric ys /\
    Forall2 (fun x y =>
               match x with
               | None => y = None
               | Some v =>
                   ((v == Q1)%Q /\ y = Some v) \/
                   (~ (v == Q1)%Q /\ exists b, y = Some b /\ (b == Q1)%Q)
               end) xs ys.
Proof.
  intros H1 H3 Hiqr.
  split; [lra|]. split; [lra|].
  unfold cap_outliers. cbn [data name]. rewrite H1, H3.
  set (lo := (Q1 - (3 # 2) * (Q3 - Q1))%Q).
  set (hi := (Q3 + (3 # 2) * (Q3 - Q1))%Q).
  assert (Hlo : (lo == Q1)%Q) by (unfold lo; lra).
  assert (Hhi : (hi == Q1)%Q) by (unfold hi; lra).
  destruct (0 <? length (filter (fun x => cell_lt x lo || cell_gt x hi) xs))
    eqn:Hout; cbn [fst data].
  - eexists. split; [reflexivity|]. rewrite map_map.
    clear Hout H1 H3. induction xs as [|x xs IH]; simpl; constructor; auto.
    rewrite cap_cell by lra.
    destruct x as [v|]; [|reflexivity].
    destruct (Qltb v lo) eqn:E1.
    + apply Qltb_lt in E1. right. split; [lra|]. now exists lo.
    + apply Qltb_ge in E1. destruct (Qltb hi v) eqn:E2.
      * apply Qltb_lt in E2. right. split; [lra|]. now exists hi.
      * apply Qltb_ge in E2. left. split; [lra | reflexivity].
  - exists xs. split; [reflexivity|].
    apply Nat.ltb_ge, Nat.le_0_r in Hout.
    pose proof (proj1 (filter_nil _ _) Hout) as Hin. clear Hout.
    clear H1 H3. induction xs as [|x xs IH]; constructor.
    + destruct x as [v|]; [|reflexivity].
      specialize (Hin (Some v) (or_introl eq_refl)).
      apply orb_false_iff in Hin. simpl in Hin. destruct Hin as [E1 E2].
      apply Qltb_ge in E1, E2. left. split; [lra | reflexivity].
    + apply IH. intros y Hy. apply Hin. now right.
Qed.

Lemma cap_outliers_flat_column :
  quantile [Some 5; Some 5; Some 5; Some 5; Some 9]%Q (1 # 4)
  = Some (20 # 4)%Q /\
  quantile [Some 5; Some 5; Some 5; Some 5; Some 9]%Q (3 # 4)
  = Some (20 # 4)%Q /\
  ((20 # 4) - (20 # 4) == 0)%Q /\
  ((20 # 4) - (3 # 2) * ((20 # 4) - (20 # 4)) == 20 # 4)%Q /\
  ((20 # 4) + (3 # 2) * ((20 # 4) - (20 # 4)) == 20 # 4)%Q /\
  exists ys,
    data (fst (cap_outliers
                 {| name := "depth";
                    data := Numeric
                      [Some 5; Some 5; Some 5; Some 5; Some 9]%Q |}))
    = Numeric ys /\
    Forall2 (fun x y =>
               match x with
               | None => y = None
               | Some v =>
                   ((v == 20 # 4)%Q /\ y = Some v) \/
                   (~ (v == 20 # 4)%Q /\
                    exists b, y = Some b /\ (b == 20 # 4)%Q)
               end)
            [Some 5; Some 5; Some 5; Some 5; Some 9]%Q ys.
Proof.
  split; [reflexivity|]. split; [reflexivity|]. split; [reflexivity|].
  apply (cap_outliers_zero_iqr "depth"
           [Some 5; Some 5; Some 5; Some 5; Some 9]%Q (20 # 4) (20 # 4));
    reflexivity.
Defined.

(** C8. When every value of a numeric column lies within the bounds
    computed from the column itself, capping returns the column as it is
    and reports nothing. *)
Theorem cap_outliers_within_bounds (c : column) (xs : list (option Q))
  (Q1 Q3 : Q) :
  data c = Numeric xs ->
  quantile xs (1 # 4) = Some Q1 ->
  quantile xs (3 # 4) = Some Q3 ->
  (forall v, In (Some v) xs ->
             (Q1 - (3 # 2) * (Q3 - Q1) <= v)%Q /\
             (v <= Q3 + (3 # 2) * (Q3 - Q1))%Q) ->
  cap_outliers c = (c, []).
Proof.
  intros Hc H1 H3 Hin. unfold cap_outliers. rewrite Hc, H1, H3.
  set (lo := (Q1 - (3 # 2) * (Q3 - Q1))%Q) in *.
  set (hi := (Q3 + (3 # 2) * (Q3 - Q1))%Q) in *.
  assert (Hnone : length (filter (fun x => cell_lt x lo || cell_gt x hi) xs)
                  = 0).
  { apply filter_nil. intros [v|] Hx; [|reflexivity].
    destruct (Hin v Hx) as [Hl Hu]. simpl.
    apply orb_false_iff. split; now apply Qltb_ge. }
  now rewrite Hnone.
Qed.

Lemma cap_outliers_no_outlier :
  data {| name := "depth"; data := Numeric [Some 1; Some 2; Some 3; Some 4]%Q |}
  = Numeric [Some 1; Some 2; Some 3; Some 4]%Q /\
  quantile [Some 1; Some 2; Some 3; Some 4]%Q (1 # 4) = Some (7 # 4)%Q /\
  quantile [Some 1; Some 2; Some 3; Some 4]%Q (3 # 4) = Some (13 # 4)%Q /\
  cap_outliers
    {| name := "depth"; data := Numeric [Some 1; Some 2; Some 3; Some 4]%Q |}
  = ({| name := "depth";
        data := Numeric [Some 1; Some 2; Some 3; Some 4]%Q |}, []).
Proof.
  split; [reflexivity|]. split; [reflexivity|]. split; [reflexivity|].
  apply (cap_outliers_within_bounds _ [Some 1; Some 2; Some 3; Some 4]%Q
           (7 # 4) (13 # 4)); try reflexivity.
  intros v Hv. simpl in Hv.
  destruct Hv as [E|[E|[E|[E|[]]]]]; injection E as <-;
    split; unfold Qle; simpl; lia.
Defined.

(** The scenario of the specification: [depth] = 1..9, 100. *)
Example cap_outliers_depth :
  let depth := [Some 1; Some 2; Some 3; Some 4; Some 5;
                Some 6; Some 7; Some 8; Some 9; Some 100]%Q in
  option_map Qred (quantile depth (1 # 4)) = Some (13 # 4)%Q /\
  option_map Qred (quantile depth (3 # 4)) = Some (31 # 4)%Q /\
  exists lower_bound upper_bound,
    cap_outliers {| name := "depth"; data := Numeric depth |}
    = ({| name := "depth";
          data := Numeric [Some 1; Some 2; Some 3; Some 4; Some 5;
                           Some 6; Some 7; Some 8; Some 9;
                           Some upper_bound]%Q |},
       [OutliersCapped "depth" 1 lower_bound upper_bound]) /\
    (lower_bound == - (7 # 2))%Q /\ (upper_bound == 29 # 2)%Q.
Proof.
  split; [reflexivity|]. split; [reflexivity|].
  eexists. eexists. split; [vm_compute; reflexivity|].
  split; reflexivity.
Qed.

(** *** Row counts *)

Lemma row_counts_shape (df df' : DataFrame) :
  row_counts df' = row_counts df ->
  len df' = len df /\ (rectangular df -> rectangular df').
Proof.
  intros H.
  assert (Hlen : len df' = len df).
  { destruct df as [|c r], df' as [|c' r']; try discriminate; auto.
    simpl in *. congruence. }
  split; [exact Hlen|].
  unfold rectangular. rewrite Hlen. clear Hlen. generalize (len df).
  intros n. revert df' H.
  induction df as [|c r IH]; intros [|c' r'] H Hr; try discriminate;
    constructor; inversion Hr; subst; simpl in H.
  - congruence.
  - apply IH; [congruence | assumption].
Qed.

Lemma row_counts_map (f : column -> column) (df : DataFrame) :
  (forall c, In c df ->
             name (f c) = name c /\
             series_len (data (f c)) = series_len (data c)) ->
  row_counts (map f df) = row_counts df.
Proof.
  intros H. unfold row_counts. rewrite map_map. apply map_ext_in.
  intros c Hc. destruct (H c Hc) as [-> ->]. reflexivity.
Qed.

Lemma length_fillna {A : Type} (v : option A) (xs : list (option A)) :
  length (fillna v xs) = length xs.
Proof. apply length_map. Qed.

Lemma impute_numeric_rows (c : column) :
  name (fst (impute_numeric c)) = name c /\
  series_len (data (fst (impute_numeric c))) = series_len (data c).
Proof.
  unfold impute_numeric. destruct (data c) as [xs|xs|xs|xs] eqn:E.
  1: destruct (isnull_any xs).
  all: simpl; rewrite ?E; simpl; rewrite ?length_fillna; auto.
Qed.

Lemma impute_categorical_rows (df : DataFrame) :
  row_counts (fst (fst (impute_categorical df))) = row_counts df.
Proof.
  induction df as [|c rest IH]; simpl; [reflexivity|].
  destruct (impute_categorical rest) as [[rest' log'] e] eqn:Er.
  simpl in IH.
  destruct (data c) as [xs|xs|xs|xs] eqn:Ec.
  2: destruct (isnull_any xs);
     [destruct (hd_error (mode xs)) as [v|]|].
  all: simpl; rewrite ?Ec; simpl; rewrite ?length_fillna; congruence.
Qed.

Lemma impute_missing_values_rows (df : DataFrame) :
  row_counts (fst (fst (impute_missing_values df))) = row_counts df.
Proof.
  rewrite (proj1 (impute_missing_values_parts df)).
  rewrite impute_categorical_rows, map_map.
  apply row_counts_map. intros c _. apply impute_numeric_rows.
Qed.

Lemma assign_rows (df df' : DataFrame) (col : string) (values : list Q) :
  rectangular df ->
  assign df col values = inr df' ->
  row_counts df' = row_counts df.
Proof.
  unfold assign. intros Hr H.
  destruct (Nat.eqb_spec (length values) (len df)) as [E|]; [|discriminate].
  injection H as <-. apply row_counts_map. intros c Hc.
  destruct (String.eqb (name c) col); simpl; auto.
  split; [reflexivity|]. rewrite length_map, E. symmetry.
  unfold rectangular in Hr. rewrite Forall_forall in Hr. now apply Hr.
Qed.

Lemma knn_update_rows (cols : list string) (imputed_data : list (list Q)) :
  forall (i : nat) (df : DataFrame),
    rectangular df ->
    row_counts (fst (knn_update df i cols imputed_data)) = row_counts df.
Proof.
  induction cols as [|col rest IH]; intros i df Hr; simpl; [reflexivity|].
  destruct (nth_error imputed_data i) as [values|]; [|reflexivity].
  destruct (assign df col values) as [e|df'] eqn:Ea; [reflexivity|].
  pose proof (assign_rows _ _ _ _ Hr Ea) as Hrows.
  rewrite IH; [exact Hrows|]. now apply (row_counts_shape df df').
Qed.

Lemma cap_outliers_rows (c : column) :
  name (fst (cap_outliers c)) = name c /\
  series_len (data (fst (cap_outliers c))) = series_len (data c).
Proof.
  unfold cap_outliers. destruct (data c) as [xs|xs|xs|xs] eqn:E.
  1: destruct (quantile xs (1 # 4)) as [Q1|];
     [destruct (quantile xs (3 # 4)) as [Q3|];
      [match goal with |- context [if ?b then _ else _] => destruct b end|]|].
  all: simpl; rewrite ?E; simpl; rewrite ?length_map; auto.
Qed.

Section Libraries.

Variable fit_transform : Z -> list (list (option Q)) -> exn + list (list Q).
Variable parse_datetime : string -> option Z.
Variable datetime_of_number : Q -> option Z.
Variable parse_numeric : string -> option Q.

Lemma knn_imputation_rows (df : DataFrame) :
  rectangular df ->
  row_counts (fst (knn_imputation fit_transform df)) = row_counts df.
Proof.
  intros Hr. unfold knn_imputation.
  destruct (0 <? length (select_numeric df)); [|reflexivity].
  match goal with |- context [filter ?f ?l] => set (numeric_data := filter f l) end.
  destruct (0 <? length numeric_data); [|reflexivity].
  destruct (fit_transform _ _) as [e|imputed_data]; [reflexivity|].
  pose proof (knn_update_rows (map fst numeric_data) imputed_data 0 df Hr) as H.
  destruct (knn_update df 0 (map fst numeric_data) imputed_data) as [df' [e|]];
    exact H.
Qed.

Lemma handle_outliers_rows (df : DataFrame) :
  row_counts (fst (handle_outliers df)) = row_counts df.
Proof.
  unfold handle_outliers. cbn [fst]. rewrite map_map.
  apply row_counts_map. intros c _. apply cap_outliers_rows.
Qed.

Lemma convert_date_rows (c : column) :
  name (fst (convert_date parse_datetime datetime_of_number c)) = name c /\
  series_len (data (fst (convert_date parse_datetime datetime_of_number c)))
  = series_len (data c).
Proof.
  unfold convert_date. destruct (contains "date" (lower (name c))); auto.
  destruct (data c) as [xs|xs|xs|xs] eqn:E.
  all: simpl; rewrite ?E; simpl; rewrite ?length_map; auto.
Qed.

Lemma convert_numeric_rows (c : column) :
  name (fst (convert_numeric parse_numeric c)) = name c /\
  series_len (data (fst (convert_numeric parse_numeric c)))
  = series_len (data c).
Proof.
  unfold convert_numeric, to_numeric.
  destruct (data c) as [xs|xs|xs|xs] eqn:E.
  2: match goal with |- context [if ?b then _ else _] => destruct b end.
  all: simpl; rewrite ?E; simpl; rewrite ?length_map; auto.
Qed.

Lemma convert_data_types_rows (df : DataFrame) :
  row_counts (fst (convert_data_types parse_datetime datetime_of_number
                     parse_numeric df))
  = row_counts df.
Proof.
  unfold convert_data_types. cbn [fst]. rewrite !map_map.
  apply row_counts_map. intros c _.
  destruct (convert_numeric_rows
              (fst (convert_date parse_datetime datetime_of_number c)))
    as [Hn Hl].
  destruct (convert_date_rows c) as [Hn' Hl']. split; congruence.
Qed.

(** C7. On a rectangular frame the cleaning pipeline keeps every column's
    label and row count, so the working frame has the row count of the
    loaded one and is still rectangular; this holds whether the run
    completes or is ended by the imputation step.  A completed run writes
    that frame, and a run is ended only by an exception of the imputation
    step. *)
Theorem clean_data_keeps_row_count (df : DataFrame) :
  rectangular df ->
  row_counts (self_df (clean_data fit_transform parse_datetime
                         datetime_of_number parse_numeric df))
  = row_counts df /\
  len (self_df (clean_data fit_transform parse_datetime
                  datetime_of_number parse_numeric df))
  = len df /\
  rectangular (self_df (clean_data fit_transform parse_datetime
                          datetime_of_number parse_numeric df)) /\
  raised (clean_data fit_transform parse_datetime
            datetime_of_number parse_numeric df)
  = snd (impute_missing_values df) /\
  (snd (impute_missing_values df) = None ->
   cleaned_dataset (clean_data fit_transform parse_datetime
                      datetime_of_number parse_numeric df)
   = Some (self_df (clean_data fit_transform parse_datetime
                      datetime_of_number parse_numeric df))).
Proof.
  intros Hr.
  assert (Hrows :
    row_counts (self_df (clean_data fit_transform parse_datetime
                           datetime_of_number parse_numeric df))
    = row_counts df).
  { unfold clean_data.
    pose proof (impute_missing_values_rows df) as H1.
    destruct (impute_missing_values df) as [[df1 log1] e]. cbn [fst] in H1.
    destruct e as [e|]; [exact H1|].
    assert (Hr1 : rectangular df1) by now apply (row_counts_shape df df1).
    pose proof (knn_imputation_rows df1 Hr1) as H2.
    destruct (knn_imputation fit_transform df1) as [df2 log2]. cbn [fst] in H2.
    pose proof (handle_outliers_rows df2) as H3.
    destruct (handle_outliers df2) as [df3 log3]. cbn [fst] in H3.
    pose proof (convert_data_types_rows df3) as H4.
    destruct (convert_data_types _ _ _ df3) as [df4 log4]. cbn [fst] in H4.
    cbn [self_df]. congruence. }
  split; [exact Hrows|].
  split; [now apply row_counts_shape|].
  split; [now apply (row_counts_shape df)|].
  unfold clean_data.
  destruct (impute_missing_values df) as [[df1 log1] e]. cbn [snd].
  destruct e as [e|].
  - split; [reflexivity | discriminate].
  - destruct (knn_imputation fit_transform df1) as [df2 log2].
    destruct (handle_outliers df2) as [df3 log3].
    destruct (convert_data_types _ _ _ df3) as [df4 log4].
    split; reflexivity.
Qed.

(** *** Nearest-neighbour imputation *)

Lemma assign_len (df df' : DataFrame) (col : string) (values : list Q) :
  assign df col values = inr df' -> len df' = len df.
Proof.
  unfold assign.
  destruct (Nat.eqb_spec (length values) (len df)) as [E|]; [|discriminate].
  intros [= <-]. destruct df as [|c r]; [reflexivity|]. simpl.
  destruct (String.eqb (name c) col); simpl; [|reflexivity].
  rewrite length_map. exact E.
Qed.

Lemma knn_update_completes (cols : list string)
  (imputed_data : list (list Q)) :
  forall (i : nat) (df : DataFrame),
    (forall j, j < length cols ->
       exists values, nth_error imputed_data (i + j) = Some values /\
                      length values = len df) ->
    snd (knn_update df i cols imputed_data) = None.
Proof.
  induction cols as [|col rest IH]; intros i df H; simpl; [reflexivity|].
  destruct (H 0) as (values & Hnth & Hlen); [simpl; lia|].
  rewrite Nat.add_0_r in Hnth. rewrite Hnth.
  destruct (assign df col values) as [e|df'] eqn:Ea.
  - unfold assign in Ea. rewrite Hlen, Nat.eqb_refl in Ea. discriminate.
  - apply IH. intros j Hj. destruct (H (S j)) as (v & Hv & Hl); [simpl; lia|].
    exists v. rewrite (assign_len _ _ _ _ Ea).
    split; [|exact Hl]. rewrite <- Hv. f_equal. lia.
Qed.

Lemma select_numeric_lengths (df : DataFrame) (p : string * list (option Q)) :
  rectangular df -> In p (select_numeric df) -> length (snd p) = len df.
Proof.
  intros Hr Hin. unfold select_numeric in Hin. apply in_flat_map in Hin.
  destruct Hin as (c & Hc & Hp).
  unfold rectangular in Hr. rewrite Forall_forall in Hr.
  specialize (Hr c Hc).
  destruct (data c) as [xs|xs|xs|xs]; simpl in Hp; try contradiction.
  destruct Hp as [<-|[]]. exact Hr.
Qed.

Lemma Forall2_nth_error {A B : Type} (R : A -> B -> Prop)
  (l : list A) (l' : list B) :
  Forall2 R l l' ->
  forall j x, nth_error l j = Some x ->
              exists y, nth_error l' j = Some y /\ R x y.
Proof.
  induction 1 as [|a b l l' Hab _ IH]; intros [|j] x; simpl; try discriminate.
  - intros [= <-]. now exists b.
  - apply IH.
Qed.

(** The contract of scikit-learn's imputer: the array returned has the
    shape of its input, a column for each column that has a value (all of
    them, after line 53) and a row for each row. *)
Hypothesis fit_transform_shape :
  forall n_neighbors X imputed_data,
    fit_transform n_neighbors X = inr imputed_data ->
    Forall2 (fun xs values => length values = length xs) X imputed_data.

Lemma knn_imputation_failure (df : DataFrame) (e : exn) :
  rectangular df ->
  In (KnnError e) (snd (knn_imputation fit_transform df)) ->
  knn_imputation fit_transform df = (df, [KnnError e]).
Proof.
  intros Hr. unfold knn_imputation.
  destruct (0 <? length (select_numeric df));
    [|intros [H|[]]; discriminate].
  set (numeric_data :=
         filter (fun p => negb (all_missing (snd p))) (select_numeric df)).
  destruct (0 <? length numeric_data); [|intros [H|[]]; discriminate].
  destruct (fit_transform _ (map snd numeric_data)) as [e0|imputed_data] eqn:Ef.
  - intros [H|[]]. now injection H as ->.
  - assert (Hok : snd (knn_update df 0 (map fst numeric_data) imputed_data)
                  = None).
    { apply knn_update_completes. intros j Hj. rewrite length_map in Hj.
      destruct (nth_error numeric_data j) as [p|] eqn:Hp;
        [|apply nth_error_None in Hp; lia].
      apply fit_transform_shape in Ef.
      destruct (Forall2_nth_error _ _ _ Ef j (snd p)) as (values & Hv & Hl).
      { rewrite nth_error_map, Hp. reflexivity. }
      exists values. split; [exact Hv|]. rewrite Hl.
      apply select_numeric_lengths; [exact Hr|].
      apply nth_error_In in Hp. unfold numeric_data in Hp.
      now apply filter_In in Hp. }
    destruct (knn_update df 0 (map fst numeric_data) imputed_data)
      as [df' [e0|]]; [discriminate|].
    intros [H|[]]. discriminate.
Qed.

(** C6. Whatever failure the nearest-neighbour step meets, it is caught
    and logged, the step returns the frame exactly as mean/mode imputation
    left it, and the run goes on from that frame through outlier capping
    and type coercion to the end. *)
Theorem knn_failure_keeps_frame (df0 df1 : DataFrame) (log1 : list message)
  (e : exn) :
  rectangular df0 ->
  impute_missing_values df0 = (df1, log1, None) ->
  In (KnnError e) (snd (knn_imputation fit_transform df1)) ->
  knn_imputation fit_transform df1 = (df1, [KnnError e]) /\
  self_df (clean_data fit_transform parse_datetime datetime_of_number
             parse_numeric df0)
  = fst (convert_data_types parse_datetime datetime_of_number parse_numeric
           (fst (handle_outliers df1))) /\
  cleaned_dataset (clean_data fit_transform parse_datetime datetime_of_number
                     parse_numeric df0)
  = Some (fst (convert_data_types parse_datetime datetime_of_number
                 parse_numeric (fst (handle_outliers df1)))) /\
  raised (clean_data fit_transform parse_datetime datetime_of_number
            parse_numeric df0) = None /\
  In (KnnError e)
     (console (clean_data fit_transform parse_datetime datetime_of_number
                 parse_numeric df0)).
Proof.
  intros Hr Himp Hin.
  assert (Hr1 : rectangular df1).
  { apply (row_counts_shape df0 df1); [|exact Hr].
    pose proof (impute_missing_values_rows df0) as H.
    now rewrite Himp in H. }
  pose proof (knn_imputation_failure df1 e Hr1 Hin) as Hknn.
  split; [exact Hknn|].
  unfold clean_data. rewrite Himp, Hknn.
  destruct (handle_outliers df1) as [df3 log3]. cbn [fst].
  destruct (convert_data_types _ _ _ df3) as [df4 log4].
  cbn [self_df cleaned_dataset raised console fst].
  repeat split.
  apply in_or_app. right. now left.
Qed.

End Libraries.

Lemma fit_transform_mean_shape :
  forall n_neighbors X imputed_data,
    fit_transform_mean n_neighbors X = inr imputed_data ->
    Forall2 (fun xs values => length values = length xs) X imputed_data.
Proof.
  intros k X out. unfold fit_transform_mean.
  destruct (k <=? 0)%Z; [discriminate|]. intros [= <-].
  induction X as [|xs X IH]; simpl; constructor; auto.
  apply length_map.
Qed.

Lemma rectangular_single_row : rectangular single_row.
Proof. repeat constructor. Qed.

Lemma rectangular_occurrences : rectangular occurrences.
Proof. repeat constructor. Qed.

(** A frame of one row: [n_neighbors = min(5, 0) = 0] is rejected. *)
Lemma knn_failure_single_row :
  rectangular single_row /\
  impute_missing_values single_row = (single_row, [], None) /\
  In (KnnError LibraryError)
     (snd (knn_imputation fit_transform_mean single_row)) /\
  knn_imputation fit_transform_mean single_row
  = (single_row, [KnnError LibraryError]) /\
  self_df (clean_data fit_transform_mean no_datetime datetime_of_floor
             parse_digits single_row)
  = fst (convert_data_types no_datetime datetime_of_floor parse_digits
           (fst (handle_outliers single_row))) /\
  cleaned_dataset (clean_data fit_transform_mean no_datetime
                     datetime_of_floor parse_digits single_row)
  = Some (fst (convert_data_types no_datetime datetime_of_floor parse_digits
                 (fst (handle_outliers single_row)))) /\
  raised (clean_data fit_transform_mean no_datetime datetime_of_floor
            parse_digits single_row) = None /\
  In (KnnError LibraryError)
     (console (clean_data fit_transform_mean no_datetime datetime_of_floor
                 parse_digits single_row)).
Proof.
  split; [exact rectangular_single_row|]. split; [reflexivity|].
  split; [now left|].
  apply (knn_failure_keeps_frame fit_transform_mean no_datetime
           datetime_of_floor parse_digits fit_transform_mean_shape
           single_row single_row [] LibraryError).
  - exact rectangular_single_row.
  - reflexivity.
  - now left.
Defined.

Lemma clean_data_occurrences :
  rectangular occurrences /\
  row_counts (self_df (clean_data fit_transform_mean no_datetime
                         datetime_of_floor parse_digits occurrences))
  = row_counts occurrences /\
  len (self_df (clean_data fit_transform_mean no_datetime
                  datetime_of_floor parse_digits occurrences))
  = len occurrences /\
  rectangular (self_df (clean_data fit_transform_mean no_datetime
                          datetime_of_floor parse_digits occurrences)) /\
  raised (clean_data fit_transform_mean no_datetime
            datetime_of_floor parse_digits occurrences)
  = snd (impute_missing_values occurrences) /\
  (snd (impute_missing_values occurrences) = None ->
   cleaned_dataset (clean_data fit_transform_mean no_datetime
                      datetime_of_floor parse_digits occurrences)
   = Some (self_df (clean_data fit_transform_mean no_datetime
                      datetime_of_floor parse_digits occurrences))).
Proof.
  split; [exact rectangular_occurrences|].
  apply (clean_data_keeps_row_count fit_transform_mean no_datetime
           datetime_of_floor parse_digits occurrences).
  exact rectangular_occurrences.
Defined.

(** The run on [occurrences], evaluated. *)
Example clean_data_occurrences_run :
  len occurrences = 3 /\
  raised (clean_data fit_transform_mean no_datetime datetime_of_floor
            parse_digits occurrences) = None /\
  option_map len
    (cleaned_dataset (clean_data fit_transform_mean no_datetime
                        datetime_of_floor parse_digits occurrences))
  = Some 3 /\
  option_map (map (fun c => (name c, dtype_of (data c))))
    (cleaned_dataset (clean_data fit_transform_mean no_datetime
                        datetime_of_floor parse_digits occurrences))
  = Some [("depth"%string, float64); ("status"%string, object);
          ("eventDate"%string, datetime64)].
Proof. repeat split. Qed.

End DataCleanerProps.

(* ================================================================== *)
(** * Properties of the splitter's fallback path                        *)
(* ================================================================== *)

Module SplitCsvFallbackProps.

Import SplitCsv.

Section Fallback.

Variable row : Type.

(** What one run of the [while] loop leaves. *)
Lemma write_full_splits_spec (c N : nat) :
  forall (fuel : nat) (out : list row) (cs : nat) files out' cs',
    write_full_splits fuel c N out cs = (files, out', cs') ->
    out = concat (map snd files) ++ out' /\
    Forall (fun f => length (snd f) = c) files /\
    map fst files = seq (cs + 1) (length files) /\
    cs' = cs + length files /\
    (files <> [] -> cs' <= N - 1) /\
    (N - 1 <= fuel + cs -> length out' < c \/ N - 1 <= cs').
Proof.
  induction fuel as [|fuel IH]; intros out cs files out' cs' H; simpl in H.
  - injection H as <- <- <-. simpl. repeat split; auto; try lia.
    congruence.
  - destruct ((c <=? length out) && (cs <? N - 1)) eqn:G.
    + destruct (write_full_splits fuel c N (skipn c out) (cs + 1))
        as [[fs o] k] eqn:E.
      injection H as <- <- <-.
      apply andb_true_iff in G. destruct G as [G1 G2].
      apply Nat.leb_le in G1. apply Nat.ltb_lt in G2.
      destruct (IH _ _ _ _ _ E) as (Hc & Hf & Hn & Hk & Hb & Hg).
      simpl. repeat split.
      * rewrite <- app_assoc, <- Hc. symmetry. apply firstn_skipn.
      * constructor; [|exact Hf]. simpl. rewrite length_firstn. lia.
      * f_equal. rewrite Hn. f_equal. lia.
      * lia.
      * intros _. destruct fs as [|f fs]; [simpl in Hk; lia|].
        assert (k <= N - 1) by (apply Hb; discriminate). lia.
      * intros Hfuel. apply Hg. lia.
    + injection H as <- <- <-. simpl. repeat split; auto; try lia.
      * congruence.
      * intros _. apply andb_false_iff in G. destruct G as [G|G].
        -- left. apply Nat.leb_gt in G. exact G.
        -- right. apply Nat.ltb_ge in G. exact G.
Qed.

(** What the [for] loop leaves. *)
Lemma read_chunks_spec (c N : nat) :
  forall (chunks : list (list row)) (out : list row) (cs : nat)
         files out' cs',
    read_chunks chunks c N out cs = (files, out', cs') ->
    out ++ concat chunks = concat (map snd files) ++ out' /\
    Forall (fun f => length (snd f) = c) files /\
    map fst files = seq (cs + 1) (length files) /\
    cs' = cs + length files /\
    (files <> [] -> cs' <= N - 1) /\
    (chunks <> [] -> length out' < c \/ N - 1 <= cs').
Proof.
  induction chunks as [|chunk rest IH]; intros out cs files out' cs' H;
    simpl in H.
  - injection H as <- <- <-. simpl. rewrite app_nil_r.
    repeat split; auto; try lia; congruence.
  - destruct (write_full_splits N c N (out ++ chunk) cs)
      as [[fs1 o1] k1] eqn:E1.
    destruct (read_chunks rest c N o1 k1) as [[fs2 o2] k2] eqn:E2.
    injection H as <- <- <-.
    destruct (write_full_splits_spec _ _ _ _ _ _ _ _ E1)
      as (Hc1 & Hf1 & Hn1 & Hk1 & Hb1 & Hg1).
    destruct (IH _ _ _ _ _ E2) as (Hc2 & Hf2 & Hn2 & Hk2 & Hb2 & Hg2).
    repeat split.
    + simpl. rewrite app_assoc, Hc1, <- app_assoc, Hc2.
      now rewrite map_app, concat_app, app_assoc.
    + apply Forall_app. now split.
    + rewrite map_app, length_app, seq_app, Hn1, Hn2. do 2 f_equal. lia.
    + rewrite length_app. lia.
    + intros Hne. destruct fs2 as [|f fs2].
      * rewrite app_nil_r in Hne. simpl in Hk2.
        specialize (Hb1 Hne). lia.
      * apply Hb2. discriminate.
    + intros _. destruct rest as [|chunk' rest'].
      * simpl in E2. injection E2 as <- <- <-. apply Hg1. lia.
      * apply Hg2. discriminate.
Qed.

Lemma to_csv_all_written (split_files_exists : bool)
  (calls files : list (nat * list row)) :
  to_csv_all split_files_exists calls = Some files -> files = calls.
Proof.
  unfold to_csv_all. destruct calls as [|f calls]; [congruence|].
  destruct split_files_exists; [congruence | discriminate].
Qed.

Lemma to_csv_all_present (calls : list (nat * list row)) :
  to_csv_all true calls = Some calls.
Proof. destruct calls; reflexivity. Qed.



(** X2. The fallback numbers its parts 1, 2, ... without a gap and writes
    at most [N] of them; every part but the last holds exactly
    [ceil((line_count - 1)/N)] rows, and when that quota is positive no
    part is empty. *)
Theorem fallback_parts_are_full (split_files_exists : bool)
  (line_count : nat) (chunks : list (list row)) (N : nat)
  (files : list (nat * list row)) :
  1 <= N ->
  split_csv_fallback split_files_exists line_count chunks N = Some files ->
  map fst files = seq 1 (length files) /\
  length files <= N /\
  (forall i, i + 1 < length files ->
     length (snd (nth i files (0, [])))
     = ceil_div (line_count - 1) N) /\
  (0 < ceil_div (line_count - 1) N ->
   Forall (fun f => snd f <> []) files).
Proof.
  intros HN. unfold split_csv_fallback.
  destruct (Nat.eqb_spec N 0) as [|_]; [lia|].
  set (c := ceil_div (line_count - 1) N).
  destruct (read_chunks chunks c N [] 0) as [[fs o] k] eqn:E.
  destruct (read_chunks_spec _ _ _ _ _ _ _ _ E)
    as (Hc & Hf & Hn & Hk & Hb & Hg).
  simpl in Hn, Hk. subst k.
  assert (Hle : length fs <= N - 1).
  { destruct fs as [|f fs]; [simpl; lia|]. apply Hb. discriminate. }
  assert (Hfull : forall i, i < length fs ->
                            length (snd (nth i fs (0, []))) = c).
  { intros i Hi. rewrite Forall_forall in Hf. apply Hf. now apply nth_In. }
  assert (Hnonempty : 0 < c -> Forall (fun f => snd f <> []) fs).
  { intros Hpos. eapply Forall_impl; [|exact Hf].
    intros f Hlen E0. simpl in Hlen. rewrite E0 in Hlen. simpl in Hlen. lia. }
  intros Hw. apply to_csv_all_written in Hw. subst files.
  destruct (negb (match o with [] => true | _ => false end)
            && (length fs <? N)) eqn:Htail.
  - rewrite map_app, length_app, seq_app, Hn. simpl.
    repeat split.
    + do 3 f_equal. lia.
    + lia.
    + intros i Hi. rewrite app_nth1 by lia. apply Hfull. lia.
    + intros Hpos. apply Forall_app. split; [now apply Hnonempty|].
      constructor; [|constructor]. simpl.
      destruct o; [discriminate|discriminate].
  - rewrite app_nil_r. repeat split; auto.
    + lia.
    + intros i Hi. apply Hfull. lia.
Qed.

(** *** The two paths write the same rows to the same parts *)

(** A list of parts cut at quota [c]: every part but the last holds [c]
    rows and the last holds between 1 and [c]. *)
Fixpoint chunked (c : nat) (parts : list (list row)) : Prop :=
  match parts with
  | [] => True
  | p :: rest =>
      match rest with
      | [] => 1 <= length p <= c
      | _ :: _ => length p = c /\ chunked c rest
      end
  end.

Lemma chunked_cons (c : nat) (p : list row) (rest : list (list row)) :
  0 < c -> length p = c -> chunked c rest -> chunked c (p :: rest).
Proof. intros Hc Hp Hr. destruct rest; simpl; [lia | now split]. Qed.

Lemma chunked_head (c : nat) (p : list row) (rest : list (list row)) :
  0 < c -> chunked c (p :: rest) -> 1 <= length p <= c.
Proof. intros Hc H. destruct rest; simpl in H; lia. Qed.

Lemma chunked_tail (c : nat) (p : list row) (rest : list (list row)) :
  chunked c (p :: rest) -> chunked c rest.
Proof. destruct rest; simpl; [auto | tauto]. Qed.

Lemma chunked_concat_nonempty (c : nat) (parts : list (list row)) :
  0 < c -> chunked c parts -> parts <> [] -> concat parts <> [].
Proof.
  intros Hc H Hne. destruct parts as [|p rest]; [congruence|].
  apply chunked_head in H; [|exact Hc]. simpl.
  destruct p; simpl in *; [lia | discriminate].
Qed.

Lemma app_same_length (a b x y : list row) :
  length a = length b -> a ++ x = b ++ y -> a = b /\ x = y.
Proof.
  revert b. induction a as [|r a IH]; intros [|r' b] Hl H; simpl in *;
    try discriminate; auto.
  injection H as -> H. destruct (IH b) as [-> ->]; auto.
Qed.

(** A list of rows is cut at quota [c] in one way only. *)
Lemma chunked_unique (c : nat) :
  0 < c ->
  forall F P : list (list row),
    chunked c F -> chunked c P -> concat F = concat P -> F = P.
Proof.
  intros Hc. induction F as [|f F IH]; intros [|p P] HF HP E.
  - reflexivity.
  - exfalso. symmetry in E. revert E.
    apply (chunked_concat_nonempty c); auto. discriminate.
  - exfalso. revert E. apply (chunked_concat_nonempty c); auto. discriminate.
  - pose proof (chunked_head _ _ _ Hc HF) as Hf.
    pose proof (chunked_head _ _ _ Hc HP) as Hp.
    pose proof (chunked_tail _ _ _ HF) as HF'.
    pose proof (chunked_tail _ _ _ HP) as HP'.
    simpl in E.
    destruct F as [|f' F], P as [|p' P].
    + simpl in E. rewrite !app_nil_r in E. now subst.
    + exfalso. simpl in HP. destruct HP as [Lp _].
      pose proof (chunked_head _ _ _ Hc HP') as Hp'.
      apply (f_equal (@length row)) in E. simpl in E.
      rewrite !length_app in E. simpl in E. lia.
    + exfalso. simpl in HF. destruct HF as [Lf _].
      pose proof (chunked_head _ _ _ Hc HF') as Hf'.
      apply (f_equal (@length row)) in E. simpl in E.
      rewrite !length_app in E. simpl in E. lia.
    + simpl in HF, HP. destruct HF as [Lf _], HP as [Lp _].
      destruct (app_same_length _ _ _ _ (eq_trans Lf (eq_sym Lp)) E)
        as [-> E'].
      f_equal. now apply IH.
Qed.

Lemma chunked_full (c : nat) (parts : list (list row)) :
  0 < c -> Forall (fun p => length p = c) parts -> chunked c parts.
Proof.
  intros Hc H. induction H as [|p rest Hp _ IH]; [exact I|].
  now apply chunked_cons.
Qed.

Lemma chunked_app_last (c : nat) (parts : list (list row)) (t : list row) :
  0 < c -> Forall (fun p => length p = c) parts ->
  1 <= length t <= c -> chunked c (parts ++ [t]).
Proof.
  intros Hc H Ht. induction H as [|p rest Hp _ IH]; [exact Ht|].
  simpl. now apply chunked_cons.
Qed.

Lemma length_concat_full (c : nat) (parts : list (list row)) :
  Forall (fun p => length p = c) parts ->
  length (concat parts) = length parts * c.
Proof.
  induction 1 as [|p rest Hp _ IH]; [reflexivity|].
  simpl. rewrite length_app, IH, Hp. reflexivity.
Qed.

(** Parts that start past the last row are empty. *)
Lemma primary_parts_past_end (c : nat) (df : list row) :
  forall n j,
    length df <= j * c ->
    filter (fun p => 0 <? length p)
      (map (fun i => firstn c (skipn (i * c) df)) (seq j n)) = [].
Proof.
  induction n as [|n IH]; intros j Hj; [reflexivity|].
  cbn [seq map filter].
  assert (H0 : (0 <? length (firstn c (skipn (j * c) df))) = false).
  { apply Nat.ltb_ge. rewrite length_firstn, length_skipn. lia. }
  rewrite H0. apply IH. simpl. lia.
Qed.

(** The non-empty parts of the primary path from part [i0] on. *)
Lemma primary_parts_chunked (c : nat) (df : list row) :
  0 < c ->
  forall n i0,
    length df - i0 * c <= n * c ->
    chunked c
      (filter (fun p => 0 <? length p)
         (map (fun i => firstn c (skipn (i * c) df)) (seq i0 n))).
Proof.
  intros Hc. induction n as [|n IH]; intros i0 Hlen; [exact I|].
  cbn [seq map filter].
  assert (Hpart : length (firstn c (skipn (i0 * c) df))
                  = Nat.min c (length df - i0 * c))
    by now rewrite length_firstn, length_skipn.
  assert (Hrest : length df - S i0 * c <= n * c) by (simpl in *; lia).
  specialize (IH (S i0) Hrest).
  destruct (Nat.ltb_spec 0 (length (firstn c (skipn (i0 * c) df))))
    as [Hpos|Hzero]; [|exact IH].
  destruct (Nat.le_gt_cases (length df - i0 * c) c) as [Hshort|Hlong].
  - rewrite primary_parts_past_end by (simpl; lia). simpl. lia.
  - apply chunked_cons; auto. lia.
Qed.

Lemma concat_filter_nonempty (parts : list (list row)) :
  concat (filter (fun p => 0 <? length p) parts) = concat parts.
Proof.
  induction parts as [|p rest IH]; [reflexivity|]. simpl.
  destruct p as [|r p]; simpl; [exact IH | now rewrite IH].
Qed.

Lemma split_parts_as_firstn (df : list row) (N : nat) :
  split_parts df N
  = map (fun i => firstn (ceil_div (length df) N)
                    (skipn (i * ceil_div (length df) N) df)) (seq 0 N).
Proof.
  unfold split_parts. apply map_ext. intros i.
  rewrite (SplitCsvProps.part_range), (SplitCsvProps.iloc_clip row).
  reflexivity.
Qed.

(** X3. When 'split_files' exists, the line count matches the rows read
    (no line was skipped) and there is at least one row, the fallback
    writes, whatever the chunking, exactly the non-empty parts of the
    primary path, in the same order: the two paths differ only in the
    empty files the primary path also writes. *)
Theorem fallback_matches_primary (line_count : nat)
  (chunks : list (list row)) (N : nat) :
  1 <= N ->
  line_count - 1 = length (concat chunks) ->
  concat chunks <> [] ->
  option_map (map snd) (split_csv_fallback true line_count chunks N)
  = option_map (filter (fun p => 0 <? length p))
      (split_csv (concat chunks) N).
Proof.
  intros HN Hcount Hrows.
  set (df := concat chunks) in *.
  set (c := ceil_div (length df) N).
  assert (Hcover : length df <= N * c)
    by (apply SplitCsvProps.ceil_div_cover; exact HN).
  assert (Hc : 0 < c).
  { destruct df; [congruence|]. simpl in Hcover.
    destruct c; [lia|lia]. }
  unfold split_csv, split_csv_fallback.
  destruct (Nat.eqb_spec N 0) as [|_]; [lia|].
  rewrite Hcount. fold c.
  destruct (read_chunks chunks c N [] 0) as [[fs o] k] eqn:E.
  destruct (read_chunks_spec _ _ _ _ _ _ _ _ E)
    as (Hcat & Hf & Hn & Hk & Hb & Hg).
  simpl in Hcat, Hk. fold df in Hcat. subst k.
  assert (Hle : length fs <= N - 1).
  { destruct fs as [|f fs]; [simpl; lia|]. apply Hb. discriminate. }
  assert (Hfull : Forall (fun p => length p = c) (map snd fs)).
  { apply Forall_map. exact Hf. }
  assert (Hchunks : chunks <> []).
  { intros ->. apply Hrows. reflexivity. }
  assert (Ho : length o <= c).
  { destruct (Hg Hchunks) as [Hlt|Hlast]; [lia|].
    apply (f_equal (@length row)) in Hcat.
    rewrite length_app, (length_concat_full c _ Hfull), length_map in Hcat.
    nia. }
  rewrite to_csv_all_present.
  cbn [option_map]. f_equal.
  apply (chunked_unique c Hc).
  - rewrite map_app. destruct o as [|r o].
    + simpl. rewrite app_nil_r. now apply chunked_full.
    + assert (Hlt : (length fs <? N) = true) by (apply Nat.ltb_lt; lia).
      rewrite Hlt. simpl. apply chunked_app_last; auto.
      simpl in *. lia.
  - rewrite split_parts_as_firstn. fold c.
    apply primary_parts_chunked; [exact Hc | lia].
  - rewrite concat_filter_nonempty, map_app, concat_app.
    transitivity df.
    + rewrite Hcat. f_equal. destruct o as [|r o]; [reflexivity|].
      assert (Hlt : (length fs <? N) = true) by (apply Nat.ltb_lt; lia).
      rewrite Hlt. simpl. now rewrite app_nil_r.
    + symmetry. unfold split_parts.
      rewrite (SplitCsvProps.concat_parts_prefix row).
      apply firstn_all2. fold c. lia.
Qed.

End Fallback.

(** Five rows arriving in chunks of three and two, for four parts: with
    the directory, and on a first run, without it. *)
Example fallback_5_rows_4_parts :
  split_csv_fallback true 6 [[0; 1; 2]; [3; 4]] 4
  = Some [(1, [0; 1]); (2, [2; 3]); (3, [4])] /\
  split_csv_fallback false 6 [[0; 1; 2]; [3; 4]] 4 = None /\
  split_csv_paths false None 6 [[0; 1; 2]; [3; 4]] 4 = AlsoFailed /\
  split_csv_paths false (Some [0; 1; 2; 3; 4]) 6 [[0; 1; 2]; [3; 4]] 4
  = SplitComplete [[0; 1]; [2; 3]; [4]; []].
Proof. repeat split. Qed.


Lemma fallback_5_rows_parts_full :
  1 <= 4 /\
  split_csv_fallback true 6 [[0; 1; 2]; [3; 4]] 4
  = Some [(1, [0; 1]); (2, [2; 3]); (3, [4])] /\
  map fst [(1, [0; 1]); (2, [2; 3]); (3, [4])] = seq 1 3 /\
  3 <= 4 /\
  (forall i, i + 1 < 3 ->
     length (snd (nth i [(1, [0; 1]); (2, [2; 3]); (3, [4])] (0, [])))
     = ceil_div (6 - 1) 4) /\
  (0 < ceil_div (6 - 1) 4 ->
   Forall (fun f : nat * list nat => snd f <> [])
          [(1, [0; 1]); (2, [2; 3]); (3, [4])]).
Proof.
  split; [lia|]. split; [reflexivity|].
  apply (fallback_parts_are_full nat true 6 [[0; 1; 2]; [3; 4]] 4
           [(1, [0; 1]); (2, [2; 3]); (3, [4])]); [lia | reflexivity].
Defined.

Lemma fallback_matches_primary_5_rows :
  1 <= 4 /\
  6 - 1 = length (concat [[0; 1; 2]; [3; 4]]) /\
  concat [[0; 1; 2]; [3; 4]] <> [] /\
  option_map (map snd) (split_csv_fallback true 6 [[0; 1; 2]; [3; 4]] 4)
  = option_map (filter (fun p => 0 <? length p))
      (split_csv (concat [[0; 1; 2]; [3; 4]]) 4).
Proof.
  split; [lia|]. split; [reflexivity|]. split; [discriminate|].
  apply (fallback_matches_primary nat 6 [[0; 1; 2]; [3; 4]] 4);
    [lia | reflexivity | discriminate].
Defined.

End SplitCsvFallbackProps.

(* ================================================================== *)
(** * Facts on sorted values and quantiles                              *)
(* ================================================================== *)

Module QuantileFacts.

Import DataCleaner.

Section Ascending.

Variable A : Type.
Variable leb : A -> A -> bool.
Hypothesis leb_total : forall x y, leb x y = true \/ leb y x = true.
Hypothesis leb_trans :
  forall x y z, leb x y = true -> leb y z = true -> leb x z = true.

(** Every element is below the ones after it. *)
Fixpoint ascending (l : list A) : Prop :=
  match l with
  | [] => True
  | x :: rest => (forall y, In y rest -> leb x y = true) /\ ascending rest
  end.

Lemma insert_sorted_ascending (x : A) (l : list A) :
  ascending l -> ascending (insert_sorted leb x l).
Proof.
  induction l as [|y r IH]; simpl; [tauto|]. intros [Hy Hr].
  destruct (leb x y) eqn:E; simpl.
  - split; [|now split]. intros z [<-|Hz]; [exact E|].
    apply leb_trans with y; [exact E | now apply Hy].
  - split; [|now apply IH]. intros z Hz.
    apply (ListFacts.insert_sorted_In A leb) in Hz. destruct Hz as [->|Hz].
    + destruct (leb_total x y) as [H|H]; [congruence | exact H].
    + now apply Hy.
Qed.

Lemma sort_values_ascending (l : list A) : ascending (sort_values leb l).
Proof.
  induction l as [|x l IH]; simpl; [exact I|].
  now apply insert_sorted_ascending.
Qed.

Lemma ascending_nth (l : list A) (d : A) :
  ascending l ->
  forall i j, i < j -> j < length l -> leb (nth i l d) (nth j l d) = true.
Proof.
  induction l as [|x r IH]; simpl; intros Hasc i j Hij Hj; [lia|].
  destruct Hasc as [Hx Hr]. destruct j as [|j]; [lia|].
  destruct i as [|i].
  - apply Hx. apply nth_In. lia.
  - apply IH; auto; lia.
Qed.

End Ascending.

Lemma Qle_bool_total (x y : Q) : Qle_bool x y = true \/ Qle_bool y x = true.
Proof.
  rewrite !Qle_bool_iff. destruct (Qlt_le_dec x y) as [H|H]; [left|right]; lra.
Qed.

Lemma Qle_bool_trans (x y z : Q) :
  Qle_bool x y = true -> Qle_bool y z = true -> Qle_bool x z = true.
Proof. rewrite !Qle_bool_iff. intros. lra. Qed.

(** The sorted values, by position. *)
Lemma sorted_nth_le (l : list Q) (d : Q) (i j : nat) :
  i <= j -> j < length (sort_values Qle_bool l) ->
  (nth i (sort_values Qle_bool l) d <= nth j (sort_values Qle_bool l) d)%Q.
Proof.
  intros Hij Hj. destruct (Nat.eq_dec i j) as [->|Hne]; [lra|].
  apply Qle_bool_iff.
  apply (ascending_nth Q Qle_bool); try lia.
  apply sort_values_ascending;
    [exact Qle_bool_total | exact Qle_bool_trans].
Qed.

Lemma Some_eq {A : Type} (a b : A) : Some a = Some b -> a = b.
Proof. congruence. Qed.

(** [quantile] grows with the level: for levels [q1 <= q2] in [0, 1] the
    interpolated values are in that order. *)
Lemma quantile_monotone (xs : list (option Q)) (q1 q2 v1 v2 : Q) :
  (0 <= q1)%Q -> (q1 <= q2)%Q -> (q2 <= 1)%Q ->
  quantile xs q1 = Some v1 -> quantile xs q2 = Some v2 ->
  (v1 <= v2)%Q.
Proof.
  intros H0 H12 H1. unfold quantile.
  destruct (sort_values Qle_bool (dropna xs)) as [|v0 rest] eqn:Es;
    [discriminate|].
  rewrite <- Es.
  set (vals := sort_values Qle_bool (dropna xs)).
  assert (Hn : 1 <= length vals) by (unfold vals; rewrite Es; simpl; lia).
  set (n1 := length vals - 1).
  set (hN := inject_Z (Z.of_nat n1)).
  assert (HhN : (0 <= hN)%Q).
  { unfold hN. replace 0%Q with (inject_Z 0) by reflexivity.
    rewrite <- Zle_Qle. lia. }
  set (h1 := (hN * q1)%Q). set (h2 := (hN * q2)%Q).
  assert (P1 : (0 <= hN * q1)%Q) by (apply Qmult_le_0_compat; lra).
  assert (P2 : (0 <= hN * (q2 - q1))%Q) by (apply Qmult_le_0_compat; lra).
  assert (P3 : (0 <= hN * (1 - q2))%Q) by (apply Qmult_le_0_compat; lra).
  assert (Hh1 : (0 <= h1)%Q) by (unfold h1; lra).
  assert (Hh12 : (h1 <= h2)%Q) by (unfold h1, h2; lra).
  assert (Hh2 : (h2 <= hN)%Q) by (unfold h2; lra).
  assert (Hf1 : (0 <= Qfloor h1)%Z).
  { change 0%Z with (Qfloor 0). now apply Qfloor_resp_le. }
  assert (Hf12 : (Qfloor h1 <= Qfloor h2)%Z) by now apply Qfloor_resp_le.
  assert (Hf2 : (Qfloor h2 <= Z.of_nat n1)%Z).
  { rewrite <- (Qfloor_Z (Z.of_nat n1)). now apply Qfloor_resp_le. }
  pose proof (Qfloor_le h1) as L1. pose proof (Qlt_floor h1) as U1.
  pose proof (Qfloor_le h2) as L2. pose proof (Qlt_floor h2) as U2.
  rewrite inject_Z_plus in U1, U2.
  change (inject_Z 1) with 1%Q in U1, U2.
  set (lo1 := Z.to_nat (Qfloor h1)) in *.
  set (lo2 := Z.to_nat (Qfloor h2)) in *.
  assert (Hlo12 : lo1 <= lo2) by (unfold lo1, lo2; lia).
  assert (Hlo2 : lo2 <= n1) by (unfold lo2; lia).
  set (a1 := nth lo1 vals v0). set (b1 := nth (Nat.min (lo1 + 1) n1) vals v0).
  set (a2 := nth lo2 vals v0). set (b2 := nth (Nat.min (lo2 + 1) n1) vals v0).
  assert (Hab1 : (a1 <= b1)%Q)
    by (apply sorted_nth_le; fold vals; unfold n1 in *; lia).
  assert (Hab2 : (a2 <= b2)%Q)
    by (apply sorted_nth_le; fold vals; unfold n1 in *; lia).
  intros E1 E2. apply Some_eq in E1, E2. subst v1 v2.
  fold n1 hN h1 h2 lo1 lo2 a1 b1 a2 b2.
  destruct (Z.eq_dec (Qfloor h1) (Qfloor h2)) as [Ef|Nf].
  - assert (Elo : lo1 = lo2) by (unfold lo1, lo2; congruence).
    unfold a2, b2. rewrite <- Elo. fold a1 b1. rewrite <- Ef.
    assert (P : (0 <= (b1 - a1) * (h2 - h1))%Q)
      by (apply Qmult_le_0_compat; lra).
    lra.
  - assert (Hlt : lo1 + 1 <= lo2) by (unfold lo1, lo2; lia).
    assert (Hb1a2 : (b1 <= a2)%Q)
      by (apply sorted_nth_le; fold vals; unfold n1 in *; lia).
    assert (P : (0 <= (b1 - a1) * (1 - (h1 - inject_Z (Qfloor h1))))%Q)
      by (apply Qmult_le_0_compat; lra).
    assert (P' : (0 <= (b2 - a2) * (h2 - inject_Z (Qfloor h2)))%Q)
      by (apply Qmult_le_0_compat; lra).
    lra.
Qed.

End QuantileFacts.

(* ================================================================== *)
(** * Further properties of the cleaning pipeline                       *)
(* ================================================================== *)

Module DataCleanerMoreProps.

Import DataCleaner.

(** *** Outlier capping in general *)

Lemma quartiles_ordered (xs : list (option Q)) (Q1 Q3 : Q) :
  quantile xs (1 # 4) = Some Q1 -> quantile xs (3 # 4) = Some Q3 ->
  (Q1 <= Q3)%Q.
Proof.
  apply QuantileFacts.quantile_monotone; unfold Qle; simpl; lia.
Qed.

(** X4. Capping clamps: the bounds computed from the column enclose its
    quartiles, and after the step every present cell lies within them, a
    value below the lower bound replaced by that bound, a value above the
    upper bound by that one, a value within the bounds and a missing cell
    left as they are. *)
Theorem cap_outliers_clamps (col : string) (xs : list (option Q))
  (Q1 Q3 : Q) :
  quantile xs (1 # 4) = Some Q1 ->
  quantile xs (3 # 4) = Some Q3 ->
  (Q1 - (3 # 2) * (Q3 - Q1) <= Q1)%Q /\
  (Q1 <= Q3)%Q /\
  (Q3 <= Q3 + (3 # 2) * (Q3 - Q1))%Q /\
  exists ys,
    data (fst (cap_outliers {| name := col; data := Numeric xs |}))
    = Numeric ys /\
    Forall2
      (fun x y =>
         match x with
         | None => y = None
         | Some v =>
             ((v < Q1 - (3 # 2) * (Q3 - Q1))%Q /\
              y = Some (Q1 - (3 # 2) * (Q3 - Q1))%Q) \/
             ((Q3 + (3 # 2) * (Q3 - Q1) < v)%Q /\
              y = Some (Q3 + (3 # 2) * (Q3 - Q1))%Q) \/
             ((Q1 - (3 # 2) * (Q3 - Q1) <= v)%Q /\
              (v <= Q3 + (3 # 2) * (Q3 - Q1))%Q /\ y = Some v)
         end) xs ys.
Proof.
  intros H1 H3. pose proof (quartiles_ordered xs Q1 Q3 H1 H3) as Hq.
  split; [lra|]. split; [exact Hq|]. split; [lra|].
  unfold cap_outliers. cbn [data name]. rewrite H1, H3.
  set (lo := (Q1 - (3 # 2) * (Q3 - Q1))%Q).
  set (hi := (Q3 + (3 # 2) * (Q3 - Q1))%Q).
  assert (Hlohi : (lo <= hi)%Q) by (unfold lo, hi; lra).
  destruct (0 <? length (filter (fun x => cell_lt x lo || cell_gt x hi) xs))
    eqn:Hout; cbn [fst data].
  - eexists. split; [reflexivity|]. rewrite map_map.
    clear Hout H1 H3. induction xs as [|x xs IH]; simpl; constructor; auto.
    rewrite DataCleanerProps.cap_cell by exact Hlohi.
    destruct x as [v|]; [|reflexivity].
    destruct (Qltb v lo) eqn:E1.
    + apply DataCleanerProps.Qltb_lt in E1. now left.
    + apply DataCleanerProps.Qltb_ge in E1. destruct (Qltb hi v) eqn:E2.
      * apply DataCleanerProps.Qltb_lt in E2. right. now left.
      * apply DataCleanerProps.Qltb_ge in E2. right. right. auto.
  - exists xs. split; [reflexivity|].
    apply Nat.ltb_ge, Nat.le_0_r in Hout.
    pose proof (proj1 (DataCleanerProps.filter_nil _ _) Hout) as Hin.
    clear Hout H1 H3. induction xs as [|x xs IH]; constructor.
    + destruct x as [v|]; [|reflexivity].
      specialize (Hin (Some v) (or_introl eq_refl)).
      apply orb_false_iff in Hin. simpl in Hin. destruct Hin as [E1 E2].
      apply DataCleanerProps.Qltb_ge in E1, E2. right. right. auto.
    + apply IH. intros y Hy. apply Hin. now right.
Qed.

Lemma cap_outliers_clamps_depth :
  quantile [Some 1; Some 2; Some 3; Some 4; Some 5;
            Some 6; Some 7; Some 8; Some 9; Some 100]%Q (1 # 4)
  = Some (13 # 4)%Q /\
  quantile [Some 1; Some 2; Some 3; Some 4; Some 5;
            Some 6; Some 7; Some 8; Some 9; Some 100]%Q (3 # 4)
  = Some (31 # 4)%Q /\
  ((13 # 4) - (3 # 2) * ((31 # 4) - (13 # 4)) <= 13 # 4)%Q /\
  (13 # 4 <= 31 # 4)%Q /\
  (31 # 4 <= (31 # 4) + (3 # 2) * ((31 # 4) - (13 # 4)))%Q /\
  exists ys,
    data (fst (cap_outliers
                 {| name := "depth";
                    data := Numeric
                      [Some 1; Some 2; Some 3; Some 4; Some 5;
                       Some 6; Some 7; Some 8; Some 9; Some 100]%Q |}))
    = Numeric ys /\
    Forall2
      (fun x y =>
         match x with
         | None => y = None
         | Some v =>
             ((v < (13 # 4) - (3 # 2) * ((31 # 4) - (13 # 4)))%Q /\
              y = Some ((13 # 4) - (3 # 2) * ((31 # 4) - (13 # 4)))%Q) \/
             (((31 # 4) + (3 # 2) * ((31 # 4) - (13 # 4)) < v)%Q /\
              y = Some ((31 # 4) + (3 # 2) * ((31 # 4) - (13 # 4)))%Q) \/
             (((13 # 4) - (3 # 2) * ((31 # 4) - (13 # 4)) <= v)%Q /\
              (v <= (31 # 4) + (3 # 2) * ((31 # 4) - (13 # 4)))%Q /\
              y = Some v)
         end)
      [Some 1; Some 2; Some 3; Some 4; Some 5;
       Some 6; Some 7; Some 8; Some 9; Some 100]%Q ys.
Proof.
  split; [reflexivity|]. split; [reflexivity|].
  apply (cap_outliers_clamps "depth"
           [Some 1; Some 2; Some 3; Some 4; Some 5;
            Some 6; Some 7; Some 8; Some 9; Some 100]%Q (13 # 4) (31 # 4));
    reflexivity.
Defined.

Lemma map_fixed {A : Type} (g : A -> A) (l : list A) (x : A) :
  map g l = l -> In x l -> g x = x.
Proof.
  induction l as [|a l IH]; simpl; [tauto|].
  intros [= Ha Hl] [<-|Hx]; auto.
Qed.

(** X5. The capping step reports a column exactly when it changes it: no
    message means the column is returned as it was, and a message means at
    least one of its cells was replaced. *)
Theorem cap_outliers_reports_iff_changed (c : column) :
  snd (cap_outliers c) = [] <-> fst (cap_outliers c) = c.
Proof.
  unfold cap_outliers.
  destruct (data c) as [xs|xs|xs|xs] eqn:Ec; try (split; reflexivity).
  destruct (quantile xs (1 # 4)) as [Q1|] eqn:H1; [|split; reflexivity].
  destruct (quantile xs (3 # 4)) as [Q3|] eqn:H3; [|split; reflexivity].
  pose proof (quartiles_ordered xs Q1 Q3 H1 H3) as Hq.
  set (lo := (Q1 - (3 # 2) * (Q3 - Q1))%Q).
  set (hi := (Q3 + (3 # 2) * (Q3 - Q1))%Q).
  assert (Hlohi : (lo <= hi)%Q) by (unfold lo, hi; lra).
  destruct (filter (fun x => cell_lt x lo || cell_gt x hi) xs)
    as [|x outliers] eqn:Hf; cbn [length Nat.ltb Nat.leb fst snd].
  - split; reflexivity.
  - split; [discriminate|]. intros Heq. exfalso.
    assert (Hx : In x xs /\ (cell_lt x lo || cell_gt x hi) = true).
    { apply (proj1 (filter_In (fun x => cell_lt x lo || cell_gt x hi) x xs)).
      rewrite Hf. now left. }
    destruct Hx as [Hin Hflag].
    apply (f_equal data) in Heq. cbn [data] in Heq. rewrite Ec in Heq.
    injection Heq as Heq.
    rewrite map_map in Heq.
    pose proof (map_fixed _ _ x Heq Hin) as Hfix. cbn beta in Hfix.
    rewrite DataCleanerProps.cap_cell in Hfix by exact Hlohi.
    destruct x as [v|]; [|discriminate].
    simpl in Hflag. destruct (Qltb v lo) eqn:E1.
    + apply DataCleanerProps.Qltb_lt in E1.
      injection Hfix as Hv. rewrite <- Hv in E1. lra.
    + destruct (Qltb hi v) eqn:E2; [|discriminate].
      apply DataCleanerProps.Qltb_lt in E2.
      injection Hfix as Hv. rewrite <- Hv in E2. lra.
Qed.

(** *** Mean imputation *)

Lemma dropna_fillna_length {A : Type} (v : A) (xs : list (option A)) :
  length (dropna (fillna (Some v) xs))
  = length (dropna xs) + length (filter isnull xs).
Proof.
  unfold fillna. induction xs as [|[a|] xs IH]; simpl; lia.
Qed.

Lemma Qsum_fillna (m : Q) (xs : list (option Q)) :
  (Qsum (dropna (fillna (Some m) xs))
   == Qsum (dropna xs) + inject_Z (Z.of_nat (length (filter isnull xs))) * m)%Q.
Proof.
  unfold fillna. induction xs as [|[a|] xs IH].
  - unfold Qsum. cbn [map dropna filter length fold_right].
    change (inject_Z (Z.of_nat 0)) with 0%Q. lra.
  - cbn [map dropna filter isnull]. unfold Qsum in *. cbn [fold_right]. lra.
  - cbn [map dropna filter isnull length]. unfold Qsum in *.
    cbn [fold_right]. rewrite Nat2Z.inj_succ. unfold Z.succ.
    rewrite inject_Z_plus. change (inject_Z 1) with 1%Q. lra.
Qed.

Lemma mean_of_filled (S n k : Q) :
  (0 < n)%Q -> (0 <= k)%Q -> ((S + k * (S / n)) / (n + k) == S / n)%Q.
Proof. intros Hn Hk. field. split; lra. Qed.

Lemma inject_nat_nonneg (n : nat) : (0 <= inject_Z (Z.of_nat n))%Q.
Proof.
  replace 0%Q with (inject_Z 0) by reflexivity. rewrite <- Zle_Qle. lia.
Qed.

Lemma inject_nat_pos (n : nat) : 0 < n -> (0 < inject_Z (Z.of_nat n))%Q.
Proof.
  intros H. replace 0%Q with (inject_Z 0) by reflexivity.
  rewrite <- Zlt_Qlt. lia.
Qed.

(** X6. Mean imputation does not move the mean: for a numeric column
    with a value, the mean of the column after the step equals the mean
    of the values it had before. *)
Theorem mean_imputation_keeps_mean (c : column) (xs : list (option Q))
  (m : Q) :
  data c = Numeric xs ->
  mean xs = Some m ->
  exists ys m',
    data (fst (impute_numeric c)) = Numeric ys /\
    mean ys = Some m' /\
    (m' == m)%Q.
Proof.
  intros Hc Hm.
  pose proof (DataCleanerProps.impute_numeric_spec c) as [_ Hspec].
  rewrite Hc, Hm in Hspec.
  assert (Hne : dropna xs <> []).
  { unfold mean in Hm. destruct (dropna xs); [discriminate|discriminate]. }
  rewrite (DataCleanerProps.mean_present xs Hne) in Hm.
  apply QuantileFacts.Some_eq in Hm.
  assert (Hne' : dropna (fillna (Some m) xs) <> []).
  { intros E. apply (f_equal (@length Q)) in E.
    rewrite dropna_fillna_length in E. destruct (dropna xs); simpl in *;
      [congruence | lia]. }
  exists (fillna (Some m) xs). eexists.
  split; [exact Hspec|].
  split; [apply (DataCleanerProps.mean_present _ Hne')|].
  rewrite Qsum_fillna, dropna_fillna_length, Nat2Z.inj_add, inject_Z_plus.
  rewrite <- Hm at 1.
  set (S := Qsum (dropna xs)).
  set (n := inject_Z (Z.of_nat (length (dropna xs)))).
  set (k := inject_Z (Z.of_nat (length (filter isnull xs)))).
  rewrite <- Hm. fold S n.
  apply mean_of_filled.
  - apply inject_nat_pos. destruct (dropna xs); simpl; [congruence | lia].
  - apply inject_nat_nonneg.
Qed.

Lemma mean_imputation_keeps_mean_depth :
  data {| name := "depth"; data := Numeric [Some 1; None; Some 3]%Q |}
  = Numeric [Some 1; None; Some 3]%Q /\
  mean [Some 1; None; Some 3]%Q = Some (4 # 2)%Q /\
  exists ys m',
    data (fst (impute_numeric
                 {| name := "depth";
                    data := Numeric [Some 1; None; Some 3]%Q |}))
    = Numeric ys /\
    mean ys = Some m' /\
    (m' == 4 # 2)%Q.
Proof.
  split; [reflexivity|]. split; [reflexivity|].
  apply (mean_imputation_keeps_mean _ [Some 1; None; Some 3]%Q);
    reflexivity.
Defined.

(** *** Running the imputation step again *)

Lemma isnull_any_fillna {A : Type} (v : A) (xs : list (option A)) :
  isnull_any (fillna (Some v) xs) = false.
Proof.
  unfold isnull_any, fillna. induction xs as [|[a|] xs IH]; simpl; auto.
Qed.

Lemma impute_numeric_again (c : column) :
  fst (impute_numeric (fst (impute_numeric c))) = fst (impute_numeric c).
Proof.
  unfold impute_numeric at 2 3.
  destruct (data c) as [xs|xs|xs|xs] eqn:Ec.
  2-4: cbn [fst]; unfold impute_numeric; rewrite Ec; reflexivity.
  destruct (isnull_any xs) eqn:Hnull; cbn [fst].
  - unfold impute_numeric. cbn [data name].
    destruct (mean xs) as [m|] eqn:Hm.
    + now rewrite isnull_any_fillna.
    + rewrite DataCleanerProps.fillna_None, Hnull, Hm.
      cbn [fst]. now rewrite DataCleanerProps.fillna_None.
  - unfold impute_numeric. rewrite Ec, Hnull. reflexivity.
Qed.

Lemma impute_numeric_text (c : column) (xs : list (option string)) :
  data c = Object xs -> fst (impute_numeric c) = c.
Proof. intros E. unfold impute_numeric. now rewrite E. Qed.

(** The categorical loop keeps the columns the numeric loop has settled. *)
Lemma impute_categorical_keeps_settled (df : DataFrame) :
  Forall (fun c => fst (impute_numeric c) = c) df ->
  Forall (fun c => fst (impute_numeric c) = c)
         (fst (fst (impute_categorical df))).
Proof.
  induction df as [|c rest IH]; intros H; simpl; [constructor|].
  inversion H as [|c0 rest0 Hc Hrest]; subst.
  specialize (IH Hrest).
  destruct (impute_categorical rest) as [[rest' log'] e]. simpl in IH.
  destruct (data c) as [xs|xs|xs|xs] eqn:Ec.
  2: destruct (isnull_any xs);
     [destruct (hd_error (mode xs)) as [v|]|].
  all: simpl; try (constructor; [exact Hc | exact IH]).
  - constructor; [reflexivity | exact IH].
  - exact H.
Qed.

(** A second run of the categorical loop fills nothing and stops where
    the first one stopped. *)
Lemma impute_categorical_again (df : DataFrame) :
  impute_categorical (fst (fst (impute_categorical df)))
  = (fst (fst (impute_categorical df)), [], snd (impute_categorical df)).
Proof.
  induction df as [|c rest IH]; simpl; [reflexivity|].
  destruct (impute_categorical rest) as [[rest' log'] e]. simpl in IH.
  destruct (data c) as [xs|xs|xs|xs] eqn:Ec.
  2: destruct (isnull_any xs) eqn:Hnull;
     [destruct (hd_error (mode xs)) as [v|] eqn:Hm|].
  all: simpl; rewrite ?Ec, ?Hnull, ?Hm, ?isnull_any_fillna, ?IH;
    try reflexivity.
Qed.

(** X7. Imputation is idempotent: run on the frame it has produced, the
    step leaves that frame as it is and ends the same way (completing, or
    stopped by the same exception). *)
Theorem impute_missing_values_idempotent (df : DataFrame) :
  fst (fst (impute_missing_values (fst (fst (impute_missing_values df)))))
  = fst (fst (impute_missing_values df)) /\
  snd (impute_missing_values (fst (fst (impute_missing_values df))))
  = snd (impute_missing_values df).
Proof.
  destruct (DataCleanerProps.impute_missing_values_parts df) as [Hdf He].
  set (df1 := map fst (map impute_numeric df)) in *.
  set (df2 := fst (fst (impute_categorical df1))) in *.
  destruct (DataCleanerProps.impute_missing_values_parts
              (fst (fst (impute_missing_values df)))) as [Hdf' He'].
  rewrite Hdf', He', Hdf, He.
  assert (Hsettled : Forall (fun c => fst (impute_numeric c) = c) df2).
  { apply impute_categorical_keeps_settled. unfold df1.
    rewrite map_map. apply Forall_map, Forall_forall. intros c _.
    apply impute_numeric_again. }
  assert (Hid : map fst (map impute_numeric df2) = df2).
  { rewrite map_map. rewrite <- (map_id df2) at 2.
    apply map_ext_in. rewrite Forall_forall in Hsettled. exact Hsettled. }
  rewrite Hid. unfold df2. rewrite impute_categorical_again.
  split; reflexivity.
Qed.

Lemma Forall2_map_graph {A B : Type} (f : A -> B) (l : list A) :
  Forall2 (fun a b => b = f a) l (map f l).
Proof. induction l; simpl; constructor; auto. Qed.

(** *** Columns and labels *)

Lemma Forall2_impl_In {A B : Type} (R R' : A -> B -> Prop)
  (l : list A) (l' : list B) :
  (forall a b, In a l -> R a b -> R' a b) ->
  Forall2 R l l' -> Forall2 R' l l'.
Proof.
  intros H F. induction F as [|a b l l' Hab _ IH]; constructor.
  - apply H; [now left | exact Hab].
  - apply IH. intros x y Hx. apply H. now right.
Qed.

Lemma label_determines_column (df : DataFrame) (c1 c2 : column) :
  NoDup (map name df) -> In c1 df -> In c2 df ->
  name c1 = name c2 -> c1 = c2.
Proof.
  induction df as [|c df IH]; simpl; [tauto|].
  intros Hnd H1 H2 E. inversion Hnd as [|x l Hnot Hnd']; subst.
  destruct H1 as [<-|H1], H2 as [<-|H2]; auto.
  - exfalso. apply Hnot. rewrite E. now apply in_map.
  - exfalso. apply Hnot. rewrite <- E. now apply in_map.
Qed.

Lemma select_numeric_In (df : DataFrame) (p : string * list (option Q)) :
  In p (select_numeric df) <->
  exists c, In c df /\ data c = Numeric (snd p) /\ name c = fst p.
Proof.
  unfold select_numeric. rewrite in_flat_map. split.
  - intros (c & Hc & Hp). exists c. split; [exact Hc|].
    destruct (data c); simpl in Hp; try contradiction.
    destruct Hp as [<-|[]]. simpl. auto.
  - intros (c & Hc & Hd & Hn). exists c. split; [exact Hc|].
    rewrite Hd. left. destruct p; simpl in *. now subst.
Qed.

Lemma Forall2_same {A : Type} (R : A -> A -> Prop) (l : list A) :
  (forall a, R a a) -> Forall2 R l l.
Proof. intros H. induction l; constructor; auto. Qed.

Lemma distinct_labels_occurrences : NoDup (map name occurrences).
Proof.
  repeat constructor; simpl; intuition discriminate.
Qed.

(** *** Mode imputation *)

Lemma count_occ_fillna (v w : string) (xs : list (option string)) :
  count_occ string_dec (dropna (fillna (Some v) xs)) w
  = count_occ string_dec (dropna xs) w
    + (if string_dec v w then length (filter isnull xs) else 0).
Proof.
  unfold fillna. induction xs as [|[a|] xs IH].
  - simpl. destruct (string_dec v w); reflexivity.
  - cbn [map dropna filter isnull count_occ].
    destruct (string_dec a w); rewrite IH; lia.
  - cbn [map dropna filter isnull count_occ length].
    destruct (string_dec v w); rewrite IH; lia.
Qed.

Lemma dropna_fillna_In (v w : string) (xs : list (option string)) :
  In w (dropna (fillna (Some v) xs)) -> w = v \/ In w (dropna xs).
Proof.
  unfold fillna. induction xs as [|[a|] xs IH]; simpl; [tauto| |].
  - intros [<-|H]; [right; now left|]. destruct (IH H); auto.
  - intros [<-|H]; [now left|]. destruct (IH H); auto.
Qed.

Lemma dropna_fillna_keeps (v w : string) (xs : list (option string)) :
  In w (dropna xs) -> In w (dropna (fillna (Some v) xs)).
Proof.
  unfold fillna. induction xs as [|[a|] xs IH]; simpl; [tauto| |].
  - intros [<-|H]; [now left | right; auto].
  - intros H. right. auto.
Qed.

(** X14. Mode imputation does not move the mode: after the missing cells
    of a text column are filled with [mode()[0]], that value is still
    [mode()[0]] of the column. *)
Theorem mode_imputation_keeps_mode (xs : list (option string)) (v : string) :
  hd_error (mode xs) = Some v ->
  hd_error (mode (fillna (Some v) xs)) = Some v.
Proof.
  intros Hv.
  assert (Hne : dropna xs <> []).
  { intros E. rewrite (DataCleanerProps.mode_empty xs E) in Hv.
    discriminate. }
  destruct (DataCleanerProps.mode_head xs Hne) as (v0 & Hv0 & Hfreq & Hleast).
  assert (v0 = v) by congruence. subst v0.
  destruct Hfreq as [Hin Hmax].
  set (ys := fillna (Some v) xs).
  assert (Hne' : dropna ys <> []).
  { intros E. apply (dropna_fillna_keeps v) in Hin. fold ys in Hin.
    rewrite E in Hin. exact Hin. }
  destruct (DataCleanerProps.mode_head ys Hne') as (u & Hu & [Huin Humax] & Huleast).
  rewrite Hu. f_equal.
  apply String.leb_antisym.
  - apply Huleast. split.
    + apply dropna_fillna_keeps. exact Hin.
    + intros w. unfold ys. rewrite !count_occ_fillna.
      destruct (string_dec v v) as [_|N]; [|congruence].
      specialize (Hmax w). destruct (string_dec v w); lia.
  - destruct (string_dec v u) as [->|Nvu];
      [destruct (String.leb_total u u); assumption|].
    apply Hleast. split.
    + destruct (dropna_fillna_In v u xs Huin) as [->|H]; [congruence|exact H].
    + intros w. specialize (Humax v). unfold ys in Humax.
      rewrite !count_occ_fillna in Humax.
      destruct (string_dec v v) as [_|N]; [|congruence].
      destruct (string_dec v u) as [E|_]; [congruence|].
      specialize (Hmax w). lia.
Qed.

Lemma mode_imputation_keeps_mode_status :
  hd_error (mode [Some "LC"; Some "EN"; None; Some "EN"; Some "LC"]%string)
  = Some "EN"%string /\
  hd_error (mode (fillna (Some "EN"%string)
                    [Some "LC"; Some "EN"; None; Some "EN"; Some "LC"]%string))
  = Some "EN"%string.
Proof.
  split; [reflexivity|].
  apply (mode_imputation_keeps_mode
           [Some "LC"; Some "EN"; None; Some "EN"; Some "LC"]%string "EN").
  reflexivity.
Defined.

(** *** The pipeline end to end *)

Lemma Forall2_compose {A B C : Type} (R1 : A -> B -> Prop)
  (R2 : B -> C -> Prop) (l1 : list A) (l2 : list B) (l3 : list C) :
  Forall2 R1 l1 l2 -> Forall2 R2 l2 l3 ->
  Forall2 (fun a c => exists b, R1 a b /\ R2 b c) l1 l3.
Proof.
  intros H. revert l3. induction H as [|a b l1 l2 Hab _ IH]; intros l3 H2;
    inversion H2; subst; constructor; eauto.
Qed.

(** Whatever the assignment loop does, a column it leaves is either the
    column it found or a numeric column without missing cells, and a column
    whose label is not assigned is the column it found. *)
Lemma knn_update_columns (cols : list string) (imputed_data : list (list Q)) :
  forall (i : nat) (df : DataFrame),
    Forall2
      (fun c c' =>
         name c' = name c /\
         (~ In (name c) cols -> c' = c) /\
         (c' = c \/ exists values, data c' = Numeric (map Some values)))
      df (fst (knn_update df i cols imputed_data)).
Proof.
  induction cols as [|col rest IH]; intros i df; simpl.
  - apply Forall2_same. intros c. auto.
  - destruct (nth_error imputed_data i) as [values|];
      [|apply Forall2_same; intros c; auto].
    destruct (assign df col values) as [e|df1] eqn:Ea;
      [apply Forall2_same; intros c; auto|].
    unfold assign in Ea.
    destruct (length values =? len df); [|discriminate].
    injection Ea as <-.
    specialize (IH (S i)
      (map (fun c => if String.eqb (name c) col
                     then {| name := name c;
                             data := Numeric (map Some values) |}
                     else c) df)).
    apply DataCleanerProps.Forall2_map_left in IH.
    eapply Forall2_impl; [|exact IH].
    intros c c' (Hname & Hout & Hcase). cbn beta in *.
    destruct (String.eqb_spec (name c) col) as [Ecol|Ncol]; cbn [name] in *.
    + split; [exact Hname|]. split.
      * intros Hnot. exfalso. apply Hnot. now left.
      * right. destruct Hcase as [->|[v Hv]];
          [exists values; reflexivity | eauto].
    + split; [exact Hname|]. split; [|exact Hcase].
      intros Hnot. apply Hout. intros Hin. apply Hnot. now right.
Qed.

Section Run.

Variable fit_transform : Z -> list (list (option Q)) -> exn + list (list Q).
Variable parse_datetime : string -> option Z.
Variable datetime_of_number : Q -> option Z.
Variable parse_numeric : string -> option Q.

Lemma knn_imputation_columns (df : DataFrame) :
  Forall2
    (fun c c' =>
       name c' = name c /\
       (NoDup (map name df) -> In c df ->
        (forall xs, data c <> Numeric xs) -> c' = c) /\
       (c' = c \/ exists values, data c' = Numeric (map Some values)))
    df (fst (knn_imputation fit_transform df)).
Proof.
  unfold knn_imputation.
  destruct (0 <? length (select_numeric df));
    [|apply Forall2_same; intros c; auto].
  set (numeric_data :=
         filter (fun p => negb (all_missing (snd p))) (select_numeric df)).
  destruct (0 <? length numeric_data);
    [|apply Forall2_same; intros c; auto].
  destruct (fit_transform _ (map snd numeric_data)) as [e|imputed_data];
    [apply Forall2_same; intros c; auto|].
  pose proof (knn_update_columns (map fst numeric_data) imputed_data 0 df)
    as H.
  destruct (knn_update df 0 (map fst numeric_data) imputed_data)
    as [df' [e|]]; cbn [fst] in *.
  all: eapply Forall2_impl; [|exact H].
  all: intros c c' (Hname & Hout & Hcase); cbn beta.
  all: split; [exact Hname|]; split; [|exact Hcase].
  all: intros Hnd Hc Htext; apply Hout; intros Hin.
  all: apply in_map_iff in Hin; destruct Hin as (p & Hp & Hin).
  all: unfold numeric_data in Hin; apply filter_In in Hin.
  all: destruct Hin as [Hin _]; apply select_numeric_In in Hin.
  all: destruct Hin as (c2 & Hc2 & Hd & Hn).
  all: assert (c2 = c)
         by (apply (label_determines_column df); auto; congruence).
  all: subst c2; exact (Htext _ Hd).
Qed.

Lemma cap_outliers_other (c : column) :
  (forall xs, data c <> Numeric xs) -> fst (cap_outliers c) = c.
Proof.
  intros H. unfold cap_outliers.
  destruct (data c) as [xs|xs|xs|xs] eqn:E; try reflexivity.
  exfalso. exact (H xs eq_refl).
Qed.

Lemma convert_plain_column (c : column) :
  contains "date" (lower (name c)) = false ->
  fst (convert_numeric parse_numeric
         (fst (convert_date parse_datetime datetime_of_number c)))
  = fst (convert_numeric parse_numeric c).
Proof. intros H. unfold convert_date. now rewrite H. Qed.



Lemma Forall2_In {A B : Type} (R : A -> B -> Prop)
  (l : list A) (l' : list B) :
  Forall2 R l l' ->
  Forall2 (fun a b => In a l /\ In b l' /\ R a b) l l'.
Proof.
  induction 1 as [|a b l l' Hab _ IH]; constructor.
  - simpl. auto.
  - eapply Forall2_impl; [|exact IH]. simpl. intuition.
Qed.

Lemma fillna_values {A : Type} (v s : A) (xs : list (option A)) :
  In (Some s) (fillna (Some v) xs) -> s = v \/ In (Some s) xs.
Proof.
  unfold fillna. induction xs as [|[a|] xs IH]; simpl; [tauto| |].
  - intros [E|H]; [right; now left|]. destruct (IH H); auto.
  - intros [E|H]; [left; congruence|]. destruct (IH H); auto.
Qed.

Lemma column_eta (c : column) (nm : string) (d : series) :
  name c = nm -> data c = d -> c = {| name := nm; data := d |}.
Proof. destruct c; simpl; intros -> ->; reflexivity. Qed.

(** X17. Text columns that hold no number end a completed run as text,
    with the mode filled in: on a frame with distinct labels, a text column
    with at least one value, none of which parses as numeric, and whose
    label does not contain "date", comes out with its missing cells holding
    [mode()[0]] and every other cell as loaded. *)
Theorem clean_data_fills_text_columns (df0 : DataFrame) :
  raised (clean_data fit_transform parse_datetime datetime_of_number
            parse_numeric df0) = None ->
  NoDup (map name df0) ->
  Forall2
    (fun c c' =>
       forall xs, data c = Object xs -> dropna xs <> [] ->
                  contains "date" (lower (name c)) = false ->
                  (forall s, In (Some s) xs -> parse_numeric s = None) ->
                  exists v,
                    hd_error (mode xs) = Some v /\
                    c' = {| name := name c;
                            data := Object (fillna (Some v) xs) |})
    df0
    (self_df (clean_data fit_transform parse_datetime datetime_of_number
                parse_numeric df0)).
Proof.
  unfold clean_data.
  pose proof (DataCleanerProps.impute_missing_values_parts df0) as [Hdf He].
  pose proof (DataCleanerProps.impute_missing_values_rows df0) as Hrows.
  destruct (impute_missing_values df0) as [[df1 log1] e] eqn:Eimp.
  cbn [fst snd] in Hdf, He, Hrows.
  destruct e as [e|]; [discriminate|]. intros _ Hnd.
  assert (Hnames : map name df1 = map name df0).
  { apply (f_equal (map fst)) in Hrows. unfold row_counts in Hrows.
    rewrite !map_map in Hrows. exact Hrows. }
  assert (S1 : Forall2
            (fun c c1 =>
               name c1 = name c /\
               forall xs v, data c = Object xs ->
                            hd_error (mode xs) = Some v ->
                            data c1 = Object (fillna (Some v) xs)) df0 df1).
  { destruct (impute_categorical (map fst (map impute_numeric df0)))
      as [[d l] e'] eqn:Ec. cbn [fst snd] in Hdf, He. subst d e'.
    apply DataCleanerProps.impute_categorical_done in Ec.
    rewrite map_map in Ec. apply DataCleanerProps.Forall2_map_left in Ec.
    eapply Forall2_impl; [|exact Ec].
    intros c c1 [Hname Hfilled]. cbn beta in *.
    pose proof (DataCleanerProps.impute_numeric_spec c) as [Hn Hspec].
    split; [congruence|]. intros xs v Hc Hv.
    rewrite Hc in Hspec. rewrite Hspec, Hc in Hfilled. now apply Hfilled. }
  pose proof (Forall2_In _ _ _ (knn_imputation_columns df1)) as S2.
  destruct (knn_imputation fit_transform df1) as [df2 log2]. cbn [fst] in S2.
  unfold handle_outliers, convert_data_types. cbn [self_df fst].
  rewrite !map_map.
  pose proof (Forall2_compose _ _ _ _ _ S1 S2) as S12.
  pose proof (Forall2_map_graph
                (fun c => fst (convert_numeric parse_numeric
                   (fst (convert_date parse_datetime datetime_of_number
                      (fst (cap_outliers c)))))) df2) as S3.
  pose proof (Forall2_compose _ _ _ _ _ S12 S3) as S.
  eapply Forall2_impl; [|exact S].
  intros c c' (c2 & (c1 & [Hn1 H1] & (Hin1 & _ & Hn2 & Hkeep & _)) & ->).
  cbn beta. intros xs Hc Hne Hplain Hnone.
  destruct (DataCleanerProps.mode_head xs Hne) as (v & Hv & [Hvin _] & _).
  exists v. split; [exact Hv|].
  specialize (H1 xs v Hc Hv).
  assert (c2 = c1).
  { apply Hkeep; [now rewrite Hnames | exact Hin1 |].
    intros ys E. congruence. }
  subst c2.
  rewrite cap_outliers_other by (intros ys E; congruence).
  rewrite convert_plain_column by congruence.
  unfold convert_numeric. rewrite H1.
  assert (Hno : existsb notnull
                  (to_numeric parse_numeric (fillna (Some v) xs)) = false).
  { destruct (existsb notnull _) eqn:E; [|reflexivity]. exfalso.
    apply (proj1 (DataCleanerProps.existsb_notnull_bind parse_numeric _)) in E.
    destruct E as (s & q & Hs & Hq).
    apply fillna_values in Hs. destruct Hs as [->|Hs].
    - rewrite (Hnone v) in Hq; [discriminate|].
      now apply DataCleanerProps.dropna_In.
    - rewrite (Hnone s Hs) in Hq. discriminate. }
  rewrite Hno. cbn [fst]. now apply column_eta.
Qed.

End Run.

Lemma clean_data_fills_text_occurrences :
  raised (clean_data fit_transform_mean no_datetime datetime_of_floor
            parse_digits occurrences) = None /\
  NoDup (map name occurrences) /\
  Forall2
    (fun c c' =>
       forall xs, data c = Object xs -> dropna xs <> [] ->
                  contains "date" (lower (name c)) = false ->
                  (forall s, In (Some s) xs -> parse_digits s = None) ->
                  exists v,
                    hd_error (mode xs) = Some v /\
                    c' = {| name := name c;
                            data := Object (fillna (Some v) xs) |})
    occurrences
    (self_df (clean_data fit_transform_mean no_datetime datetime_of_floor
                parse_digits occurrences)).
Proof.
  split; [reflexivity|]. split; [exact distinct_labels_occurrences|].
  apply (clean_data_fills_text_columns fit_transform_mean no_datetime
           datetime_of_floor parse_digits occurrences).
  - reflexivity.
  - exact distinct_labels_occurrences.
Defined.

End DataCleanerMoreProps.

(* ================================================================== *)
(** * Properties of the quality audit                                   *)
(* ================================================================== *)

Module DataQualityProps.

Import DataCleaner DataQualityAnalyzer.

(** *** Mixed types and numeric coercion *)




Section Parser.

Variable parse_numeric : string -> option Q.


End Parser.


(** *** Outliers: the auditor against the cleaner *)






(** On [depth] = 1..9, 100 the auditor counts the one record the cleaner
    caps. *)
Example auditor_depth :
  outliers_of
    {| name := "depth";
       data := Numeric [Some 1; Some 2; Some 3; Some 4; Some 5;
                        Some 6; Some 7; Some 8; Some 9; Some 100]%Q |}
  = [OutliersFound "depth" 1 (Some 1%Q) (Some 100%Q)].
Proof. reflexivity. Qed.

(** *** Coordinate ranges *)

Lemma out_of_range_numeric_zero (xs : list (option Q)) (lower upper : Q) :
  length (filter (fun x => cell_lt x lower || cell_gt x upper) xs) = 0 <->
  forall v, In (Some v) xs -> (lower <= v)%Q /\ (v <= upper)%Q.
Proof.
  rewrite DataCleanerProps.filter_nil. split.
  - intros H v Hv. specialize (H _ Hv). simpl in H.
    apply orb_false_iff in H. destruct H as [H1 H2].
    apply DataCleanerProps.Qltb_ge in H1, H2. now split.
  - intros H [v|] Hx; [|reflexivity]. destruct (H v Hx) as [H1 H2].
    simpl. apply orb_false_iff. split; now apply DataCleanerProps.Qltb_ge.
Qed.

Lemma out_of_range_numeric_present (xs : list (option Q)) (lower upper : Q) :
  length (filter (fun x => cell_lt x lower || cell_gt x upper) xs)
  <= length (dropna xs).
Proof.
  induction xs as [|[v|] xs IH]; simpl; auto.
  destruct (Qltb v lower || Qltb upper v); simpl; lia.
Qed.

(** X12. On a frame whose latitude and longitude columns are numeric the
    coordinate check completes and prints both counts.  A missing
    coordinate is never counted, and a count is zero exactly when every
    present value lies in the closed range, -90 to 90 for latitude and
    -180 to 180 for longitude, the end points included. *)
Theorem coordinate_check_on_numeric_columns (df : DataFrame)
  (c_lat c_lon : column) (lat lon : list (option Q)) :
  find_column df "decimalLatitude" = Some c_lat ->
  data c_lat = Numeric lat ->
  find_column df "decimalLongitude" = Some c_lon ->
  data c_lon = Numeric lon ->
  exists invalid_lat invalid_lon,
    analyze_incorrect_values df
    = ([InvalidLatitude invalid_lat; InvalidLongitude invalid_lon], None) /\
    invalid_lat <= length (dropna lat) /\
    invalid_lon <= length (dropna lon) /\
    (invalid_lat = 0 <->
     forall v, In (Some v) lat -> (- (90 # 1) <= v)%Q /\ (v <= 90 # 1)%Q) /\
    (invalid_lon = 0 <->
     forall v, In (Some v) lon ->
               (- (180 # 1) <= v)%Q /\ (v <= 180 # 1)%Q).
Proof.
  intros Hlat Dlat Hlon Dlon. unfold analyze_incorrect_values.
  rewrite Hlat, Hlon, Dlat, Dlon. cbn [out_of_range app].
  eexists. eexists. split; [reflexivity|].
  split; [apply out_of_range_numeric_present|].
  split; [apply out_of_range_numeric_present|].
  split; apply out_of_range_numeric_zero.
Qed.

(** What lets a coordinate column be compared with a number. *)
Definition comparable (s : series) : Prop :=
  match s with
  | Object xs => existsb notnull xs = false
  | Datetime _ => False
  | _ => True
  end.

Lemma out_of_range_completes (s : series) (lower upper : Q) :
  (exists n, out_of_range s lower upper = inr n) <-> comparable s.
Proof.
  destruct s as [xs|xs|xs|xs]; simpl.
  - split; [auto | intros _; eauto].
  - destruct (existsb notnull xs).
    + split; [intros [n H]; discriminate | discriminate].
    + split; [auto | intros _; eauto].
  - split; [auto | intros _; eauto].
  - split; [intros [n H]; discriminate | tauto].
Qed.

(** X13. The coordinate check has no handler of its own: it completes
    exactly when neither coordinate column, where present, is a text
    column holding a value or a datetime column.  A frame without either
    column prints nothing and completes. *)
Theorem coordinate_check_completes_iff (df : DataFrame) :
  (snd (analyze_incorrect_values df) = None <->
   (forall c, find_column df "decimalLatitude" = Some c ->
              comparable (data c)) /\
   (forall c, find_column df "decimalLongitude" = Some c ->
              comparable (data c))) /\
  (find_column df "decimalLatitude" = None ->
   find_column df "decimalLongitude" = None ->
   analyze_incorrect_values df = ([], None)).
Proof.
  unfold analyze_incorrect_values.
  destruct (find_column df "decimalLatitude") as [c1|];
    destruct (find_column df "decimalLongitude") as [c2|].
  all: try pose proof (out_of_range_completes (data c1) (- (90 # 1)) (90 # 1))
         as H1.
  all: try pose proof (out_of_range_completes (data c2) (- (180 # 1)) (180 # 1))
         as H2.
  all: try destruct (out_of_range (data c1) _ _) as [e1|n1].
  all: try destruct (out_of_range (data c2) _ _) as [e2|n2].
  all: cbn [snd]; split; try discriminate; try reflexivity.
  all: split.
  all: try discriminate.
  all: try (intros _; split; intros c E; try discriminate;
            injection E as <-;
            try (apply H1; eauto); try (apply H2; eauto)).
  all: try reflexivity.
  all: intros [A B]; exfalso.
  all: try (specialize (A _ eq_refl); apply H1 in A; destruct A; discriminate).
  all: try (specialize (B _ eq_refl); apply H2 in B; destruct B; discriminate).
Qed.

Lemma coordinate_check_sample :
  find_column coordinates "decimalLatitude"
  = Some {| name := "decimalLatitude";
            data := Numeric [Some (91 # 1); None; Some (90 # 1)]%Q |} /\
  find_column coordinates "decimalLongitude"
  = Some {| name := "decimalLongitude";
            data := Numeric [Some (- (180 # 1)); None; None]%Q |} /\
  exists invalid_lat invalid_lon,
    analyze_incorrect_values coordinates
    = ([InvalidLatitude invalid_lat; InvalidLongitude invalid_lon], None) /\
    invalid_lat <= length (dropna [Some (91 # 1); None; Some (90 # 1)]%Q) /\
    invalid_lon <= length (dropna [Some (- (180 # 1)); None; None]%Q) /\
    (invalid_lat = 0 <->
     forall v, In (Some v) [Some (91 # 1); None; Some (90 # 1)]%Q ->
               (- (90 # 1) <= v)%Q /\ (v <= 90 # 1)%Q) /\
    (invalid_lon = 0 <->
     forall v, In (Some v) [Some (- (180 # 1)); None; None]%Q ->
               (- (180 # 1) <= v)%Q /\ (v <= 180 # 1)%Q).
Proof.
  split; [reflexivity|]. split; [reflexivity|].
  apply (coordinate_check_on_numeric_columns coordinates
           {| name := "decimalLatitude";
              data := Numeric [Some (91 # 1); None; Some (90 # 1)]%Q |}
           {| name := "decimalLongitude";
              data := Numeric [Some (- (180 # 1)); None; None]%Q |}
           [Some (91 # 1); None; Some (90 # 1)]%Q
           [Some (- (180 # 1)); None; None]%Q); reflexivity.
Defined.

(** The check on that frame: latitude 91 is counted, 90 and the missing
    cells are not; a text latitude stops the check. *)
Example coordinate_check_runs :
  analyze_incorrect_values coordinates
  = ([InvalidLatitude 1; InvalidLongitude 0], None) /\
  analyze_incorrect_values
    [{| name := "decimalLatitude";
        data := Object [Some "45N"%string; None] |};
     {| name := "decimalLongitude";
        data := Numeric [Some (200 # 1); None]%Q |}]
  = ([], Some TypeError).
Proof. split; reflexivity. Qed.

(** *** Date formats *)

Lemma unique_In (x : string) (l : list string) :
  In x (unique l) <-> In x l.
Proof.
  induction l as [|a l IH]; simpl; [tauto|].
  rewrite filter_In, IH, negb_true_iff, String.eqb_neq.
  destruct (string_dec a x) as [->|N]; [tauto|].
  split; [tauto|]. intros [E|H]; [congruence|]. right. split; auto.
Qed.

Lemma unique_NoDup (l : list string) : NoDup (unique l).
Proof.
  induction l as [|a l IH]; simpl; constructor.
  - rewrite filter_In, negb_true_iff, String.eqb_neq. tauto.
  - now apply NoDup_filter.
Qed.

Lemma firstn_incl {A : Type} (n : nat) (l : list A) (x : A) :
  In x (firstn n l) -> In x l.
Proof.
  revert l. induction n as [|n IH]; intros [|a l]; simpl; try tauto.
  intros [<-|H]; auto.
Qed.

Lemma firstn_NoDup {A : Type} (n : nat) (l : list A) :
  NoDup l -> NoDup (firstn n l).
Proof.
  revert l. induction n as [|n IH]; intros [|a l] H; simpl;
    try constructor.
  - inversion H; subst. intros Hin. apply firstn_incl in Hin. tauto.
  - inversion H; subst. now apply IH.
Qed.

(** X15. For a text column whose label contains "date" the auditor shows
    at most five formats, each once and each a value of the column; a
    value of the column is left out only when five are already shown. *)
Theorem date_formats_shown (c : column) (xs : list (option string)) :
  contains "date" (lower (name c)) = true ->
  data c = Object xs ->
  exists unique_formats,
    date_formats_of c = [DateFormats (name c) unique_formats] /\
    length unique_formats <= 5 /\
    NoDup unique_formats /\
    (forall f, In f unique_formats -> In (Some f) xs) /\
    (forall s, In (Some s) xs ->
               In s unique_formats \/ length unique_formats = 5).
Proof.
  intros Hd Hc. unfold date_formats_of. rewrite Hd, Hc.
  eexists. split; [reflexivity|].
  split; [apply firstn_le_length|].
  split; [apply firstn_NoDup, unique_NoDup|].
  split.
  - intros f Hf. apply firstn_incl in Hf.
    apply (proj1 (unique_In _ _)) in Hf.
    exact (proj1 (DataCleanerProps.dropna_In f xs) Hf).
  - intros s Hs.
    destruct (Nat.le_gt_cases (length (unique (dropna xs))) 5) as [Hle|Hgt].
    + left. rewrite firstn_all2 by exact Hle.
      apply unique_In. exact (proj2 (DataCleanerProps.dropna_In s xs) Hs).
    + right. rewrite length_firstn. lia.
Qed.

Lemma date_formats_event_date :
  contains "date" (lower "eventDate") = true /\
  data {| name := "eventDate";
          data := Object [Some "2020-01-02"; None; Some "02/01/2020";
                          Some "2020-01-02"]%string |}
  = Object [Some "2020-01-02"; None; Some "02/01/2020";
            Some "2020-01-02"]%string /\
  exists unique_formats,
    date_formats_of
      {| name := "eventDate";
         data := Object [Some "2020-01-02"; None; Some "02/01/2020";
                         Some "2020-01-02"]%string |}
    = [DateFormats "eventDate" unique_formats] /\
    length unique_formats <= 5 /\
    NoDup unique_formats /\
    (forall f, In f unique_formats ->
               In (Some f) [Some "2020-01-02"; None; Some "02/01/2020";
                            Some "2020-01-02"]%string) /\
    (forall s, In (Some s) [Some "2020-01-02"; None; Some "02/01/2020";
                            Some "2020-01-02"]%string ->
               In s unique_formats \/ length unique_formats = 5).
Proof.
  split; [reflexivity|]. split; [reflexivity|].
  apply (date_formats_shown
           {| name := "eventDate";
              data := Object [Some "2020-01-02"; None; Some "02/01/2020";
                              Some "2020-01-02"]%string |}); reflexivity.
Defined.

Example date_formats_first_seen :
  date_formats_of
    {| name := "eventDate";
       data := Object [Some "2020-01-02"; None; Some "02/01/2020";
                       Some "2020-01-02"]%string |}
  = [DateFormats "eventDate" ["2020-01-02"; "02/01/2020"]%string].
Proof. reflexivity. Qed.

End DataQualityProps.

(* ================================================================== *)
(** * Properties of the cleaning pipeline on columns with infinities    *)
(* ================================================================== *)

Module DataCleanerFloatProps.

Import DataCleaner.
Import DataCleanerFloat.

(** *** The mean of float64 values *)

(** The sum by the infinities it meets. *)
Lemma sum_spec (vals : list float) :
  match sum vals with
  | None => In PosInf vals /\ In NegInf vals
  | Some PosInf => In PosInf vals /\ ~ In NegInf vals
  | Some NegInf => In NegInf vals /\ ~ In PosInf vals
  | Some (Finite s) => exists qs, vals = map Finite qs /\ s = Qsum qs
  end.
Proof.
  induction vals as [|v vals IH].
  - simpl. now exists [].
  - change (sum (v :: vals)) with (add (Some v) (sum vals)).
    destruct (sum vals) as [[s| |]|]; destruct v as [q| |]; simpl.
    + destruct IH as (qs & -> & ->). now exists (q :: qs).
    + destruct IH as (qs & -> & _). split; [now left|].
      intros [H|H]; [discriminate|].
      apply in_map_iff in H. destruct H as (x & Hx & _). discriminate.
    + destruct IH as (qs & -> & _). split; [now left|].
      intros [H|H]; [discriminate|].
      apply in_map_iff in H. destruct H as (x & Hx & _). discriminate.
    + destruct IH as [Hp Hn]. split; [now right|].
      intros [H|H]; [discriminate | auto].
    + destruct IH as [Hp Hn]. split; [now left|].
      intros [H|H]; [discriminate | auto].
    + destruct IH as [Hp Hn]. split; [now right | now left].
    + destruct IH as [Hn Hp]. split; [now right|].
      intros [H|H]; [discriminate | auto].
    + destruct IH as [Hn Hp]. split; [now left | now right].
    + destruct IH as [Hn Hp]. split; [now left|].
      intros [H|H]; [discriminate | auto].
    + destruct IH as [Hp Hn]. split; now right.
    + destruct IH as [Hp Hn]. split; now right.
    + destruct IH as [Hp Hn]. split; now right.
Qed.

(** The mean is NaN exactly on a column without any value and on a column
    that holds both infinities. *)
Lemma mean_nan (xs : list (option float)) :
  mean xs = None <->
  dropna xs = [] \/ (In (Some PosInf) xs /\ In (Some NegInf) xs).
Proof.
  unfold mean. rewrite <- !DataCleanerProps.dropna_In.
  destruct (dropna xs) as [|v vals] eqn:E.
  - split; auto.
  - pose proof (sum_spec (v :: vals)) as H.
    destruct (sum (v :: vals)) as [[s| |]|]; cbn [div_count].
    + split; [discriminate|]. intros [H0|[Hp Hn]]; [discriminate|].
      destruct H as (qs & Hqs & _). rewrite Hqs in Hp.
      apply in_map_iff in Hp. destruct Hp as (x & Hx & _). discriminate.
    + split; [discriminate|]. intros [H0|[Hp Hn]]; [discriminate|].
      now destruct H.
    + split; [discriminate|]. intros [H0|[Hp Hn]]; [discriminate|].
      now destruct H.
    + split; auto.
Qed.


(** *** Mean and mode imputation *)


Lemma impute_numeric_fills (c : column) :
  name (fst (impute_numeric c)) = name c /\
  match data c with
  | Numeric xs => data (fst (impute_numeric c)) = Numeric (fillna (mean xs) xs)
  | _ => fst (impute_numeric c) = c
  end.
Proof.
  unfold impute_numeric. destruct (data c) as [xs|xs|xs|xs] eqn:E; auto.
  destruct (isnull_any xs) eqn:Hnull; simpl; auto.
  now rewrite DataCleanerProps.fillna_no_missing.
Qed.


(** What the categorical loop leaves of one column when it completes. *)
Definition mode_filled (c c' : column) : Prop :=
  name c' = name c /\
  match data c with
  | Object xs =>
      forall v, hd_error (mode xs) = Some v ->
                data c' = Object (fillna (Some v) xs)
  | _ => c' = c
  end.

Lemma categorical_loop_done (df : DataFrame) :
  forall df' log,
    impute_categorical df = (df', log, None) -> Forall2 mode_filled df df'.
Proof.
  induction df as [|c rest IH]; simpl; intros df' log H.
  - injection H as <- _. constructor.
  - destruct (impute_categorical rest) as [[rest' log'] e] eqn:Er.
    destruct (data c) as [xs|xs|xs|xs] eqn:Ec.
    2: destruct (isnull_any xs) eqn:Hnull;
       [destruct (hd_error (mode xs)) as [v|] eqn:Hm; [|discriminate]|].
    all: injection H as <- _ ->; constructor; try (now eapply IH);
      unfold mode_filled; rewrite Ec; cbn [name data]; split; auto.
    + intros w Hw. congruence.
    + intros w _. now rewrite DataCleanerProps.fillna_no_missing.
Qed.



Lemma imputation_parts (df : DataFrame) :
  impute_missing_values df
  = (fst (fst (impute_categorical (map fst (map impute_numeric df)))),
     flat_map snd (map impute_numeric df)
     ++ snd (fst (impute_categorical (map fst (map impute_numeric df)))),
     snd (impute_categorical (map fst (map impute_numeric df)))).
Proof.
  unfold impute_missing_values.
  destruct (impute_categorical (map fst (map impute_numeric df)))
    as [[df' log] e]. reflexivity.
Qed.




(** What the step leaves of each column when it completes. *)
Lemma imputation_done (df : DataFrame) :
  snd (impute_missing_values df) = None ->
  Forall2
    (fun c c' =>
       name c' = name c /\
       match data c with
       | Numeric xs => data c' = Numeric (fillna (mean xs) xs)
       | Object xs =>
           forall v, hd_error (mode xs) = Some v ->
                     data c' = Object (fillna (Some v) xs)
       | _ => c' = c
       end)
    df (fst (fst (impute_missing_values df))).
Proof.
  rewrite imputation_parts. cbn [fst snd]. intros Hnone.
  destruct (impute_categorical (map fst (map impute_numeric df)))
    as [[df' log] e] eqn:Er.
  simpl in Hnone. subst e. cbn [fst].
  apply categorical_loop_done in Er.
  rewrite map_map in Er. apply DataCleanerProps.Forall2_map_left in Er.
  eapply Forall2_impl; [|exact Er].
  intros c c' [Hname Hfilled]. cbn beta in *.
  pose proof (impute_numeric_fills c) as [Hn Hspec].
  split; [congruence|].
  destruct (data c) as [xs|xs|xs|xs] eqn:Ec.
  - rewrite Hspec in Hfilled. now subst c'.
  - rewrite Hspec, Ec in Hfilled. exact Hfilled.
  - rewrite Hspec, Ec in Hfilled. exact Hfilled.
  - rewrite Hspec, Ec in Hfilled. exact Hfilled.
Qed.



(** The step on [soundings]: depth gets the mean 2 of 1 and 3, reach the
    mean of an infinity and 2, which is that infinity, status its mode, and
    the column without any value is reported with a NaN mean. *)
Example impute_soundings :
  impute_missing_values soundings
  = ([{| name := "depth";
         data := Numeric [Some (Finite 1); Some (Finite ((1 + (3 + 0)) / 2));
                          Some (Finite 3)]%Q |};
      {| name := "reach";
         data := Numeric [Some PosInf; Some PosInf; Some (Finite 2)]%Q |};
      {| name := "status";
         data := Object [Some "LC"; Some "LC"; Some "LC"]%string |};
      {| name := "blank"; data := Numeric [None; None; None] |}],
     [ImputedMean "depth" (Some (Finite ((1 + (3 + 0)) / 2)%Q));
      ImputedMean "reach" (Some PosInf);
      ImputedMean "blank" None;
      ImputedMode "status" "LC"], None).
Proof. reflexivity. Qed.



(** *** Columns without any value *)







(** *** Nearest-neighbour imputation *)

Lemma assign_keeps_len (df df' : DataFrame) (col : string) (values : list Q) :
  assign df col values = inr df' -> len df' = len df.
Proof.
  unfold assign.
  destruct (Nat.eqb_spec (length values) (len df)) as [E|]; [|discriminate].
  intros H. injection H as <-. destruct df as [|c r]; [reflexivity|]. simpl.
  destruct (String.eqb (name c) col); simpl; [|reflexivity].
  rewrite length_map. exact E.
Qed.

Lemma label_gives_column (df : DataFrame) (c1 c2 : column) :
  NoDup (map name df) -> In c1 df -> In c2 df ->
  name c1 = name c2 -> c1 = c2.
Proof.
  induction df as [|c df IH]; simpl; [tauto|].
  intros Hnd H1 H2 E. inversion Hnd as [|x l Hnot Hnd']; subst.
  destruct H1 as [<-|H1], H2 as [<-|H2]; auto.
  - exfalso. apply Hnot. rewrite E. now apply in_map.
  - exfalso. apply Hnot. rewrite <- E. now apply in_map.
Qed.

Lemma numeric_data_In (df : DataFrame) (p : string * list (option Q)) :
  In p (numeric_data df) <->
  exists c xs, In c df /\ data c = Numeric xs /\ name c = fst p /\
               snd p = map replace_inf xs /\
               all_missing (map replace_inf xs) = false.
Proof.
  unfold numeric_data, select_numeric.
  rewrite filter_In, in_map_iff, negb_true_iff. split.
  - intros [(q & <- & Hq) Hall]. apply in_flat_map in Hq.
    destruct Hq as (c & Hc & Hq). exists c.
    destruct (data c) as [xs|xs|xs|xs] eqn:Ec; simpl in Hq; try contradiction.
    destruct Hq as [<-|[]]. exists xs. simpl in *. auto.
  - intros (c & xs & Hc & Ec & Hn & Hs & Hall). split.
    + exists (name c, xs). split.
      * destruct p; simpl in *. now subst.
      * apply in_flat_map. exists c. split; [exact Hc|]. rewrite Ec. now left.
    + now rewrite Hs.
Qed.

Lemma numeric_data_labels (df : DataFrame) :
  NoDup (map name df) -> NoDup (map fst (numeric_data df)).
Proof.
  induction df as [|c df IH]; simpl; intros Hnd; [constructor|].
  inversion Hnd as [|x l Hnot Hnd']; subst. specialize (IH Hnd').
  assert (Hsub : forall nm, In nm (map fst (numeric_data df)) ->
                            In nm (map name df)).
  { intros nm Hin. apply in_map_iff in Hin. destruct Hin as (p & <- & Hp).
    apply numeric_data_In in Hp. destruct Hp as (c0 & xs & Hc0 & _ & <- & _).
    now apply in_map. }
  unfold numeric_data, select_numeric in *. cbn [flat_map].
  destruct (data c) as [xs|xs|xs|xs]; cbn [app]; try exact IH.
  cbn [map filter fst snd].
  destruct (negb (all_missing (map replace_inf xs))); [|exact IH].
  cbn [map fst]. constructor; [|exact IH].
  intros Hin. apply Hnot. now apply Hsub.
Qed.

(** What the assignment loop leaves when it completes. *)
Lemma knn_update_done (cols : list string) (imputed_data : list (list Q)) :
  NoDup cols ->
  forall (i : nat) (df df' : DataFrame),
    knn_update df i cols imputed_data = (df', None) ->
    Forall2
      (fun c c' =>
         name c' = name c /\
         ((~ In (name c) cols /\ c' = c) \/
          (exists j values,
             nth_error cols j = Some (name c) /\
             nth_error imputed_data (i + j) = Some values /\
             length values = len df /\
             data c' = Numeric (map (fun v => Some (Finite v)) values))))
      df df'.
Proof.
  induction cols as [|col rest IH]; intros Hnd i df df' H; simpl in H.
  - injection H as <-. apply DataCleanerMoreProps.Forall2_same. intros c.
    split; [reflexivity|]. left. split; [|reflexivity].
    intros [].
  - inversion Hnd as [|x l Hnot Hnd']; subst.
    destruct (nth_error imputed_data i) as [values|] eqn:Hv; [|discriminate].
    destruct (assign df col values) as [e|df1] eqn:Ea; [discriminate|].
    pose proof (assign_keeps_len _ _ _ _ Ea) as Hlen.
    specialize (IH Hnd' (S i) df1 df' H).
    unfold assign in Ea.
    destruct (Nat.eqb_spec (length values) (len df)) as [Elen|];
      [|discriminate].
    injection Ea as <-.
    apply DataCleanerProps.Forall2_map_left in IH.
    eapply Forall2_impl; [|exact IH].
    intros c c' [Hname Hcase]. cbn beta in *.
    destruct (String.eqb_spec (name c) col) as [Ecol|Ncol]; cbn [name] in *.
    + split; [exact Hname|]. right. exists 0, values.
      rewrite Nat.add_0_r. repeat split; auto; [now rewrite Ecol|].
      destruct Hcase as [[_ ->]|(j & v & Hj & _)]; [reflexivity|].
      exfalso. apply Hnot. rewrite <- Ecol. eapply nth_error_In; eauto.
    + split; [exact Hname|].
      destruct Hcase as [[Hn ->]|(j & v & Hj & Hv' & Hl & Hd)].
      * left. split; [|reflexivity]. intros [E|Hin]; [congruence|tauto].
      * right. exists (S j), v. repeat split; auto.
        -- rewrite <- Hv'. f_equal. lia.
        -- congruence.
Qed.

Section Imputer.

Variable fit_transform : Z -> list (list (option Q)) -> exn + list (list Q).

(** X8. When the nearest-neighbour step reports success on a frame with
    distinct labels, it has replaced exactly the numeric columns that hold
    at least one finite number, the j-th of them by the j-th column of the
    imputer's array: every cell of such a column, an infinity included, now
    holds a finite number.  A numeric column that holds only infinities and
    missing cells is not given to the imputer and is left as it was, and so
    are the numeric columns without any value and all text, boolean and
    datetime columns. *)
Theorem knn_success_replaces_finite_columns (df : DataFrame) (n : nat) :
  rectangular df ->
  NoDup (map name df) ->
  snd (knn_imputation fit_transform df) = [KnnCompleted n] ->
  exists imputed_data,
    fit_transform (Z.min 5 (Z.of_nat (len df) - 1))
      (map snd (numeric_data df))
    = inr imputed_data /\
    Forall2
      (fun c c' =>
         name c' = name c /\
         match data c with
         | Numeric xs =>
             if all_missing (map replace_inf xs) then c' = c
             else exists j values,
                 nth_error (numeric_data df) j
                 = Some (name c, map replace_inf xs) /\
                 nth_error imputed_data j = Some values /\
                 length values = length xs /\
                 data c' = Numeric (map (fun v => Some (Finite v)) values)
         | _ => c' = c
         end)
      df (fst (knn_imputation fit_transform df)).
Proof.
  intros Hr Hnd. unfold knn_imputation.
  destruct (0 <? length (select_numeric df)); [|discriminate].
  destruct (0 <? length (numeric_data df)); [|discriminate].
  destruct (fit_transform _ (map snd (numeric_data df)))
    as [e|imputed_data]; [discriminate|].
  destruct (knn_update df 0 (map fst (numeric_data df)) imputed_data)
    as [df' [e|]] eqn:Eu; [discriminate|].
  intros _. exists imputed_data. split; [reflexivity|]. cbn [fst].
  pose proof (knn_update_done _ _ (numeric_data_labels df Hnd) 0 df df' Eu)
    as Hspec.
  eapply DataCleanerMoreProps.Forall2_impl_In; [|exact Hspec].
  intros c c' Hc [Hname Hcase]. cbn beta in *. split; [exact Hname|].
  destruct Hcase as [[Hnot ->]|(j & values & Hj & Hv & Hl & Hd)].
  - destruct (data c) as [xs|xs|xs|xs] eqn:Ec; try reflexivity.
    destruct (all_missing (map replace_inf xs)) eqn:Hall; [reflexivity|].
    exfalso. apply Hnot. apply in_map_iff.
    exists (name c, map replace_inf xs).
    split; [reflexivity|]. apply numeric_data_In. exists c, xs. auto.
  - rewrite nth_error_map in Hj.
    destruct (nth_error (numeric_data df) j) as [p|] eqn:Hp; [|discriminate].
    cbn [option_map] in Hj. apply QuantileFacts.Some_eq in Hj.
    pose proof (nth_error_In _ _ Hp) as Hin.
    apply numeric_data_In in Hin.
    destruct Hin as (c2 & xs & Hc2 & Ec2 & Hn2 & Hs & Hall).
    assert (c2 = c) by (apply (label_gives_column df); auto; congruence).
    subst c2. rewrite Ec2, Hall. exists j, values.
    repeat split; auto.
    + rewrite Hp. f_equal. destruct p; simpl in *. now subst.
    + rewrite Hl. unfold rectangular in Hr. rewrite Forall_forall in Hr.
      specialize (Hr c Hc). rewrite Ec2 in Hr. simpl in Hr. congruence.
Qed.

End Imputer.

Lemma rectangular_soundings : rectangular soundings.
Proof. repeat constructor. Qed.

Lemma distinct_labels_soundings : NoDup (map name soundings).
Proof.
  repeat constructor; simpl; intuition discriminate.
Qed.

Lemma knn_success_soundings :
  rectangular soundings /\
  NoDup (map name soundings) /\
  snd (knn_imputation fit_transform_mean soundings) = [KnnCompleted 2] /\
  exists imputed_data,
    fit_transform_mean (Z.min 5 (Z.of_nat (len soundings) - 1))
      (map snd (numeric_data soundings))
    = inr imputed_data /\
    Forall2
      (fun c c' =>
         name c' = name c /\
         match data c with
         | Numeric xs =>
             if all_missing (map replace_inf xs) then c' = c
             else exists j values,
                 nth_error (numeric_data soundings) j
                 = Some (name c, map replace_inf xs) /\
                 nth_error imputed_data j = Some values /\
                 length values = length xs /\
                 data c' = Numeric (map (fun v => Some (Finite v)) values)
         | _ => c' = c
         end)
      soundings (fst (knn_imputation fit_transform_mean soundings)).
Proof.
  split; [exact rectangular_soundings|].
  split; [exact distinct_labels_soundings|].
  split; [reflexivity|].
  apply (knn_success_replaces_finite_columns fit_transform_mean soundings 2).
  - exact rectangular_soundings.
  - exact distinct_labels_soundings.
  - reflexivity.
Defined.

(** The imputer replaces the infinity of [reach], and leaves a column of
    infinities alone. *)
Example knn_imputation_infinities :
  map (fun c => (name c, data c))
      (fst (knn_imputation fit_transform_mean
              [{| name := "reach";
                  data := Numeric [Some PosInf; Some (Finite 2);
                                   Some (Finite 4)]%Q |};
               {| name := "range";
                  data := Numeric [Some PosInf; Some NegInf; None] |}]))
  = [("reach"%string,
      Numeric [Some (Finite ((2 + (4 + 0)) / 2)); Some (Finite 2);
               Some (Finite 4)]%Q);
     ("range"%string, Numeric [Some PosInf; Some NegInf; None])].
Proof. reflexivity. Qed.

(** *** The pipeline end to end *)

(** Whatever the assignment loop does, a column it leaves is either the
    column it found or a numeric column of finite numbers, and a column
    whose label is not assigned is the column it found. *)
Lemma knn_update_leaves (cols : list string) (imputed_data : list (list Q)) :
  forall (i : nat) (df : DataFrame),
    Forall2
      (fun c c' =>
         name c' = name c /\
         (~ In (name c) cols -> c' = c) /\
         (c' = c \/
          exists values,
            data c' = Numeric (map (fun v => Some (Finite v)) values)))
      df (fst (knn_update df i cols imputed_data)).
Proof.
  induction cols as [|col rest IH]; intros i df; simpl.
  - apply DataCleanerMoreProps.Forall2_same. intros c. auto.
  - destruct (nth_error imputed_data i) as [values|];
      [|apply DataCleanerMoreProps.Forall2_same; intros c; auto].
    destruct (assign df col values) as [e|df1] eqn:Ea;
      [apply DataCleanerMoreProps.Forall2_same; intros c; auto|].
    unfold assign in Ea.
    destruct (length values =? len df); [|discriminate].
    injection Ea as <-.
    specialize (IH (S i)
      (map (fun c => if String.eqb (name c) col
                     then {| name := name c;
                             data := Numeric
                               (map (fun v => Some (Finite v)) values) |}
                     else c) df)).
    apply DataCleanerProps.Forall2_map_left in IH.
    eapply Forall2_impl; [|exact IH].
    intros c c' (Hname & Hout & Hcase). cbn beta in *.
    destruct (String.eqb_spec (name c) col) as [Ecol|Ncol]; cbn [name] in *.
    + split; [exact Hname|]. split.
      * intros Hnot. exfalso. apply Hnot. now left.
      * right. destruct Hcase as [->|[v Hv]];
          [exists values; reflexivity | eauto].
    + split; [exact Hname|]. split; [|exact Hcase].
      intros Hnot. apply Hout. intros Hin. apply Hnot. now right.
Qed.

Lemma lt_bound_present (a b : option float) :
  lt a b = true -> exists v, b = Some v.
Proof.
  destruct a as [[x| |]|], b as [[y| |]|]; simpl; intros H;
    try discriminate; eauto.
Qed.

Lemma lt_nan_left (b : option float) : lt None b = false.
Proof. reflexivity. Qed.

Lemma lt_nan_right (a : option float) : lt a None = false.
Proof. destruct a as [[x| |]|]; reflexivity. Qed.

(** The two assignments of lines 102-103 neither fill a missing cell nor
    empty a present one, whatever the bounds. *)
Lemma cap_cell_keeps_missing (lower_bound upper_bound x : option float) :
  isnull (if lt upper_bound (if lt x lower_bound then lower_bound else x)
          then upper_bound
          else if lt x lower_bound then lower_bound else x)
  = isnull x.
Proof.
  destruct x as [v|].
  - destruct (lt (Some v) lower_bound) eqn:E1.
    + destruct (lt_bound_present _ _ E1) as (l & ->).
      destruct (lt upper_bound (Some l)) eqn:E2; [|reflexivity].
      destruct upper_bound as [u|]; [reflexivity | discriminate].
    + destruct (lt upper_bound (Some v)) eqn:E2; [|reflexivity].
      destruct upper_bound as [u|]; [reflexivity | discriminate].
  - rewrite lt_nan_left, lt_nan_right. reflexivity.
Qed.

Section Run.

Variable fit_transform : Z -> list (list (option Q)) -> exn + list (list Q).
Variable quantile : list (option float) -> Q -> option float.
Variable to_datetime : series -> exn + series.
Variable parse_numeric : string -> option float.

Lemma knn_imputation_leaves (df : DataFrame) :
  Forall2
    (fun c c' =>
       name c' = name c /\
       (NoDup (map name df) -> In c df ->
        (forall xs, data c = Numeric xs ->
                    all_missing (map replace_inf xs) = true) ->
        c' = c) /\
       (c' = c \/
        exists values,
          data c' = Numeric (map (fun v => Some (Finite v)) values)))
    df (fst (knn_imputation fit_transform df)).
Proof.
  unfold knn_imputation.
  destruct (0 <? length (select_numeric df));
    [|apply DataCleanerMoreProps.Forall2_same; intros c; auto].
  destruct (0 <? length (numeric_data df));
    [|apply DataCleanerMoreProps.Forall2_same; intros c; auto].
  destruct (fit_transform _ (map snd (numeric_data df)))
    as [e|imputed_data];
    [apply DataCleanerMoreProps.Forall2_same; intros c; auto|].
  pose proof (knn_update_leaves (map fst (numeric_data df)) imputed_data 0 df)
    as H.
  destruct (knn_update df 0 (map fst (numeric_data df)) imputed_data)
    as [df' [e|]]; cbn [fst] in *.
  all: eapply Forall2_impl; [|exact H].
  all: intros c c' (Hname & Hout & Hcase); cbn beta.
  all: split; [exact Hname|]; split; [|exact Hcase].
  all: intros Hnd Hc Hskip; apply Hout; intros Hin.
  all: apply in_map_iff in Hin; destruct Hin as (p & Hp & Hin).
  all: apply numeric_data_In in Hin.
  all: destruct Hin as (c2 & xs & Hc2 & Ec2 & Hn2 & _ & Hall).
  all: assert (c2 = c)
         by (apply (label_gives_column df); auto; congruence).
  all: subst c2; rewrite (Hskip xs Ec2) in Hall; discriminate.
Qed.

(** Capping keeps the missing cells of a column where they are. *)
Lemma cap_outliers_keeps_missing (c : column) (ys : list (option float)) :
  data c = Numeric ys ->
  name (fst (cap_outliers quantile c)) = name c /\
  exists zs, data (fst (cap_outliers quantile c)) = Numeric zs /\
             map isnull zs = map isnull ys.
Proof.
  intros Hc. unfold cap_outliers. rewrite Hc.
  match goal with |- context [if ?b then _ else _] => destruct b end;
    cbn [fst name data]; [|eauto].
  split; [reflexivity|]. eexists. split; [reflexivity|].
  rewrite !map_map. apply map_ext. intros x. apply cap_cell_keeps_missing.
Qed.

Lemma cap_outliers_label (c : column) :
  name (fst (cap_outliers quantile c)) = name c.
Proof.
  unfold cap_outliers. destruct (data c) as [xs|xs|xs|xs]; try reflexivity.
  match goal with |- context [if ?b then _ else _] => destruct b end;
    reflexivity.
Qed.

Lemma cap_outliers_keeps_other (c : column) :
  (forall xs, data c <> Numeric xs) -> fst (cap_outliers quantile c) = c.
Proof.
  intros H. unfold cap_outliers.
  destruct (data c) as [xs|xs|xs|xs] eqn:E; try reflexivity.
  exfalso. exact (H xs eq_refl).
Qed.

Lemma convert_undated_column (c : column) :
  contains "date" (lower (name c)) = false ->
  fst (convert_numeric parse_numeric (fst (convert_date to_datetime c)))
  = fst (convert_numeric parse_numeric c).
Proof. intros H. unfold convert_date. now rewrite H. Qed.

Lemma convert_date_label (c : column) :
  name (fst (convert_date to_datetime c)) = name c.
Proof.
  unfold convert_date. destruct (contains "date" (lower (name c))); auto.
  destruct (to_datetime (data c)); reflexivity.
Qed.

Lemma convert_numeric_label (c : column) :
  name (fst (convert_numeric parse_numeric c)) = name c.
Proof.
  unfold convert_numeric. destruct (data c); auto.
  match goal with |- context [if ?b then _ else _] => destruct b end;
    reflexivity.
Qed.

Lemma isnull_pattern_count {A B : Type} (xs : list (option A))
  (ys : list (option B)) :
  map isnull xs = map isnull ys ->
  length (filter isnull xs) = length (filter isnull ys).
Proof.
  revert ys. induction xs as [|x xs IH]; intros [|y ys] H;
    try discriminate; [reflexivity|].
  simpl in H. injection H as Hxy H. simpl. rewrite Hxy.
  destruct (isnull y); simpl; auto.
Qed.

Lemma no_missing_finite_values (values : list Q) :
  length (filter isnull (map (fun v => Some (Finite v)) values)) = 0.
Proof. induction values; simpl; auto. Qed.

(** Each column through the four steps of a completed run: the label is
    kept, and a numeric column whose label does not contain "date" ends
    numeric, either with the missing cells the imputation step left in it,
    or replaced by the imputer and without any. *)
Lemma clean_data_numeric_column (df0 : DataFrame) :
  raised (clean_data fit_transform quantile to_datetime parse_numeric df0)
  = None ->
  Forall2
    (fun c c' =>
       name c' = name c /\
       forall xs, data c = Numeric xs ->
                  contains "date" (lower (name c)) = false ->
                  exists zs,
                    data c' = Numeric zs /\
                    (length (filter isnull zs) = 0 \/
                     map isnull zs = map isnull (fillna (mean xs) xs)) /\
                    (NoDup (map name df0) -> In c df0 ->
                     all_missing (map replace_inf (fillna (mean xs) xs))
                     = true ->
                     map isnull zs = map isnull (fillna (mean xs) xs)))
    df0
    (self_df (clean_data fit_transform quantile to_datetime parse_numeric
                df0)).
Proof.
  unfold clean_data.
  pose proof (imputation_done df0) as S1.
  rewrite imputation_parts in *. cbn [fst snd] in S1.
  destruct (impute_categorical (map fst (map impute_numeric df0)))
    as [[df1 log1] e] eqn:Ec. cbn [fst snd] in *.
  destruct e as [e|]; [discriminate|]. intros _.
  specialize (S1 eq_refl).
  assert (Hnames : map name df1 = map name df0).
  { clear -S1. induction S1 as [|c c1 l l1 [Hn _] _ IH]; simpl; congruence. }
  apply DataCleanerMoreProps.Forall2_In in S1.
  pose proof (DataCleanerMoreProps.Forall2_In _ _ _
                (knn_imputation_leaves df1)) as S2.
  destruct (knn_imputation fit_transform df1) as [df2 log2]. cbn [fst] in S2.
  unfold handle_outliers, convert_data_types. cbn [self_df fst].
  rewrite !map_map.
  pose proof (DataCleanerMoreProps.Forall2_compose _ _ _ _ _ S1 S2) as S12.
  pose proof (DataCleanerMoreProps.Forall2_map_graph
                (fun c => fst (convert_numeric parse_numeric
                   (fst (convert_date to_datetime
                      (fst (cap_outliers quantile c)))))) df2) as S3.
  pose proof (DataCleanerMoreProps.Forall2_compose _ _ _ _ _ S12 S3) as S.
  eapply Forall2_impl; [|exact S].
  intros c c'
    (c2 & (c1 & (Hin0 & _ & Hn1 & H1) & (Hin1 & _ & Hn2 & Hkeep & H2)) & ->).
  cbn beta.
  split.
  - rewrite convert_numeric_label, convert_date_label, cap_outliers_label.
    congruence.
  - intros xs Hc Hplain. rewrite Hc in H1.
    assert (Hcap : forall ys, data c2 = Numeric ys ->
              exists zs,
                data (fst (convert_numeric parse_numeric
                             (fst (convert_date to_datetime
                                     (fst (cap_outliers quantile c2))))))
                = Numeric zs /\ map isnull zs = map isnull ys).
    { intros ys Hys.
      destruct (cap_outliers_keeps_missing c2 ys Hys) as (Hn3 & zs & Hzs & Hp).
      rewrite convert_undated_column by congruence.
      exists zs. split; [|exact Hp].
      unfold convert_numeric. now rewrite Hzs. }
    destruct H2 as [->|[values Hv]].
    + destruct (Hcap _ H1) as (zs & Hzs & Hp).
      exists zs. split; [exact Hzs|]. split; [now right|]. auto.
    + destruct (Hcap _ Hv) as (zs & Hzs & Hp).
      exists zs. split; [exact Hzs|]. split.
      * left. rewrite (isnull_pattern_count _ _ Hp).
        apply no_missing_finite_values.
      * intros Hnd Hin Hall.
        assert (c2 = c1).
        { apply Hkeep; [now rewrite Hnames | exact Hin1 |].
          intros ys Hys. congruence. }
        subst c2. destruct (Hcap _ H1) as (zs' & Hzs' & Hp').
        congruence.
Qed.

Lemma clean_data_written (df0 : DataFrame) :
  raised (clean_data fit_transform quantile to_datetime parse_numeric df0)
  = None ->
  cleaned_dataset (clean_data fit_transform quantile to_datetime
                     parse_numeric df0)
  = Some (self_df (clean_data fit_transform quantile to_datetime
                     parse_numeric df0)).
Proof.
  unfold clean_data.
  destruct (impute_missing_values df0) as [[df1 log1] e].
  destruct e as [e|]; [discriminate|]. intros _.
  destruct (knn_imputation fit_transform df1) as [df2 log2].
  destruct (handle_outliers quantile df2) as [df3 log3].
  destruct (convert_data_types _ _ df3) as [df4 log4].
  reflexivity.
Qed.




(** X19. Missing cells can reach the written file.  On a frame with
    distinct labels, a numeric column that holds both infinities and no
    finite number, and whose label does not contain "date", ends a
    completed run with its missing cells where they were: its mean is NaN,
    so line 26 fills nothing; line 50 leaves nothing of it for the imputer;
    and capping never fills a cell. *)
Theorem clean_data_keeps_missing_cells_of_infinite_column (df0 : DataFrame) :
  raised (clean_data fit_transform quantile to_datetime parse_numeric df0)
  = None ->
  NoDup (map name df0) ->
  exists cleaned,
    cleaned_dataset (clean_data fit_transform quantile to_datetime
                       parse_numeric df0)
    = Some cleaned /\
    Forall2
      (fun c c' =>
         forall xs, data c = Numeric xs ->
                    In (Some PosInf) xs -> In (Some NegInf) xs ->
                    all_missing (map replace_inf xs) = true ->
                    contains "date" (lower (name c)) = false ->
                    exists zs, data c' = Numeric zs /\
                               map isnull zs = map isnull xs /\
                               isnull_sum (data c') = isnull_sum (data c))
      df0 cleaned.
Proof.
  intros Hrun Hnd. eexists. split; [apply clean_data_written, Hrun|].
  pose proof (DataCleanerMoreProps.Forall2_In _ _ _
                (clean_data_numeric_column df0 Hrun)) as H.
  eapply Forall2_impl; [|exact H].
  intros c c' (Hin & _ & Hname & Hfill). cbn beta.
  intros xs Hc Hp Hn Hall Hplain.
  destruct (Hfill xs Hc Hplain) as (zs & Hzs & _ & Hkeep).
  assert (Hm : mean xs = None) by (apply mean_nan; auto).
  rewrite Hm, DataCleanerProps.fillna_None in Hkeep.
  specialize (Hkeep Hnd Hin Hall).
  exists zs. split; [exact Hzs|]. split; [exact Hkeep|].
  rewrite Hzs, Hc. cbn [isnull_sum]. now apply isnull_pattern_count.
Qed.


End Run.

(** The run on [soundings]: the imputer replaces depth and reach, the
    infinity of reach included, and the column without any value stays
    as it is. *)
Example clean_data_soundings :
  option_map (map (fun c => (name c, data c)))
    (cleaned_dataset (clean_data fit_transform_mean quantile_finite
                        to_datetime_unused parse_digits_float soundings))
  = Some [("depth"%string,
           Numeric [Some (Finite 1); Some (Finite ((1 + (3 + 0)) / 2));
                    Some (Finite 3)]%Q);
          ("reach"%string,
           Numeric [Some (Finite ((2 + 0) / 1)); Some (Finite ((2 + 0) / 1));
                    Some (Finite 2)]%Q);
          ("status"%string, Object [Some "LC"; Some "LC"; Some "LC"]%string);
          ("blank"%string, Numeric [None; None; None])].
Proof. reflexivity. Qed.


Lemma distinct_labels_both_infinities : NoDup (map name both_infinities).
Proof. repeat constructor. simpl. tauto. Qed.

Lemma clean_data_keeps_missing_range :
  raised (clean_data fit_transform_mean quantile_finite to_datetime_unused
            parse_digits_float both_infinities) = None /\
  NoDup (map name both_infinities) /\
  exists cleaned,
    cleaned_dataset (clean_data fit_transform_mean quantile_finite
                       to_datetime_unused parse_digits_float both_infinities)
    = Some cleaned /\
    Forall2
      (fun c c' =>
         forall xs, data c = Numeric xs ->
                    In (Some PosInf) xs -> In (Some NegInf) xs ->
                    all_missing (map replace_inf xs) = true ->
                    contains "date" (lower (name c)) = false ->
                    exists zs, data c' = Numeric zs /\
                               map isnull zs = map isnull xs /\
                               isnull_sum (data c') = isnull_sum (data c))
      both_infinities cleaned.
Proof.
  split; [reflexivity|]. split; [exact distinct_labels_both_infinities|].
  apply (clean_data_keeps_missing_cells_of_infinite_column fit_transform_mean
           quantile_finite to_datetime_unused parse_digits_float
           both_infinities).
  - reflexivity.
  - exact distinct_labels_both_infinities.
Defined.

(** The run on [both_infinities], evaluated: the missing cell is written. *)
Example clean_data_both_infinities :
  cleaned_dataset (clean_data fit_transform_mean quantile_finite
                     to_datetime_unused parse_digits_float both_infinities)
  = Some both_infinities /\
  console (clean_data fit_transform_mean quantile_finite
             to_datetime_unused parse_digits_float both_infinities)
  = [ImputedMean "range" None; KnnNoSuitable; Saved].
Proof. split; reflexivity. Qed.


End DataCleanerFloatProps.

(* ================================================================== *)
(** * The two embeddings of the cleaner agree on finite numbers         *)
(* ================================================================== *)

(** On a frame without infinities the methods of [DataCleanerFloat] do what
    those of [DataCleaner] do: the properties stated over [DataCleaner] are
    properties of the cleaner on such frames. *)

Module FiniteFrames.

Import DataCleaner.

Lemma dropna_of_cells (xs : list (option Q)) :
  dropna (map DataCleanerFloat.of_cell xs)
  = map DataCleanerFloat.Finite (dropna xs).
Proof.
  induction xs as [|[v|] xs IH]; simpl; congruence.
Qed.

Lemma sum_of_finite (vals : list Q) :
  DataCleanerFloat.sum (map DataCleanerFloat.Finite vals)
  = Some (DataCleanerFloat.Finite (Qsum vals)).
Proof.
  induction vals as [|v vals IH]; [reflexivity|].
  change (DataCleanerFloat.sum (map DataCleanerFloat.Finite (v :: vals)))
    with (DataCleanerFloat.add (Some (DataCleanerFloat.Finite v))
            (DataCleanerFloat.sum (map DataCleanerFloat.Finite vals))).
  now rewrite IH.
Qed.

Lemma mean_of_cells (xs : list (option Q)) :
  DataCleanerFloat.mean (map DataCleanerFloat.of_cell xs)
  = DataCleanerFloat.of_cell (mean xs).
Proof.
  unfold DataCleanerFloat.mean, mean. rewrite dropna_of_cells.
  destruct (dropna xs) as [|v vals]; [reflexivity|].
  cbn [map]. cbv iota beta.
  change (DataCleanerFloat.Finite v :: map DataCleanerFloat.Finite vals)
    with (map DataCleanerFloat.Finite (v :: vals)).
  rewrite sum_of_finite, length_map. reflexivity.
Qed.

Lemma isnull_any_of_cells (xs : list (option Q)) :
  isnull_any (map DataCleanerFloat.of_cell xs) = isnull_any xs.
Proof.
  unfold isnull_any. induction xs as [|[v|] xs IH]; simpl; auto.
Qed.

Lemma fillna_of_cells (m : option Q) (xs : list (option Q)) :
  fillna (DataCleanerFloat.of_cell m) (map DataCleanerFloat.of_cell xs)
  = map DataCleanerFloat.of_cell (fillna m xs).
Proof.
  unfold fillna. rewrite !map_map. apply map_ext. now intros [v|].
Qed.

Lemma impute_numeric_of_column (c : column) :
  DataCleanerFloat.impute_numeric (DataCleanerFloat.of_column c)
  = (DataCleanerFloat.of_column (fst (impute_numeric c)),
     map DataCleanerFloat.of_message (snd (impute_numeric c))).
Proof.
  destruct c as [col [xs|xs|xs|xs]]; try reflexivity.
  unfold DataCleanerFloat.impute_numeric, impute_numeric,
    DataCleanerFloat.of_column.
  cbn [DataCleanerFloat.data DataCleanerFloat.name name data
       DataCleanerFloat.of_series].
  rewrite isnull_any_of_cells.
  destruct (isnull_any xs); [|reflexivity].
  cbn [fst snd map DataCleanerFloat.of_message name data
       DataCleanerFloat.of_series].
  now rewrite mean_of_cells, fillna_of_cells.
Qed.

Lemma impute_categorical_of_frame (df : DataFrame) :
  DataCleanerFloat.impute_categorical (DataCleanerFloat.of_frame df)
  = (DataCleanerFloat.of_frame (fst (fst (impute_categorical df))),
     map DataCleanerFloat.of_message (snd (fst (impute_categorical df))),
     snd (impute_categorical df)).
Proof.
  induction df as [|c rest IH]; [reflexivity|].
  cbn [DataCleanerFloat.of_frame map DataCleanerFloat.impute_categorical
       impute_categorical].
  fold (DataCleanerFloat.of_frame rest). rewrite IH.
  destruct (impute_categorical rest) as [[rest' log] e].
  destruct c as [col [xs|xs|xs|xs]]; try reflexivity.
  cbn [DataCleanerFloat.of_column DataCleanerFloat.data
       DataCleanerFloat.name name data DataCleanerFloat.of_series].
  destruct (isnull_any xs); [|reflexivity].
  destruct (hd_error (mode xs)) as [v|]; reflexivity.
Qed.

(** Mean and mode imputation. *)
Lemma impute_missing_values_of_frame (df : DataFrame) :
  DataCleanerFloat.impute_missing_values (DataCleanerFloat.of_frame df)
  = (DataCleanerFloat.of_frame (fst (fst (impute_missing_values df))),
     map DataCleanerFloat.of_message (snd (fst (impute_missing_values df))),
     snd (impute_missing_values df)).
Proof.
  unfold DataCleanerFloat.impute_missing_values, impute_missing_values.
  assert (E1 : map fst (map DataCleanerFloat.impute_numeric
                          (DataCleanerFloat.of_frame df))
               = DataCleanerFloat.of_frame (map fst (map impute_numeric df))).
  { unfold DataCleanerFloat.of_frame. rewrite !map_map. apply map_ext.
    intros c. now rewrite impute_numeric_of_column. }
  assert (E2 : flat_map snd (map DataCleanerFloat.impute_numeric
                               (DataCleanerFloat.of_frame df))
               = map DataCleanerFloat.of_message
                   (flat_map snd (map impute_numeric df))).
  { clear E1. unfold DataCleanerFloat.of_frame.
    induction df as [|c rest IH]; [reflexivity|].
    cbn [map flat_map]. rewrite map_app, IH, impute_numeric_of_column.
    reflexivity. }
  rewrite E1, E2, impute_categorical_of_frame.
  destruct (impute_categorical (map fst (map impute_numeric df)))
    as [[df' log] e].
  cbn [fst snd]. now rewrite map_app.
Qed.

Lemma replace_inf_of_cells (xs : list (option Q)) :
  map DataCleanerFloat.replace_inf (map DataCleanerFloat.of_cell xs) = xs.
Proof.
  rewrite map_map. rewrite <- (map_id xs) at 2. apply map_ext.
  now intros [v|].
Qed.

Lemma numeric_data_of_frame (df : DataFrame) :
  DataCleanerFloat.numeric_data (DataCleanerFloat.of_frame df)
  = filter (fun p => negb (all_missing (snd p))) (select_numeric df) /\
  length (DataCleanerFloat.select_numeric (DataCleanerFloat.of_frame df))
  = length (select_numeric df).
Proof.
  unfold DataCleanerFloat.numeric_data, DataCleanerFloat.select_numeric,
    select_numeric, DataCleanerFloat.of_frame.
  induction df as [|c rest IH]; [split; reflexivity|].
  destruct IH as [IH1 IH2].
  cbn [map flat_map].
  destruct c as [col [xs|xs|xs|xs]];
    cbn [DataCleanerFloat.of_column DataCleanerFloat.data
         DataCleanerFloat.name name data DataCleanerFloat.of_series app];
    try (split; assumption).
  cbn [map filter fst snd length]. rewrite replace_inf_of_cells.
  destruct (negb (all_missing xs)); cbn [length]; split; congruence.
Qed.

Lemma len_of_frame (df : DataFrame) :
  DataCleanerFloat.len (DataCleanerFloat.of_frame df) = len df.
Proof.
  destruct df as [|c rest]; [reflexivity|]. simpl.
  destruct (data c); simpl; now rewrite ?length_map.
Qed.

Lemma assign_of_frame (df : DataFrame) (col : string) (values : list Q) :
  DataCleanerFloat.assign (DataCleanerFloat.of_frame df) col values
  = match assign df col values with
    | inl e => inl e
    | inr df' => inr (DataCleanerFloat.of_frame df')
    end.
Proof.
  unfold DataCleanerFloat.assign, assign. rewrite len_of_frame.
  destruct (length values =? len df); [|reflexivity].
  unfold DataCleanerFloat.of_frame. rewrite !map_map.
  apply f_equal, map_ext. intros c.
  cbn [DataCleanerFloat.of_column DataCleanerFloat.name].
  destruct (String.eqb (name c) col); [|reflexivity].
  unfold DataCleanerFloat.of_column.
  cbn [name data DataCleanerFloat.of_series]. now rewrite map_map.
Qed.

Lemma knn_update_of_frame (cols : list string) (imputed_data : list (list Q)) :
  forall (i : nat) (df : DataFrame),
    DataCleanerFloat.knn_update (DataCleanerFloat.of_frame df) i cols
      imputed_data
    = (DataCleanerFloat.of_frame (fst (knn_update df i cols imputed_data)),
       snd (knn_update df i cols imputed_data)).
Proof.
  induction cols as [|col rest IH]; intros i df; [reflexivity|].
  cbn [DataCleanerFloat.knn_update knn_update].
  destruct (nth_error imputed_data i) as [values|]; [|reflexivity].
  rewrite assign_of_frame.
  destruct (assign df col values) as [e|df']; [reflexivity|]. apply IH.
Qed.

(** Nearest-neighbour imputation: on such a frame line 50 changes
    nothing. *)
Lemma knn_imputation_of_frame
  (fit_transform : Z -> list (list (option Q)) -> exn + list (list Q))
  (df : DataFrame) :
  DataCleanerFloat.knn_imputation fit_transform (DataCleanerFloat.of_frame df)
  = (DataCleanerFloat.of_frame (fst (knn_imputation fit_transform df)),
     map DataCleanerFloat.of_message (snd (knn_imputation fit_transform df))).
Proof.
  unfold DataCleanerFloat.knn_imputation, knn_imputation.
  destruct (numeric_data_of_frame df) as [-> ->]. rewrite len_of_frame.
  destruct (0 <? length (select_numeric df)); [|reflexivity].
  destruct (0 <? length (filter _ (select_numeric df))); [|reflexivity].
  destruct (fit_transform _ _) as [e|imputed_data]; [reflexivity|].
  rewrite knn_update_of_frame.
  destruct (knn_update df 0 _ imputed_data) as [df' [e|]]; reflexivity.
Qed.

Lemma lt_of_cell (x : option Q) (bound : Q) :
  DataCleanerFloat.lt (DataCleanerFloat.of_cell x)
    (Some (DataCleanerFloat.Finite bound)) = cell_lt x bound /\
  DataCleanerFloat.lt (Some (DataCleanerFloat.Finite bound))
    (DataCleanerFloat.of_cell x) = cell_gt x bound.
Proof. destruct x as [v|]; split; reflexivity. Qed.

(** The assignments of lines 102 and 103 on one cell. *)
Lemma below_of_cell (x : option Q) (bound : Q) :
  (if DataCleanerFloat.lt (DataCleanerFloat.of_cell x)
        (Some (DataCleanerFloat.Finite bound))
   then Some (DataCleanerFloat.Finite bound)
   else DataCleanerFloat.of_cell x)
  = DataCleanerFloat.of_cell (if cell_lt x bound then Some bound else x).
Proof.
  destruct (lt_of_cell x bound) as [-> _]. now destruct (cell_lt x bound).
Qed.

Lemma above_of_cell (x : option Q) (bound : Q) :
  (if DataCleanerFloat.lt (Some (DataCleanerFloat.Finite bound))
        (DataCleanerFloat.of_cell x)
   then Some (DataCleanerFloat.Finite bound)
   else DataCleanerFloat.of_cell x)
  = DataCleanerFloat.of_cell (if cell_gt x bound then Some bound else x).
Proof.
  destruct (lt_of_cell x bound) as [_ ->]. now destruct (cell_gt x bound).
Qed.

Lemma filter_of_cells (f : option DataCleanerFloat.float -> bool)
  (g : option Q -> bool) (xs : list (option Q)) :
  (forall x, f (DataCleanerFloat.of_cell x) = g x) ->
  filter f (map DataCleanerFloat.of_cell xs)
  = map DataCleanerFloat.of_cell (filter g xs).
Proof.
  intros H. induction xs as [|x xs IH]; [reflexivity|].
  cbn [map filter]. rewrite H, IH. now destruct (g x).
Qed.

Lemma no_outlier_without_bounds (xs : list (option DataCleanerFloat.float)) :
  filter (fun x => DataCleanerFloat.lt x None || DataCleanerFloat.lt None x)
         xs = [].
Proof.
  induction xs as [|x xs IH]; [reflexivity|]. cbn [filter].
  now rewrite DataCleanerFloatProps.lt_nan_right,
    DataCleanerFloatProps.lt_nan_left.
Qed.

Section Quartiles.

Variable quantile : list (option DataCleanerFloat.float) -> Q
                    -> option DataCleanerFloat.float.

(** On a column of finite numbers the library's quantile is the linear
    interpolation of [DataCleaner.quantile]. *)
Hypothesis quantile_of_cells :
  forall xs q,
    quantile (map DataCleanerFloat.of_cell xs) q
    = DataCleanerFloat.of_cell (DataCleaner.quantile xs q).

(** Outlier capping. *)
Lemma cap_outliers_of_column (c : column) :
  DataCleanerFloat.cap_outliers quantile (DataCleanerFloat.of_column c)
  = (DataCleanerFloat.of_column (fst (cap_outliers c)),
     map DataCleanerFloat.of_message (snd (cap_outliers c))).
Proof.
  destruct c as [col [xs|xs|xs|xs]]; try reflexivity.
  unfold DataCleanerFloat.cap_outliers, cap_outliers,
    DataCleanerFloat.of_column.
  cbn [DataCleanerFloat.data DataCleanerFloat.name name data
       DataCleanerFloat.of_series].
  rewrite !quantile_of_cells.
  destruct (DataCleaner.quantile xs (1 # 4)) as [Q1|];
    destruct (DataCleaner.quantile xs (3 # 4)) as [Q3|];
    cbn [DataCleanerFloat.of_cell option_map DataCleanerFloat.sub
         DataCleanerFloat.add DataCleanerFloat.opp DataCleanerFloat.scale];
    try (rewrite no_outlier_without_bounds; reflexivity).
  set (lo := (Q1 - (3 # 2) * (Q3 - Q1))%Q).
  set (hi := (Q3 + (3 # 2) * (Q3 - Q1))%Q).
  change (Q1 + - ((3 # 2) * (Q3 + - Q1)))%Q with lo.
  change (Q3 + (3 # 2) * (Q3 + - Q1))%Q with hi.
  rewrite (filter_of_cells _ (fun x => cell_lt x lo || cell_gt x hi))
    by (intros x; destruct (lt_of_cell x lo) as [-> _];
        destruct (lt_of_cell x hi) as [_ ->]; reflexivity).
  rewrite length_map.
  destruct (0 <? length (filter (fun x => cell_lt x lo || cell_gt x hi) xs));
    [|reflexivity].
  cbn [fst snd map DataCleanerFloat.of_message name data
       DataCleanerFloat.of_series].
  do 3 f_equal. rewrite !map_map. apply map_ext. intros x.
  rewrite (below_of_cell x lo). apply above_of_cell.
Qed.

Lemma handle_outliers_of_frame (df : DataFrame) :
  DataCleanerFloat.handle_outliers quantile (DataCleanerFloat.of_frame df)
  = (DataCleanerFloat.of_frame (fst (handle_outliers df)),
     map DataCleanerFloat.of_message (snd (handle_outliers df))).
Proof.
  unfold DataCleanerFloat.handle_outliers, handle_outliers,
    DataCleanerFloat.of_frame.
  cbn [fst snd].
  assert (E1 : map fst (map (DataCleanerFloat.cap_outliers quantile)
                          (map DataCleanerFloat.of_column df))
               = map DataCleanerFloat.of_column
                   (map fst (map cap_outliers df))).
  { rewrite !map_map. apply map_ext. intros c.
    now rewrite cap_outliers_of_column. }
  assert (E2 : flat_map snd (map (DataCleanerFloat.cap_outliers quantile)
                               (map DataCleanerFloat.of_column df))
               = map DataCleanerFloat.of_message
                   (flat_map snd (map cap_outliers df))).
  { clear E1. induction df as [|c rest IH]; [reflexivity|].
    cbn [map flat_map]. rewrite map_app, IH, cap_outliers_of_column.
    reflexivity. }
  now rewrite E1, E2.
Qed.

End Quartiles.

Lemma quantile_finite_of_cells (xs : list (option Q)) (q : Q) :
  DataCleanerFloat.quantile_finite (map DataCleanerFloat.of_cell xs) q
  = DataCleanerFloat.of_cell (DataCleaner.quantile xs q).
Proof.
  unfold DataCleanerFloat.quantile_finite.
  rewrite replace_inf_of_cells.
  assert (H : forallb (fun x : option DataCleanerFloat.float =>
                         match x with
                         | Some DataCleanerFloat.PosInf
                         | Some DataCleanerFloat.NegInf => false
                         | _ => true
                         end) (map DataCleanerFloat.of_cell xs) = true).
  { apply forallb_forall. intros x Hx. apply in_map_iff in Hx.
    destruct Hx as ([v|] & <- & _); reflexivity. }
  now rewrite H.
Qed.

End FiniteFrames.
